(** * panclient: the chunked transfer engine, embedded and verified

    A shallow embedding of the transfer engine of the pan client
    ([utils/file/download.go], [utils/file/upload.go], [file/upload.go]):
    the download part planner, the resume validation pass, the two retry
    drivers, the slice uploader with its resume entry point, the path
    sanitiser and the semaphore discipline of the part scheduler.

    Conventions.
    - Go's [int64] (and [int], taken to be 64 bits wide) is a [Z] with the
      two's-complement wrap-around written out ([wrap64]).
    - Go's [float64] is the IEEE-754 binary64 format as specified by the
      standard library's [SpecFloat] (precision 53, [emax] 1024).
    - A Go [string] is a [string] of bytes; a [[]T] is a [list T].
    - A function that can panic returns an [outcome]. *)

From Stdlib Require Import ZArith List String Ascii Bool Lia.
From Stdlib Require Import Floats.SpecFloat.
From stdpp Require Import list.
Import ListNotations.
Local Open Scope Z_scope.

(** ** Results of Go code that may panic *)

Inductive outcome (A : Type) : Type :=
| Ret (a : A)
| Panic (msg : string).
Arguments Ret {A} a.
Arguments Panic {A} msg.

Definition obind {A B : Type} (m : outcome A) (k : A -> outcome B) : outcome B :=
  match m with
  | Ret a => k a
  | Panic msg => Panic msg
  end.

Notation "'let!' x ':=' m 'in' k" := (obind m (fun x => k))
  (at level 10, x name, m at level 100, k at level 200).

(** A Go [error] value; [None] stands for [nil]. *)
Definition error := string.

(** ** 64-bit integers *)

Module Int64.

Definition min_int : Z := - 2 ^ 63.
Definition max_int : Z := 2 ^ 63 - 1.

Definition in_range (z : Z) : Prop := min_int <= z <= max_int.

(** Reduction of a mathematical integer into the signed 64-bit range. *)
Definition wrap64 (z : Z) : Z := (z + 2 ^ 63) mod 2 ^ 64 - 2 ^ 63.

Definition add (a b : Z) : Z := wrap64 (a + b).
Definition sub (a b : Z) : Z := wrap64 (a - b).
Definition neg (a : Z) : Z := wrap64 (- a).

(** Go's [/] on integers truncates toward zero and panics on a zero
    divisor; [min_int / -1] wraps. *)
Definition div (a b : Z) : outcome Z :=
  if b =? 0 then Panic "integer divide by zero"
  else Ret (wrap64 (Z.quot a b)).

End Int64.

(** ** 64-bit floating point *)

Module Float64.

Definition prec : Z := 53.
Definition emax : Z := 1024.

Definition float64 := spec_float.

(** The conversion [float64(n)] of an integer: round to nearest even. *)
Definition of_int64 (n : Z) : float64 := binary_normalize prec emax n 0 false.

(** The quotient [x / y] of two [float64] values. *)
Definition div (x y : float64) : float64 := SFdiv prec emax x y.

(** The ceiling of the rational [x / y], for a positive [y]. *)
Definition ceil_quot (x y : Z) : Z := - ((- x) / y).

(** The least integer not below [m * 2 ^ e], for a positive mantissa. *)
Definition ceil_pos (m : positive) (e : Z) : Z :=
  match e with
  | Zneg k => ceil_quot (Zpos m) (2 ^ Zpos k)
  | _ => Zpos m * 2 ^ e
  end.

(** The integer part of [m * 2 ^ e], for a positive mantissa. *)
Definition floor_pos (m : positive) (e : Z) : Z :=
  match e with
  | Zneg k => Zpos m / 2 ^ Zpos k
  | _ => Zpos m * 2 ^ e
  end.

(** [math.Ceil]: zeros, infinities and NaN are returned unchanged; a
    negative value above -1 yields the negative zero. *)
Definition Ceil (x : float64) : float64 :=
  match x with
  | S754_finite false m e =>
      match e with
      | Zneg _ => binary_normalize prec emax (ceil_pos m e) 0 false
      | _ => x
      end
  | S754_finite true m e =>
      match e with
      | Zneg _ => binary_normalize prec emax (- floor_pos m e) 0 true
      | _ => x
      end
  | _ => x
  end.

(** What a conversion to an integer yields when the value is NaN, an
    infinity or out of range is left to the implementation by the language;
    a platform fixes it. *)
Record Platform : Type := { conv_invalid : float64 -> Z }.

(** amd64: the "integer indefinite" value for every invalid conversion. *)
Definition amd64 : Platform := {| conv_invalid := fun _ => Int64.min_int |}.

(** arm64: saturation, with NaN converted to zero. *)
Definition arm64 : Platform :=
  {| conv_invalid := fun x =>
       match x with
       | S754_infinity false | S754_finite false _ _ => Int64.max_int
       | S754_infinity true | S754_finite true _ _ => Int64.min_int
       | _ => 0
       end |}.

(** The conversion [int(x)] (and [int64(x)]): truncation toward zero. *)
Definition to_int (pf : Platform) (x : float64) : Z :=
  match x with
  | S754_zero _ => 0
  | S754_finite s m e =>
      let t := if s then - floor_pos m e else floor_pos m e in
      if (Int64.min_int <=? t) && (t <=? Int64.max_int) then t
      else conv_invalid pf x
  | _ => conv_invalid pf x
  end.

(** The idiom [int(math.Ceil(float64(a) / float64(b)))] used for the part
    and slice counts. *)
Definition ceil_div (pf : Platform) (a b : Z) : Z :=
  to_int pf (Ceil (div (of_int64 a) (of_int64 b))).

(** The last step of [binary_round_aux]: a mantissa that the rounding has
    carried to [2^53] is halved. *)
Definition finish (s : bool) (m : Z) (e : Z) : spec_float :=
  let '(mrs, e') := shr_fexp prec emax m e loc_Exact in
  match shr_m mrs with
  | Z0 => S754_zero s
  | Zpos m' =>
      if e' <=? emax - prec then S754_finite s m' e'
      else S754_infinity s
  | Zneg _ => S754_nan
  end.

End Float64.

(** ** [strings.Replace(s, old, new, -1)] for a non-empty [old]

    Occurrences are taken from the left and do not overlap. [skip] counts
    the bytes of the current occurrence that remain to be dropped. *)

Fixpoint Replace_from (old new : string) (skip : nat) (s : string) : string :=
  match s with
  | EmptyString => EmptyString
  | String c rest =>
      match skip with
      | S k => Replace_from old new k rest
      | O =>
          if String.prefix old s
          then String.append new (Replace_from old new (Nat.pred (String.length old)) rest)
          else String c (Replace_from old new O rest)
      end
  end.

Definition Replace (s old new : string) : string := Replace_from old new O s.

(** ** [utils/file]: the downloader *)

Module utilfile.

(** [Part]: a byte range of the remote file, [From] and [To] inclusive. *)
Record Part : Type := mkPart
  { Index : Z; From : Z; To : Z; Part_FilePath : string }.

Record DownloadPartSnapshot : Type := mkDownloadPartSnapshot
  { dps_From : Z; dps_To : Z; dps_FilePath : string }.

Record DownloadSnapshot : Type := mkDownloadSnapshot
  { FsID : Z;
    FileMd5 : string;
    SavePath : string;
    Recoverable : bool;
    VipType : Z;
    DoneSize : Z;
    TotalSize : Z;
    snap_PartSize : Z;
    snap_TotalPart : Z;
    DoneParts : list DownloadPartSnapshot }.

Record Downloader : Type := mkDownloader
  { FileSize : Z;
    Link : string;
    FilePath : string;
    TotalPart : Z;
    PartSize : Z;
    PartCoroutineNum : Z }.

(** [NewFileDownloader]. *)
Definition NewFileDownloader (downloadLink filePath : string) : Downloader :=
  {| FileSize := 0; Link := downloadLink; FilePath := filePath;
     TotalPart := 0; PartSize := 10485760; PartCoroutineNum := 1 |}.

(** The length [To - From + 1] of a part, as [Download], [ResumeDownload]
    and [downloadPart] compute it. *)
Definition part_len (from to : Z) : Z := Int64.add (Int64.sub to from) 1.

(** [Download], lines 112-119: the number of parts. The preset count is
    replaced when it is zero or exceeds [FileSize / PartSize]; the result
    is capped at 100. *)
Definition maxTotalPart : Z := 100.

Definition planTotalPart (pf : Float64.Platform) (d : Downloader) : outcome Z :=
  let! recompute :=
    (if TotalPart d =? 0 then Ret true
     else let! q := Int64.div (FileSize d) (PartSize d) in Ret (q <? TotalPart d)) in
  let tp := if recompute : bool
            then Float64.ceil_div pf (FileSize d) (PartSize d)
            else TotalPart d in
  Ret (if tp >? maxTotalPart then maxTotalPart else tp).

(** [Download], lines 128-143: the loop over [jobs]. [k] counts the
    iterations left, [i] is the index and [prevTo] is [jobs[i-1].To]. *)
Fixpoint plan_loop (fileTotalSize eachSize totalPart : Z)
    (k : nat) (i : Z) (prevTo : Z) : list Part :=
  match k with
  | O => []
  | S k' =>
      let from := if i =? 0 then 0 else Int64.add prevTo 1 in
      let to := if i <? totalPart - 1
                then Int64.add from eachSize
                else Int64.sub fileTotalSize 1 in
      mkPart i from to EmptyString
        :: plan_loop fileTotalSize eachSize totalPart k' (i + 1) to
  end.

Definition plan_jobs (fileTotalSize eachSize totalPart : Z) : list Part :=
  plan_loop fileTotalSize eachSize totalPart (Z.to_nat totalPart) 0 0.

Record Plan : Type := mkPlan
  { plan_totalPart : Z; plan_eachSize : Z; plan_jobs_of : list Part }.

(** [Download], lines 112-143: the part plan. [make] panics on a negative
    length and the division on a zero part count. *)
Definition Download_plan (pf : Float64.Platform) (d : Downloader) : outcome Plan :=
  let! tp := planTotalPart pf d in
  if tp <? 0 then Panic "makeslice: len out of range"
  else
    let! eachSize := Int64.div (FileSize d) tp in
    Ret (mkPlan tp eachSize (plan_jobs (FileSize d) eachSize tp)).

(** The fields of the snapshot that the planning writes. *)
Definition Download_plan_snapshot (p : Plan) (snapshot : DownloadSnapshot)
    : DownloadSnapshot :=
  {| FsID := FsID snapshot;
     FileMd5 := FileMd5 snapshot;
     SavePath := SavePath snapshot;
     Recoverable := true;
     VipType := VipType snapshot;
     DoneSize := DoneSize snapshot;
     TotalSize := TotalSize snapshot;
     snap_PartSize := plan_eachSize p;
     snap_TotalPart := plan_totalPart p;
     DoneParts := map (fun j => mkDownloadPartSnapshot (From j) (To j) EmptyString)
                      (plan_jobs_of p) |}.

(** The tiling of [total] bytes by a list of parts, over the integers:
    the first part starts at 0, each part starts right after its
    predecessor, the last one ends at [total - 1], and the lengths add up
    to [total]. *)
Definition tiles (total : Z) (parts : list Part) : Prop :=
  (exists p, parts !! 0%nat = Some p /\ From p = 0)
  /\ (forall i p q, parts !! i = Some p -> parts !! S i = Some q ->
                    From q = To p + 1)
  /\ (exists p, last parts = Some p /\ To p = total - 1)
  /\ fold_right Z.add 0 (map (fun p => To p - From p + 1) parts) = total.

(** The same, with every sum and difference taken in [int64]. *)
Definition tiles64 (total : Z) (parts : list Part) : Prop :=
  (exists p, parts !! 0%nat = Some p /\ From p = 0)
  /\ (forall i p q, parts !! i = Some p -> parts !! S i = Some q ->
                    From q = Int64.add (To p) 1)
  /\ (exists p, last parts = Some p /\ To p = Int64.sub total 1)
  /\ fold_left Int64.add (map (fun p => part_len (From p) (To p)) parts) 0 = total.

(** *** [ResumeDownload], lines 277-295: validation of the recorded parts *)

(** What [os.Stat] answers for a path: no error, an error for which
    [os.IsNotExist] holds, or any other error. *)
Inductive StatResult : Type := StatOk | StatNotExist | StatOtherError.

(** The loop over [snapshot.DoneParts]: a recorded part whose temp file
    cannot be stat'ed loses its path and its length is taken off
    [doneSize]; the path is queued for deletion unless the file is known
    not to exist. Returns the parts, [doneSize] and [delFiles]. *)
Fixpoint validate_loop (stat : string -> StatResult)
    (parts : list DownloadPartSnapshot) (doneSize : Z) (delFiles : list string)
    : list DownloadPartSnapshot * Z * list string :=
  match parts with
  | [] => ([], doneSize, delFiles)
  | part :: rest =>
      if String.eqb (dps_FilePath part) EmptyString then
        let '(ps, ds, dl) := validate_loop stat rest doneSize delFiles in
        (part :: ps, ds, dl)
      else
        match stat (dps_FilePath part) with
        | StatOk =>
            let '(ps, ds, dl) := validate_loop stat rest doneSize delFiles in
            (part :: ps, ds, dl)
        | r =>
            let delFiles' :=
              match r with
              | StatNotExist => delFiles
              | _ => delFiles ++ [dps_FilePath part]
              end in
            let doneSize' :=
              Int64.sub doneSize (part_len (dps_From part) (dps_To part)) in
            let '(ps, ds, dl) := validate_loop stat rest doneSize' delFiles' in
            (mkDownloadPartSnapshot (dps_From part) (dps_To part) EmptyString :: ps,
             ds, dl)
        end
  end.

(** [ResumeDownload] up to line 295: the snapshot after the validation
    pass, and the files queued for deletion. *)
Definition ResumeDownload_validate (stat : string -> StatResult)
    (snapshot : DownloadSnapshot) : DownloadSnapshot * list string :=
  let '(parts, doneSize, delFiles) :=
    validate_loop stat (DoneParts snapshot) (DoneSize snapshot) [] in
  let doneSize := if doneSize <? 0 then 0 else doneSize in
  ({| FsID := FsID snapshot;
      FileMd5 := FileMd5 snapshot;
      SavePath := SavePath snapshot;
      Recoverable := true;
      VipType := VipType snapshot;
      DoneSize := doneSize;
      TotalSize := TotalSize snapshot;
      snap_PartSize := snap_PartSize snapshot;
      snap_TotalPart := snap_TotalPart snapshot;
      DoneParts := parts |}, delFiles).

End utilfile.

(** ** The retry drivers

    What a retry driver does to the world is recorded as a list of events,
    in program order. *)

Inductive Event : Type :=
| EvSleep (seconds : Z)          (* time.Sleep *)
| EvAttempt (tryIter : nat)      (* a call of downloadPart / SuperFile2Upload *)
| EvProgress (delta : Z)         (* a call of the caller's progressHandler *)
| EvRemove (path : string)       (* os.Remove *)
| EvCtxErr (r : option error).   (* an evaluation of ctx.Err() *)

(** The byte count an attempt has reported: [partDoneSize] after the
    handler has been called with each of [reads]. *)
Definition reported (reads : list Z) : Z := fold_left Int64.add reads 0.

(** The state of a progress accumulator after the [EvProgress] events of
    a trace have been fed to its handler [h]. *)
Fixpoint run_progress {S : Type} (h : Z -> S -> S) (tr : list Event) (s : S) : S :=
  match tr with
  | [] => s
  | EvProgress delta :: tr' => run_progress h tr' (h delta s)
  | _ :: tr' => run_progress h tr' s
  end.

Module retry_download.
Import utilfile.

(** One call of [downloadPart]: the sizes it reports to the progress
    handler, the temp file it created (if it got that far) and its error. *)
Record Attempt : Type := mkAttempt
  { reads : list Z; created : option string; err : option error }.

(** The environment of a part download: the outcome of the [i]-th call of
    [downloadPart], and the value of [ctx.Err()] after it has failed. *)
Record Env : Type := mkEnv
  { attempt : nat -> Attempt; ctx_err : nat -> option error }.

(** [retPart] of [downloadPart]: the part, with the path of the temp file
    once it has been created. *)
Definition retPart_of (part : Part) (a : Attempt) : Part :=
  match created a with
  | Some path => mkPart (Index part) (From part) (To part) path
  | None => part
  end.

Definition zero_Part : Part := mkPart 0 0 0 EmptyString.

(** The events of iteration [i] of the loop of [tryDownloadPart], lines
    428-439: the sleep before a retry, the attempt with its progress
    reports and, when it has failed, the removal of its temp file, the
    report of [-partDoneSize] and the evaluation of [ctx.Err()]. *)
Definition iteration (env : Env) (part : Part) (i : nat) : list Event :=
  let a := attempt env i in
  let retPart := retPart_of part a in
  (match i with O => [] | _ => [EvSleep 6] end)
    ++ EvAttempt i :: map EvProgress (reads a)
    ++ match err a with
       | None => []
       | Some _ =>
           (if String.eqb (Part_FilePath retPart) EmptyString then []
            else [EvRemove (Part_FilePath retPart)])
             ++ [EvProgress (Int64.neg (reported (reads a)));
                 EvCtxErr (ctx_err env i)]
       end.

(** [tryDownloadPart], lines 427-443. [k] iterations are left and [i] is
    the loop counter; [retPart] and [err0] are the variables [retPart] and
    [err]. *)
Fixpoint try_loop (env : Env) (part : Part) (k : nat) (i : nat)
    (retPart : Part) (err0 : option error) : Part * option error * list Event :=
  match k with
  | O => (retPart, err0, [])
  | S k' =>
      let a := attempt env i in
      let retPart' := retPart_of part a in
      match err a with
      | None => (retPart', None, iteration env part i)
      | Some e =>
          match ctx_err env i with
          | Some _ => (retPart', Some e, iteration env part i)
          | None =>
              let '(p, e', tr) := try_loop env part k' (S i) retPart' (Some e) in
              (p, e', iteration env part i ++ tr)
          end
      end
  end.

Definition tryDownloadPart (env : Env) (part : Part)
    : Part * option error * list Event :=
  try_loop env part 10 0 zero_Part None.

(** The accumulator behind the handler that [Download] and
    [ResumeDownload] pass to [tryDownloadPart]: [doneSize += partDoneSize]. *)
Definition internalProgressHandler (partDoneSize : Z) (doneSize : Z) : Z :=
  Int64.add doneSize partDoneSize.

End retry_download.

(** ** [file]: the uploader *)

Module panfile.

(** Modelled from the spec: the embedded [conf.CloudDiskResponseBase] and
    [conf.PcsResponseBase], whose declarations are not among the sources,
    are the response envelope of the wire surface, [errno], [errmsg] and
    [request_id]; they are the first three fields of the three response
    records below. *)
Record UploadResponse : Type := mkUploadResponse
  { ur_ErrorCode : Z; ur_ErrorMsg : string; ur_RequestID : Z;
    ur_Path : string; ur_Name : string; ur_Size : Z; ur_Md5 : string;
    ur_FsID : Z; ur_IsDir : Z }.

Record PreCreateResponse : Type := mkPreCreateResponse
  { pc_ErrorCode : Z; pc_ErrorMsg : string; pc_RequestID : Z;
    UploadID : string; ReturnType : Z; Info : UploadResponse }.

Record SuperFile2UploadResponse : Type := mkSuperFile2UploadResponse
  { sf_ErrorCode : Z; sf_ErrorMsg : string; sf_RequestID : Z;
    sf_Md5 : string; sf_UploadID : string; PartSeq : string }.

Record UploadPartResponse : Type := mkUploadPartResponse
  { Response : SuperFile2UploadResponse; upr_Size : Z; upr_Error : option error }.

Record LocalFileInfo : Type := mkLocalFileInfo
  { Md5 : string; Size : Z; ModTime : Z }.

Record Uploader : Type := mkUploader
  { AccessToken : string; Path : string; LocalFilePath : string;
    FileInfo : LocalFileInfo; SliceSize : Z }.

(** [fileUtil.UploadSnapshot] of [utils/file/upload.go]. *)
Record UploadSnapshot : Type := mkUploadSnapshot
  { s_Path : string; LocalPath : string; UploadId : string;
    FileMd5 : string; FileModTime : Z; Recoverable : bool;
    DoneSize : Z; TotalSize : Z; s_SliceSize : Z; SliceNum : Z;
    DoneSlices : list string }.

Definition zero_UploadResponse : UploadResponse :=
  mkUploadResponse 0 EmptyString 0 EmptyString EmptyString 0 EmptyString 0 0.
Definition zero_PreCreateResponse : PreCreateResponse :=
  mkPreCreateResponse 0 EmptyString 0 EmptyString 0 zero_UploadResponse.
Definition zero_SuperFile2UploadResponse : SuperFile2UploadResponse :=
  mkSuperFile2UploadResponse 0 EmptyString 0 EmptyString EmptyString EmptyString.
Definition zero_LocalFileInfo : LocalFileInfo := mkLocalFileInfo EmptyString 0 0.
Definition zero_UploadSnapshot : UploadSnapshot :=
  mkUploadSnapshot EmptyString EmptyString EmptyString EmptyString 0 false 0 0 0 0 [].

(** Assignment of the three fields of the response envelope. *)
Definition set_envelope (r : UploadResponse) (code : Z) (msg : string) (rid : Z)
    : UploadResponse :=
  mkUploadResponse code msg rid (ur_Path r) (ur_Name r) (ur_Size r) (ur_Md5 r)
    (ur_FsID r) (ur_IsDir r).

(** *** Path sanitisation *)

Definition backslash : ascii := ascii_of_nat 92.

(** The Go literals of [handleSpecialChar], escape by escape: two
    backslashes; [?]; [|]; a double quote; [>]; [<]; [:]; [*]; TAB; LF; CR;
    a backslash followed by the digit zero; a backslash followed by [x0B]. *)
Definition specialChars : list string :=
  [ String backslash (String backslash EmptyString);
    "?"; "|"; String (ascii_of_nat 34) EmptyString; ">"; "<"; ":"; "*";
    String (ascii_of_nat 9) EmptyString;
    String (ascii_of_nat 10) EmptyString;
    String (ascii_of_nat 13) EmptyString;
    String backslash "0";
    String backslash "x0B" ]%string.

Definition handleSpecialChar (char : string) : string :=
  fold_left (fun newChar specialChar => Replace newChar specialChar EmptyString)
            specialChars char.

(** The first bytes of the entries of [specialChars]. *)
Definition special_heads : list ascii :=
  [backslash; "?"; "|"; ascii_of_nat 34; ">"; "<"; ":"; "*";
   ascii_of_nat 9; ascii_of_nat 10; ascii_of_nat 13]%char.

Definition NewUploader (accessToken path localFilePath : string) : Uploader :=
  {| AccessToken := accessToken;
     Path := handleSpecialChar path;
     LocalFilePath := localFilePath;
     FileInfo := zero_LocalFileInfo;
     SliceSize := 0 |}.

End panfile.

(** *** The retry driver of a slice upload *)

Module retry_upload.
Import panfile.

(** One call of [SuperFile2Upload]: the sizes reported to the progress
    handler while the body is sent, the decoded response and the error. *)
Record Attempt : Type := mkAttempt
  { reads : list Z; resp : SuperFile2UploadResponse; err : option error }.

Record Env : Type := mkEnv
  { attempt : nat -> Attempt; ctx_err : nat -> option error }.

(** The events of iteration [i] of the loop of [TrySuperFile2Upload],
    lines 458-466: the sleep before a retry, the attempt with its progress
    reports and, when it has failed, the report of [-partDoneSize] and the
    evaluation of [ctx.Err()]. *)
Definition iteration (env : Env) (i : nat) : list Event :=
  let a := attempt env i in
  (match i with O => [] | _ => [EvSleep 6] end)
    ++ EvAttempt i :: map EvProgress (reads a)
    ++ match err a with
       | None => []
       | Some _ =>
           [EvProgress (Int64.neg (reported (reads a)));
            EvCtxErr (ctx_err env i)]
       end.

(** [TrySuperFile2Upload], lines 457-470. *)
Fixpoint try_loop (env : Env) (k : nat) (i : nat)
    (resp0 : SuperFile2UploadResponse) (err0 : option error)
    : SuperFile2UploadResponse * option error * list Event :=
  match k with
  | O => (resp0, err0, [])
  | S k' =>
      let a := attempt env i in
      match err a with
      | None => (resp a, None, iteration env i)
      | Some e =>
          match ctx_err env i with
          | Some _ => (resp a, Some e, iteration env i)
          | None =>
              let '(r, e', tr) := try_loop env k' (S i) (resp a) (Some e) in
              (r, e', iteration env i ++ tr)
          end
      end
  end.

Definition TrySuperFile2Upload (env : Env)
    : SuperFile2UploadResponse * option error * list Event :=
  try_loop env 10 0 zero_SuperFile2UploadResponse None.

(** The accumulator behind the handler that [Upload] passes down, for a
    file of [fileSize] bytes ([ResumeUpload] uses the snapshot's
    [TotalSize]): the sum is clamped at the file size. *)
Definition internalProgressHandler (fileSize : Z) (size : Z) (doneSize : Z) : Z :=
  let doneSize := Int64.add doneSize size in
  if doneSize >? fileSize then fileSize else doneSize.

(** The clamp of that accumulator stays out of reach while [reads] are
    reported on top of [doneSize]. *)
Definition fits (fileSize doneSize : Z) (reads : list Z) : Prop :=
  Forall (fun r => 0 <= r) reads
  /\ doneSize + fold_right Z.add 0 reads <= fileSize.

End retry_upload.

(** *** [Upload] and [ResumeUpload] *)

Module uploader.
Import panfile.

(** The requests that leave the process, in program order. *)
Inductive Request : Type :=
| ReqUserInfo
| ReqPreCreate (path : string) (size : Z) (block_list : list string)
    (content_md5 slice_md5 : string)
| ReqSuperFile2 (uploadid : string) (partseq : Z) (data : list Byte.byte)
    (tryIter : nat)
| ReqCreate (path : string) (uploadid : string) (block_list : list string)
    (size : Z).

(** The world an upload runs in. A transport or decoding failure of a
    request is [inl]; a decoded response, whatever its [errno], is [inr]. *)
Record Env : Type := mkEnv
  { env_file : option (list Byte.byte);   (* the local file; [None] if it cannot be opened *)
    env_mtime : Z;
    env_md5 : list Byte.byte -> string;   (* the hex MD5 of a byte sequence *)
    env_user_info : nat -> option Z;      (* the VipType, at the n-th call of UserInfo *)
    env_precreate : Request -> error + PreCreateResponse;
    env_slice : Z -> list Byte.byte -> retry_upload.Env;
    env_create : Request -> error + UploadResponse;
    env_ctx_hash : nat -> option error;   (* ctx at the n-th buffer of getBlockList *)
    env_ctx_slice : Z -> option error;    (* ctx when slice i is about to be started *)
    env_read_err : Z -> option error }.   (* failure of the read for slice i *)

(** Code that reads and writes the receiver [u] and issues requests. *)
Definition M (A : Type) : Type :=
  Uploader -> list Request -> outcome (A * Uploader * list Request).

Definition mret {A : Type} (a : A) : M A := fun u tr => Ret (a, u, tr).

Definition mbind {A B : Type} (m : M A) (k : A -> M B) : M B :=
  fun u tr =>
    match m u tr with
    | Ret (a, u', tr') => k a u' tr'
    | Panic msg => Panic msg
    end.

Notation "'let*' x ':=' m 'in' k" := (mbind m (fun x => k))
  (at level 10, x name, m at level 100, k at level 200).

Definition receiver : M Uploader := fun u tr => Ret (u, u, tr).
Definition set_receiver (u' : Uploader) : M unit := fun _ tr => Ret (tt, u', tr).
Definition issued : M (list Request) := fun u tr => Ret (tr, u, tr).
Definition emit (r : Request) : M unit := fun u tr => Ret (tt, u, tr ++ [r]).
Definition panic {A : Type} (msg : string) : M A := fun _ _ => Panic msg.

Definition is_UserInfo (r : Request) : bool :=
  match r with ReqUserInfo => true | _ => false end.
Definition is_SuperFile2 (r : Request) : bool :=
  match r with ReqSuperFile2 _ _ _ _ => true | _ => false end.
Definition is_PreCreate (r : Request) : bool :=
  match r with ReqPreCreate _ _ _ _ _ => true | _ => false end.
Definition is_Create (r : Request) : bool :=
  match r with ReqCreate _ _ _ _ => true | _ => false end.

Definition count_req (f : Request -> bool) (tr : list Request) : nat :=
  List.length (List.filter f tr).

(** [GetFileInfo]: cached once the MD5 is known. *)
Definition GetFileInfo (env : Env) (simpleMode : bool)
    : M (LocalFileInfo * option error) :=
  let* u := receiver in
  if negb (String.eqb (Md5 (FileInfo u)) EmptyString) then mret (FileInfo u, None)
  else
    match env_file env with
    | None => mret (zero_LocalFileInfo, Some "open: no such file"%string)
    | Some content =>
        let info :=
          {| Md5 := if simpleMode then EmptyString else env_md5 env content;
             Size := Z.of_nat (List.length content);
             ModTime := env_mtime env |} in
        let* _ := set_receiver
          {| AccessToken := AccessToken u; Path := Path u;
             LocalFilePath := LocalFilePath u; FileInfo := info;
             SliceSize := SliceSize u |} in
        mret (info, None)
    end.

(** [GetSliceSize]: the caller's value if positive; otherwise 4 MiB, or
    the tier's size clamped to the file size when [UserInfo] answers. *)
Definition GetSliceSize (env : Env) (fileSize : Z) : M (Z * option error) :=
  let* u := receiver in
  if SliceSize u >? 0 then mret (SliceSize u, None)
  else
    let* tr := issued in
    let* _ := emit ReqUserInfo in
    match env_user_info env (count_req is_UserInfo tr) with
    | None => mret (4194304, None)
    | Some vipType =>
        let sliceSize :=
          if vipType =? 1 then 16777216
          else if vipType =? 2 then 33554432
          else 4194304 in
        let sliceSize := if fileSize <=? sliceSize then fileSize else sliceSize in
        let* _ := set_receiver
          {| AccessToken := AccessToken u; Path := Path u;
             LocalFilePath := LocalFilePath u; FileInfo := FileInfo u;
             SliceSize := sliceSize |} in
        mret (sliceSize, None)
    end.

(** [getSliceMd5]: the MD5 of the first 256 KiB. *)
Definition getSliceMd5 (env : Env) : M (string * option error) :=
  let* fi := GetFileInfo env false in
  match snd fi with
  | Some e => mret (EmptyString, Some e)
  | None =>
      if Size (fst fi) <=? 262144 then mret (Md5 (fst fi), None)
      else
        match env_file env with
        | None => mret (EmptyString, Some "open: no such file"%string)
        | Some content => mret (env_md5 env (firstn (Z.to_nat 262144) content), None)
        end
  end.

(** The read loop of [getBlockList]: one MD5 per buffer of [sliceSize]
    bytes, until a read returns nothing. *)
Fixpoint blockList_loop (env : Env) (sliceSize : nat) (fuel : nat) (n : nat)
    (rest : list Byte.byte) (blockList : list string)
    : list string * option error :=
  match fuel with
  | O => (blockList, None)
  | S fuel' =>
      match env_ctx_hash env n with
      | Some e => (blockList, Some e)
      | None =>
          match firstn sliceSize rest with
          | [] => (blockList, None)
          | data =>
              blockList_loop env sliceSize fuel' (S n) (skipn sliceSize rest)
                (blockList ++ [env_md5 env data])
          end
      end
  end.

(** [getBlockList]. *)
Definition getBlockList (env : Env) : M (list string * option error) :=
  let* fi := GetFileInfo env false in
  match snd fi with
  | Some e => mret ([], Some e)
  | None =>
      let fileSize := Size (fst fi) in
      let* ss := GetSliceSize env fileSize in
      let sliceSize := fst ss in
      if sliceSize =? fileSize then mret ([Md5 (fst fi)], None)
      else if sliceSize <? 0 then panic "makeslice: len out of range"
      else
        match env_file env with
        | None => mret ([], Some "open: no such file"%string)
        | Some content =>
            mret (blockList_loop env (Z.to_nat sliceSize)
                    (S (List.length content)) 0 content [])
        end
  end.

(** [PreCreate]. *)
Definition PreCreate (env : Env) : M (PreCreateResponse * option error) :=
  let* fi := GetFileInfo env false in
  match snd fi with
  | Some e => mret (zero_PreCreateResponse, Some e)
  | None =>
      let* sm := getSliceMd5 env in
      match snd sm with
      | Some e => mret (zero_PreCreateResponse, Some e)
      | None =>
          let* bl := getBlockList env in
          match snd bl with
          | Some e => mret (zero_PreCreateResponse, Some e)
          | None =>
              let* u := receiver in
              let req := ReqPreCreate (Path u) (Size (fst fi)) (fst bl)
                           (Md5 (fst fi)) (fst sm) in
              let* _ := emit req in
              match env_precreate env req with
              | inl e => mret (zero_PreCreateResponse, Some e)
              | inr ret =>
                  if negb (pc_ErrorCode ret =? 0)
                  then mret (ret, Some "error_code"%string)
                  else mret (ret, None)
              end
          end
      end
  end.

(** [Create]: the commit. *)
Definition Create (env : Env) (uploadID : string) (blockList : list string)
    : M (UploadResponse * option error) :=
  let* fi := GetFileInfo env false in
  match snd fi with
  | Some e => mret (zero_UploadResponse, Some e)
  | None =>
      let* u := receiver in
      let req := ReqCreate (Path u) uploadID blockList (Size (fst fi)) in
      let* _ := emit req in
      match env_create env req with
      | inl e => mret (zero_UploadResponse, Some e)
      | inr ret =>
          if negb (ur_ErrorCode ret =? 0)
          then mret (ret, Some "error_code"%string)
          else mret (ret, None)
      end
  end.

(** [strconv.Atoi]: an optional sign and decimal digits. *)
Definition digit_of (c : ascii) : option Z :=
  let n := Z.of_nat (nat_of_ascii c) in
  if (48 <=? n) && (n <=? 57) then Some (n - 48) else None.

Fixpoint parse_digits (s : string) (acc : Z) : option Z :=
  match s with
  | EmptyString => Some acc
  | String c r =>
      match digit_of c with
      | Some d => parse_digits r (10 * acc + d)
      | None => None
      end
  end.

Definition parse_signed (sign : Z) (digits : string) : option Z :=
  match digits with
  | EmptyString => None
  | _ =>
      match parse_digits digits 0 with
      | Some v =>
          let v := sign * v in
          if (Int64.min_int <=? v) && (v <=? Int64.max_int) then Some v else None
      | None => None
      end
  end.

Definition Atoi (s : string) : option Z :=
  match s with
  | String c r =>
      if Ascii.eqb c "+" then parse_signed 1 r
      else if Ascii.eqb c "-" then parse_signed (-1) r
      else parse_signed 1 s
  | EmptyString => None
  end.

(** The requests behind the attempts of one slice. *)
Definition attempt_requests (uploadID : string) (partSeq : Z)
    (partByte : list Byte.byte) (evs : list Event) : list Request :=
  flat_map (fun ev => match ev with
                      | EvAttempt i => [ReqSuperFile2 uploadID partSeq partByte i]
                      | _ => []
                      end) evs.

Definition emit_all (rs : list Request) : M unit :=
  fun u tr => Ret (tt, u, tr ++ rs).

(** A slice task: [TrySuperFile2Upload] and the response it sends on
    [uploadRespChan]. The tasks of a transfer are run one after the other,
    each to its end, in the order in which they were started: one of the schedules
    the semaphore allows. *)
Definition run_slice (env : Env) (uploadID : string) (partSeq : Z)
    (partByte : list Byte.byte) : M UploadPartResponse :=
  let '(resp, err, evs) :=
    retry_upload.TrySuperFile2Upload (env_slice env partSeq partByte) in
  let* _ := emit_all (attempt_requests uploadID partSeq partByte evs) in
  mret (mkUploadPartResponse resp (Z.of_nat (List.length partByte)) err).

Definition is_err (e : option error) : bool :=
  match e with Some _ => true | None => false end.

(** [Upload], lines 167-201: the producer loop. [rest] is what the file
    handle has not yet read. Returns the responses, in the order of their
    arrival, and [uploadErr]. *)
Fixpoint Upload_loop (env : Env) (uploadID : string) (sliceSize : Z)
    (k : nat) (i : Z) (rest : list Byte.byte) (hasFailed : bool)
    (resps : list UploadPartResponse)
    : M (list UploadPartResponse * option error) :=
  match k with
  | O => mret (resps, None)
  | S k' =>
      if hasFailed then mret (resps, None)
      else
        match env_ctx_slice env i with
        | Some e => mret (resps, Some e)
        | None =>
            if sliceSize <? 0 then panic "makeslice: len out of range"
            else
              match env_read_err env i with
              | Some e => mret (resps, Some e)
              | None =>
                  match firstn (Z.to_nat sliceSize) rest with
                  | [] => mret (resps, None)
                  | partByte =>
                      let* r := run_slice env uploadID i partByte in
                      Upload_loop env uploadID sliceSize k' (i + 1)
                        (skipn (Z.to_nat sliceSize) rest)
                        (is_err (upr_Error r)) (resps ++ [r])
                  end
              end
        end
  end.

Definition first_err (uploadErr : option error) (e : error) : option error :=
  match uploadErr with
  | Some e0 => Some e0
  | None => Some e
  end.

(** What the collection loops return: [ret], [uploadErr], [blockList],
    [DoneSlices] and [DoneSize]. *)
Record Collected : Type := mkCollected
  { c_ret : UploadResponse; c_uploadErr : option error;
    c_blockList : list string; c_DoneSlices : list string; c_DoneSize : Z }.

(** [Upload], lines 206-228: the collection loop. A slot outside the
    slices is a run-time panic. *)
Fixpoint Upload_collect (resps : list UploadPartResponse) (c : Collected)
    : outcome Collected :=
  match resps with
  | [] => Ret c
  | partResp :: rest =>
      match upr_Error partResp with
      | Some e =>
          Upload_collect rest
            (mkCollected
               (set_envelope (c_ret c) (sf_ErrorCode (Response partResp))
                  (sf_ErrorMsg (Response partResp))
                  (sf_RequestID (Response partResp)))
               (first_err (c_uploadErr c) e)
               (c_blockList c) (c_DoneSlices c) (c_DoneSize c))
      | None =>
          match Atoi (PartSeq (Response partResp)) with
          | None =>
              Upload_collect rest
                (mkCollected (c_ret c)
                   (first_err (c_uploadErr c) "strconv.Atoi: invalid syntax"%string)
                   (c_blockList c) (c_DoneSlices c) (c_DoneSize c))
          | Some partSeq =>
              if (partSeq <? 0)
                 || (Z.of_nat (List.length (c_blockList c)) <=? partSeq)
                 || (Z.of_nat (List.length (c_DoneSlices c)) <=? partSeq)
              then Panic "index out of range"
              else
                Upload_collect rest
                  (mkCollected (c_ret c) (c_uploadErr c)
                     (<[Z.to_nat partSeq := sf_Md5 (Response partResp)]> (c_blockList c))
                     (<[Z.to_nat partSeq := sf_Md5 (Response partResp)]> (c_DoneSlices c))
                     (Int64.add (c_DoneSize c) (upr_Size partResp)))
          end
      end
  end.

Definition lift {A : Type} (o : outcome A) : M A :=
  fun u tr => match o with Ret a => Ret (a, u, tr) | Panic msg => Panic msg end.

(** Assignments to the fields of a snapshot. *)
Definition set_identity (s : UploadSnapshot) (md5 : string) (mtime : Z)
    (uploadId : string) : UploadSnapshot :=
  mkUploadSnapshot (s_Path s) (LocalPath s) uploadId md5 mtime (Recoverable s)
    (DoneSize s) (TotalSize s) (s_SliceSize s) (SliceNum s) (DoneSlices s).

Definition set_sizes (s : UploadSnapshot) (doneSize totalSize : Z) : UploadSnapshot :=
  mkUploadSnapshot (s_Path s) (LocalPath s) (UploadId s) (FileMd5 s) (FileModTime s)
    (Recoverable s) doneSize totalSize (s_SliceSize s) (SliceNum s) (DoneSlices s).

Definition set_slicing (s : UploadSnapshot) (sliceSize sliceNum : Z) : UploadSnapshot :=
  mkUploadSnapshot (s_Path s) (LocalPath s) (UploadId s) (FileMd5 s) (FileModTime s)
    (Recoverable s) (DoneSize s) (TotalSize s) sliceSize sliceNum (DoneSlices s).

Definition set_done (s : UploadSnapshot) (recoverable : bool) (doneSize : Z)
    (doneSlices : list string) : UploadSnapshot :=
  mkUploadSnapshot (s_Path s) (LocalPath s) (UploadId s) (FileMd5 s) (FileModTime s)
    recoverable doneSize (TotalSize s) (s_SliceSize s) (SliceNum s) doneSlices.

Definition set_Recoverable (s : UploadSnapshot) (recoverable : bool) : UploadSnapshot :=
  set_done s recoverable (DoneSize s) (DoneSlices s).

(** [make([]string, n)] followed by [copy] from [src]. *)
Definition make_copy (n : nat) (src : list string) : list string :=
  firstn n src ++ repeat EmptyString (n - List.length src).

(** [Upload]: precreate, slice upload, create. The calls of the caller's
    progress callback, which depend on the wall clock, are left out, and
    so is the process-wide [UploadLock], which a single call takes and
    gives back. *)
Definition Upload (pf : Float64.Platform) (env : Env)
    : M (UploadResponse * UploadSnapshot * option error) :=
  let* u0 := receiver in
  let ret := zero_UploadResponse in
  let retSnapshot :=
    mkUploadSnapshot (Path u0) (LocalFilePath u0) EmptyString EmptyString 0 false
      0 0 0 0 [] in
  let* pc := PreCreate env in
  let preCreateRes := fst pc in
  match snd pc with
  | Some e =>
      mret (set_envelope ret (pc_ErrorCode preCreateRes) (pc_ErrorMsg preCreateRes)
              (pc_RequestID preCreateRes), retSnapshot, Some e)
  | None =>
      let* u := receiver in
      let retSnapshot :=
        set_identity retSnapshot (Md5 (FileInfo u)) (ModTime (FileInfo u))
          (UploadID preCreateRes) in
      if ReturnType preCreateRes =? 2 then
        let info := Info preCreateRes in
        mret (set_envelope info (pc_ErrorCode preCreateRes) (pc_ErrorMsg preCreateRes)
                (pc_RequestID preCreateRes),
              set_sizes retSnapshot (ur_Size info) (ur_Size info), None)
      else
        let uploadID := UploadID preCreateRes in
        let* fi := GetFileInfo env false in
        let fileSize := Size (fst fi) in
        let retSnapshot := set_sizes retSnapshot (DoneSize retSnapshot) fileSize in
        let* ss := GetSliceSize env fileSize in
        match snd ss with
        | Some e => mret (ret, retSnapshot, Some e)
        | None =>
            let sliceSize := fst ss in
            let sliceNum := Float64.ceil_div pf fileSize sliceSize in
            let retSnapshot := set_slicing retSnapshot sliceSize sliceNum in
            match env_file env with
            | None => mret (ret, retSnapshot, Some "open: no such file"%string)
            | Some content =>
                if sliceNum <? 0 then panic "makechan: size out of range"
                else
                  let* lr := Upload_loop env uploadID sliceSize (Z.to_nat sliceNum)
                               0 content false [] in
                  let blank := repeat EmptyString (Z.to_nat sliceNum) in
                  let* c := lift (Upload_collect (fst lr)
                                    (mkCollected ret (snd lr) blank blank
                                       (DoneSize retSnapshot))) in
                  let retSnapshot :=
                    set_done retSnapshot true (c_DoneSize c) (c_DoneSlices c) in
                  match c_uploadErr c with
                  | Some e => mret (c_ret c, retSnapshot, Some e)
                  | None =>
                      let* cr := Create env uploadID (c_blockList c) in
                      match snd cr with
                      | Some e => mret (fst cr, retSnapshot, Some e)
                      | None => mret (fst cr, set_Recoverable retSnapshot false, None)
                      end
                  end
            end
        end
  end.

(** [ResumeUpload], lines 283-323: the producer loop. [pos] is the
    position of the file handle; a seek to a negative offset fails and
    leaves it where it is. *)
Fixpoint ResumeUpload_loop (env : Env) (uploadId : string) (sliceSize : Z)
    (doneSlices : list string) (content : list Byte.byte)
    (k : nat) (i : Z) (offset : Z) (pos : Z) (hasFailed : bool)
    (resps : list UploadPartResponse)
    : M (list UploadPartResponse * option error) :=
  match k with
  | O => mret (resps, None)
  | S k' =>
      if hasFailed then mret (resps, None)
      else
        match env_ctx_slice env i with
        | Some e => mret (resps, Some e)
        | None =>
            match doneSlices !! Z.to_nat i with
            | None => panic "index out of range"
            | Some md5 =>
                if negb (String.eqb md5 EmptyString) then
                  ResumeUpload_loop env uploadId sliceSize doneSlices content k'
                    (i + 1) (Int64.add offset sliceSize) pos hasFailed resps
                else
                  let pos := if offset <? 0 then pos else offset in
                  if sliceSize <? 0 then panic "makeslice: len out of range"
                  else
                    let partByte :=
                      firstn (Z.to_nat sliceSize) (skipn (Z.to_nat pos) content) in
                    let n := Z.of_nat (List.length partByte) in
                    match env_read_err env i with
                    | Some e => mret (resps, Some e)
                    | None =>
                        match partByte with
                        | [] => mret (resps, None)
                        | _ =>
                            let* r := run_slice env uploadId i partByte in
                            ResumeUpload_loop env uploadId sliceSize doneSlices content
                              k' (i + 1) (Int64.add offset n) (pos + n)
                              (is_err (upr_Error r)) (resps ++ [r])
                        end
                    end
            end
        end
  end.

(** [ResumeUpload]. Its collection loop is that of [Upload] without the
    separate block list, which is copied from [DoneSlices] afterwards. *)
Definition ResumeUpload (env : Env) (snapshot : UploadSnapshot)
    : M (UploadResponse * UploadSnapshot * option error) :=
  let ret := zero_UploadResponse in
  if SliceNum snapshot <? 0 then panic "makeslice: len out of range"
  else
    let sliceNum := Z.to_nat (SliceNum snapshot) in
    let retSnapshot :=
      set_done snapshot (Recoverable snapshot) (DoneSize snapshot)
        (make_copy sliceNum (DoneSlices snapshot)) in
    match env_file env with
    | None => mret (ret, retSnapshot, Some "open: no such file"%string)
    | Some content =>
        let* lr := ResumeUpload_loop env (UploadId retSnapshot) (s_SliceSize snapshot)
                     (DoneSlices retSnapshot) content sliceNum 0 0 0 false [] in
        let* c := lift (Upload_collect (fst lr)
                          (mkCollected ret (snd lr) (DoneSlices retSnapshot)
                             (DoneSlices retSnapshot) (DoneSize retSnapshot))) in
        let retSnapshot :=
          set_done retSnapshot (Recoverable retSnapshot) (c_DoneSize c)
            (c_DoneSlices c) in
        match c_uploadErr c with
        | Some e => mret (c_ret c, retSnapshot, Some e)
        | None =>
            let blockList := make_copy sliceNum (DoneSlices retSnapshot) in
            let* cr := Create env (UploadId retSnapshot) blockList in
            match snd cr with
            | Some e => mret (fst cr, retSnapshot, Some e)
            | None => mret (fst cr, set_Recoverable retSnapshot false, None)
            end
        end
    end.

End uploader.

(** ** The part scheduler of [Download] and [ResumeDownload]

    The producer loop and its tasks, as a transition system. The channel
    [sem] is a counter of the tokens it holds; a send is enabled when the
    counter is below the capacity, and a task gives its token back after it
    has sent its response. *)

Module sched.
Import utilfile.

Record State : Type := mkState
  { pending : list Part;     (* the jobs the producer loop has not reached *)
    holding : option Part;   (* past [sem <- 1], before the [go] statement *)
    sem : nat;               (* the tokens in [sem] *)
    in_flight : list Part;   (* the tasks inside [tryDownloadPart] *)
    releasing : nat;         (* the tasks past their send, before [<-sem] *)
    finished : nat }.        (* the tasks that have ended *)

Inductive Action : Type :=
| Acquire                (* the producer's [sem <- 1] goes through *)
| Spawn                  (* the [go] statement *)
| Skip                   (* ResumeDownload: the part has its file, [continue] *)
| Stop                   (* the producer leaves its loop *)
| Finish (n : nat)       (* the n-th task in flight returns and sends its response *)
| Release.               (* a task's [<-sem] *)

Definition has_file (p : Part) : bool :=
  negb (String.eqb (Part_FilePath p) EmptyString).

(** One step. [capacity] is the capacity of [sem]; [resume] tells the
    loop of [ResumeDownload] from that of [Download]. *)
Definition exec (capacity : Z) (resume : bool) (a : Action) (s : State)
    : option State :=
  match a with
  | Acquire =>
      match pending s, holding s with
      | job :: rest, None =>
          if (resume && has_file job) || negb (Z.of_nat (sem s) <? capacity)
          then None
          else Some (mkState rest (Some job) (S (sem s)) (in_flight s)
                       (releasing s) (finished s))
      | _, _ => None
      end
  | Spawn =>
      match holding s with
      | Some job =>
          Some (mkState (pending s) None (sem s) (in_flight s ++ [job])
                  (releasing s) (finished s))
      | None => None
      end
  | Skip =>
      match pending s, holding s with
      | job :: rest, None =>
          if resume && has_file job
          then Some (mkState rest None (sem s) (in_flight s) (releasing s)
                       (finished s))
          else None
      | _, _ => None
      end
  | Stop =>
      match holding s with
      | None => Some (mkState [] None (sem s) (in_flight s) (releasing s)
                        (finished s))
      | Some _ => None
      end
  | Finish n =>
      match in_flight s !! n with
      | Some _ =>
          Some (mkState (pending s) (holding s) (sem s)
                  (take n (in_flight s) ++ drop (S n) (in_flight s))
                  (S (releasing s)) (finished s))
      | None => None
      end
  | Release =>
      match releasing s, sem s with
      | S r, S t =>
          Some (mkState (pending s) (holding s) t (in_flight s) r
                  (S (finished s)))
      | _, _ => None
      end
  end.

Fixpoint run (capacity : Z) (resume : bool) (acts : list Action) (s : State)
    : option State :=
  match acts with
  | [] => Some s
  | a :: acts' =>
      match exec capacity resume a s with
      | Some s' => run capacity resume acts' s'
      | None => None
      end
  end.

(** The capacity of [sem]: [PartCoroutineNum], lowered to the number of
    parts. *)
Definition sem_capacity (partCoroutineNum parts : Z) : Z :=
  if parts <? partCoroutineNum then parts else partCoroutineNum.

(** The state in which the producer loop is entered; [make] panics on a
    negative capacity. *)
Definition start (capacity : Z) (jobs : list Part) : outcome State :=
  if capacity <? 0 then Panic "makechan: size out of range"
  else Ret (mkState jobs None 0 [] 0 0).

(** [Download], lines 147-151 and 170: the semaphore and the jobs. *)
Definition Download_start (d : Downloader) (jobs : list Part) : outcome (Z * State) :=
  let capacity := sem_capacity (PartCoroutineNum d) (Z.of_nat (List.length jobs)) in
  let! s := start capacity jobs in
  Ret (capacity, s).

(** The job that [ResumeDownload] makes of a recorded part; the path
    stands for the test of line 309 that [part.FilePath] is not empty. *)
Fixpoint resume_jobs (i : Z) (parts : list DownloadPartSnapshot) : list Part :=
  match parts with
  | [] => []
  | p :: rest => mkPart i (dps_From p) (dps_To p) (dps_FilePath p)
                   :: resume_jobs (i + 1) rest
  end.

(** [ResumeDownload], lines 248-257 and 296: [d.TotalPart] has been set
    from the snapshot. *)
Definition ResumeDownload_start (d : Downloader) (snapshot : DownloadSnapshot)
    : outcome (Z * State) :=
  let capacity := sem_capacity (PartCoroutineNum d) (snap_TotalPart snapshot) in
  let! s := start capacity (resume_jobs 0 (DoneParts snapshot)) in
  Ret (capacity, s).

(** Every token in [sem] is held by the producer between its send and
    the [go] statement, by a task in flight, or by a task about to give
    it back; and there are never more tokens than the capacity. *)
Definition invariant (capacity : Z) (s : State) : Prop :=
  sem s
  = (List.length (in_flight s) + releasing s
     + match holding s with Some _ => 1 | None => 0 end)%nat
  /\ Z.of_nat (sem s) <= capacity.

End sched.

(** ** Scenarios

    Concrete transfers at which the properties below are exercised. *)

(** A file of 100 MiB, to be fetched in parts of 10 MiB. *)
Definition d_100MiB : utilfile.Downloader :=
  {| utilfile.FileSize := 104857600; utilfile.Link := EmptyString;
     utilfile.FilePath := EmptyString; utilfile.TotalPart := 0;
     utilfile.PartSize := 10485760; utilfile.PartCoroutineNum := 5 |}.

(** A part download whose first attempt is answered with status 500, the
    context being cancelled by the time the attempt returns. *)
Definition download_cancelled : retry_download.Env :=
  {| retry_download.attempt := fun _ =>
       retry_download.mkAttempt [] None (Some "status 500"%string);
     retry_download.ctx_err := fun _ => Some "context canceled"%string |}.

Definition upload_cancelled : retry_upload.Env :=
  {| retry_upload.attempt := fun _ =>
       retry_upload.mkAttempt [] panfile.zero_SuperFile2UploadResponse
         (Some "status 500"%string);
     retry_upload.ctx_err := fun _ => Some "context canceled"%string |}.

(** A part download that fails once, after 6 bytes and with its temp file
    created, and then succeeds. *)
Definition download_second_try : retry_download.Env :=
  {| retry_download.attempt := fun i =>
       match i with
       | O => retry_download.mkAttempt [4; 2] (Some "/tmp/a_0_1"%string)
                (Some "unexpected EOF"%string)
       | _ => retry_download.mkAttempt [7; 3] (Some "/tmp/a_0_2"%string) None
       end;
     retry_download.ctx_err := fun _ => None |}.

(** The second slice of an 8 MiB file: the first slice has been counted
    with its multipart framing (4 MiB and 246 bytes), the attempt reports
    as much and is then refused by the server, the context being
    cancelled in the meantime. *)
Definition upload_refused : retry_upload.Env :=
  {| retry_upload.attempt := fun _ =>
       retry_upload.mkAttempt [4194550] panfile.zero_SuperFile2UploadResponse
         (Some "error_code:31363"%string);
     retry_upload.ctx_err := fun _ => Some "context canceled"%string |}.

(** Three parts and two permits: once two tasks have been started both
    permits are taken, and the third has to wait for a release. *)
Definition d_two_permits : utilfile.Downloader :=
  {| utilfile.FileSize := 30; utilfile.Link := EmptyString;
     utilfile.FilePath := EmptyString; utilfile.TotalPart := 3;
     utilfile.PartSize := 10; utilfile.PartCoroutineNum := 2 |}.

Definition three_jobs : list utilfile.Part :=
  [utilfile.mkPart 0 0 10 EmptyString; utilfile.mkPart 1 11 21 EmptyString;
   utilfile.mkPart 2 22 29 EmptyString].

(** A file of [2^53 + 1] bytes in parts of [2^53] bytes. *)
Definition d_9PB : utilfile.Downloader :=
  {| utilfile.FileSize := 2 ^ 53 + 1; utilfile.Link := EmptyString;
     utilfile.FilePath := EmptyString; utilfile.TotalPart := 0;
     utilfile.PartSize := 2 ^ 53; utilfile.PartCoroutineNum := 1 |}.

(** A server that accepts everything, for a user of tier [vip]; the
    context is never cancelled. *)
Definition accepting_slice (partSeq : Z) (partByte : list Byte.byte)
    : retry_upload.Env :=
  {| retry_upload.attempt := fun _ =>
       retry_upload.mkAttempt [Z.of_nat (List.length partByte) + 246]
         (panfile.mkSuperFile2UploadResponse 0 EmptyString 0
            "0cc175b9c0f1b6a831c399e269772661" "N1-upload" EmptyString)
         None;
     retry_upload.ctx_err := fun _ => None |}.

Definition accepting_world (content : list Byte.byte) (vip : Z) : uploader.Env :=
  {| uploader.env_file := Some content;
     uploader.env_mtime := 1700000000;
     uploader.env_md5 := fun _ => "d41d8cd98f00b204e9800998ecf8427e"%string;
     uploader.env_user_info := fun _ => Some vip;
     uploader.env_precreate := fun _ =>
       inr (panfile.mkPreCreateResponse 0 EmptyString 1 "N1-upload" 1
              panfile.zero_UploadResponse);
     uploader.env_slice := accepting_slice;
     uploader.env_create := fun _ =>
       inr (panfile.mkUploadResponse 0 EmptyString 2 "/apps/pan/empty.bin"
              "empty.bin" 0 "d41d8cd98f00b204e9800998ecf8427e" 42 0);
     uploader.env_ctx_hash := fun _ => None;
     uploader.env_ctx_slice := fun _ => None;
     uploader.env_read_err := fun _ => None |}.

Definition empty_file_uploader : panfile.Uploader :=
  panfile.NewUploader "token" "/apps/pan/empty.bin" "empty.bin".




(** ** What a download snapshot records *)

Module snapshots.
Import utilfile.

(** The bytes a list of recorded parts accounts for: the lengths of the
    parts that have a temp file, over the integers. *)
Definition recorded (parts : list DownloadPartSnapshot) : Z :=
  fold_right Z.add 0
    (map (fun p => if String.eqb (dps_FilePath p) EmptyString then 0
                   else dps_To p - dps_From p + 1) parts).

(** A recorded part as the validation pass of [ResumeDownload] leaves it:
    the path is kept when there is one and [os.Stat] finds the file. *)
Definition validated (stat : string -> StatResult) (p : DownloadPartSnapshot)
    : DownloadPartSnapshot :=
  if String.eqb (dps_FilePath p) EmptyString then p
  else match stat (dps_FilePath p) with
       | StatOk => p
       | _ => mkDownloadPartSnapshot (dps_From p) (dps_To p) EmptyString
       end.

(** The recorded paths for which [os.Stat] fails with an error other than
    "does not exist". *)
Definition unreadable (stat : string -> StatResult)
    (parts : list DownloadPartSnapshot) : list string :=
  map dps_FilePath
    (List.filter (fun p => negb (String.eqb (dps_FilePath p) EmptyString)
                           && match stat (dps_FilePath p) with
                              | StatOtherError => true
                              | _ => false
                              end) parts).

End snapshots.

(** ** What a piece of uploader code sends *)

Module traces.
Import panfile uploader.

(** The fields of the receiver that say where the upload goes. *)
Definition same_target (u u' : Uploader) : Prop :=
  AccessToken u' = AccessToken u /\ Path u' = Path u
  /\ LocalFilePath u' = LocalFilePath u.

(** Whatever [m] returns, it has kept the target of the receiver, and the
    requests it has issued come after those issued before and all satisfy
    [P]. *)
Definition emits {A : Type} (P : Request -> Prop) (m : M A) : Prop :=
  forall u tr a u' tr',
    m u tr = Ret (a, u', tr') ->
    same_target u u' /\ exists new, tr' = tr ++ new /\ Forall P new.

(** The slice of [sliceSize] bytes at index [j] of a file. *)
Definition slice_of (sliceSize : Z) (content : list Byte.byte) (j : Z)
    : list Byte.byte :=
  take (Z.to_nat sliceSize) (drop (Z.to_nat (j * sliceSize)) content).

End traces.

(** ** [strconv]: decimal output *)

Module strconv.

(** The decimal digits of a non-negative [n], put in front of [acc]; the
    least significant digit is produced first, as [formatBits] does. *)
Fixpoint digits (fuel : nat) (n : Z) (acc : string) : string :=
  match fuel with
  | O => acc
  | S fuel' =>
      let acc' := String (ascii_of_nat (Z.to_nat (48 + n mod 10))) acc in
      if n <? 10 then acc' else digits fuel' (n / 10) acc'
  end.

(** [strconv.Itoa], that is [FormatInt(int64(i), 10)]: a 64-bit integer
    has at most 19 digits. *)
Definition Itoa (i : Z) : string :=
  if i <? 0 then String "-" (digits 20 (- i) EmptyString)
  else digits 20 i EmptyString.

End strconv.

(** ** The slices of an upload, one by one *)

Module slices.
Import panfile uploader.

(** What the task of slice [j] sends on [uploadRespChan]. *)
Definition slice_response (env : Env) (j : Z) (data : list Byte.byte)
    : UploadPartResponse :=
  let '(resp, err, _) :=
    retry_upload.TrySuperFile2Upload (env_slice env j data) in
  mkUploadPartResponse resp (Z.of_nat (List.length data)) err.

(** The requests of that task. *)
Definition slice_requests (env : Env) (uploadID : string) (j : Z)
    (data : list Byte.byte) : list Request :=
  let '(_, _, evs) :=
    retry_upload.TrySuperFile2Upload (env_slice env j data) in
  attempt_requests uploadID j data evs.

End slices.

(** ** More scenarios *)

(** A download snapshot of two parts, both on record with their temp
    files, and an [os.Stat] that finds the first file only. *)
Definition two_parts_snapshot : utilfile.DownloadSnapshot :=
  utilfile.mkDownloadSnapshot 42 "d41d8cd98f00b204e9800998ecf8427e" "a.bin" true 0
    21 21 10 2
    [utilfile.mkDownloadPartSnapshot 0 10 "/tmp/a_0_1";
     utilfile.mkDownloadPartSnapshot 11 20 "/tmp/a_1_1"].

Definition stat_first_only (path : string) : utilfile.StatResult :=
  if String.eqb path "/tmp/a_0_1" then utilfile.StatOk else utilfile.StatNotExist.

(** A server that accepts every slice and echoes its sequence number. *)
Definition echoing_slice (partSeq : Z) (partByte : list Byte.byte)
    : retry_upload.Env :=
  {| retry_upload.attempt := fun _ =>
       retry_upload.mkAttempt [Z.of_nat (List.length partByte) + 246]
         (panfile.mkSuperFile2UploadResponse 0 EmptyString 0
            "0cc175b9c0f1b6a831c399e269772661" "N1-upload" (strconv.Itoa partSeq))
         None;
     retry_upload.ctx_err := fun _ => None |}.

Definition echoing_world (content : list Byte.byte) (vip : Z) : uploader.Env :=
  {| uploader.env_file := Some content;
     uploader.env_mtime := 1700000000;
     uploader.env_md5 := fun _ => "d41d8cd98f00b204e9800998ecf8427e"%string;
     uploader.env_user_info := fun _ => Some vip;
     uploader.env_precreate := fun _ =>
       inr (panfile.mkPreCreateResponse 0 EmptyString 1 "N1-upload" 1
              panfile.zero_UploadResponse);
     uploader.env_slice := echoing_slice;
     uploader.env_create := fun _ =>
       inr (panfile.mkUploadResponse 0 EmptyString 2 "/apps/pan/a.bin"
              "a.bin" 10 "d41d8cd98f00b204e9800998ecf8427e" 42 0);
     uploader.env_ctx_hash := fun _ => None;
     uploader.env_ctx_slice := fun _ => None;
     uploader.env_read_err := fun _ => None |}.

(** An uploader that has read its file of ten bytes and cuts it into
    slices of four. *)
Definition slicing_uploader : panfile.Uploader :=
  panfile.mkUploader "token" "/apps/pan/a.bin" "a.bin"
    (panfile.mkLocalFileInfo "d41d8cd98f00b204e9800998ecf8427e" 10 1700000000) 4.

(** A three-slice upload that was interrupted after its first slice. *)
Definition first_done_snapshot : panfile.UploadSnapshot :=
  panfile.mkUploadSnapshot "/apps/pan/a.bin" "a.bin" "N1-upload"
    "d41d8cd98f00b204e9800998ecf8427e" 1700000000 true 4 10 4 3
    ["md5-0"; EmptyString; EmptyString]%string.

(** ** [utils/file]: preparing, fetching whole and merging *)

Module fetch.
Import utilfile.

(** What a plain retry loop does, in program order. *)
Inductive Step : Type :=
| Slept (seconds : Z)    (* time.Sleep *)
| Tried (i : nat).       (* the i-th call of the operation *)

(** [ensureDirExist], lines 93-103: [os.MkdirAll] is tried up to three
    times, a second apart. [mkdir i] is the answer of its [i]-th call; the
    directory, the path itself or its [filepath.Dir], does not enter. *)
Fixpoint ensureDirExist_loop (mkdir : nat -> option error) (k i : nat)
    (err : option error) : option error * list Step :=
  match k with
  | O => (err, [])
  | S k' =>
      let steps := (match i with O => [] | _ => [Slept 1] end) ++ [Tried i] in
      match mkdir i with
      | None => (None, steps)
      | Some e =>
          let '(r, tr) := ensureDirExist_loop mkdir k' (S i) (Some e) in
          (r, steps ++ tr)
      end
  end.

Definition ensureDirExist (mkdir : nat -> option error) : option error * list Step :=
  ensureDirExist_loop mkdir 3 0 None.

(** The steps of a retry loop that makes the calls [i] to [n]: a second
    of sleep before every call but the very first. *)
Definition attempts_from (i n : nat) : list Step :=
  (match i with O => [] | _ => [Slept 1] end)
    ++ Tried i :: flat_map (fun j => [Slept 1; Tried j]) (seq (S i) (n - i)).

(** The answer to the HEAD request of [Prepare], as far as [Prepare]
    looks at it: the status code and what [Header.Get] returns for the two
    headers, the empty string for a header that is not there. *)
Record HeadResponse : Type := mkHeadResponse
  { head_StatusCode : Z; Accept_Ranges : string; Content_Length : string }.

Definition set_FileSize (d : Downloader) (fileSize : Z) : Downloader :=
  mkDownloader fileSize (Link d) (FilePath d) (TotalPart d) (PartSize d)
    (PartCoroutineNum d).

(** [strconv.ParseInt(s, 10, 64)]: what [strconv.Atoi] is where [int]
    has 64 bits. *)
Definition ParseInt (s : string) : option Z := uploader.Atoi s.

(** [Prepare], lines 390-416. [answer] is [inl] when the request cannot
    be built or sent. *)
Definition Prepare (answer : error + HeadResponse) (d : Downloader)
    : Downloader * bool * option error :=
  match answer with
  | inl e => (d, false, Some e)
  | inr resp =>
      if head_StatusCode resp >? 299
      then (d, false, Some "Can't process, response is"%string)
      else
        let isSupportRange := String.eqb (Accept_Ranges resp) "bytes" in
        match ParseInt (Content_Length resp) with
        | None => (d, isSupportRange, Some "strconv.ParseInt: parsing"%string)
        | Some contentLength => (set_FileSize d contentLength, isSupportRange, None)
        end
  end.

(** [TryPrepare], lines 375-386: up to five calls of [Prepare], a second
    apart. [head i] is the answer to the [i]-th HEAD request. *)
Fixpoint TryPrepare_loop (head : nat -> error + HeadResponse) (k i : nat)
    (d : Downloader) (supportRange : bool) (err : option error)
    : Downloader * bool * option error * list Step :=
  match k with
  | O => (d, supportRange, err, [])
  | S k' =>
      let steps := (match i with O => [] | _ => [Slept 1] end) ++ [Tried i] in
      let '(d', supportRange', err') := Prepare (head i) d in
      match err' with
      | None => (d', supportRange', None, steps)
      | Some _ =>
          let '(d'', sr, e, tr) :=
            TryPrepare_loop head k' (S i) d' supportRange' err' in
          (d'', sr, e, steps ++ tr)
      end
  end.

Definition TryPrepare (head : nat -> error + HeadResponse) (d : Downloader)
    : Downloader * bool * option error * list Step :=
  TryPrepare_loop head 5 0 d false None.

(** The error with which a [Read] ends a stream. *)
Inductive ReadErr : Type :=
| EOF
| ErrUnexpectedEOF
| ReadFailed (e : error).

(** A response body as its reader delivers it: the reads that return
    data and no error, then the read that returns [last_data] with the
    error that ends the stream. *)
Record Body : Type := mkBody
  { chunks : list (list Byte.byte);
    last_data : list Byte.byte;
    last_err : ReadErr }.

Definition received (b : Body) : list Byte.byte := concat (chunks b) ++ last_data b.

(** What there is to [DownloadWhole] outside the process: the answer to
    the GET request, status code and body, [inl] when the request cannot be
    built or sent; the answers of [os.MkdirAll] and [os.Create]; and what
    the [i]-th read's [f.Write] returns for the bytes it is given, the count
    written and the error. *)
Record WholeWorld : Type := mkWholeWorld
  { whole_send : error + (Z * Body);
    whole_mkdir : nat -> option error;
    whole_create : option error;
    whole_write : nat -> list Byte.byte -> nat * option error }.

(** The body of the loop of [DownloadWhole], lines 584-598, for one read:
    [inl] when the function returns from inside the loop. *)
Definition whole_read (w : WholeWorld) (i : nat) (data : list Byte.byte)
    (file : list Byte.byte) (doneSize : Z)
    : (option error * list Byte.byte) + (list Byte.byte * Z) :=
  match data with
  | [] => inr (file, doneSize)
  | _ =>
      let '(nw, ew) := whole_write w i data in
      match ew with
      | Some e => inl (Some e, file ++ take nw data)
      | None => inr (file ++ take nw data, Int64.add doneSize (Z.of_nat nw))
      end
  end.

Fixpoint whole_loop (w : WholeWorld) (i : nat) (reads : list (list Byte.byte))
    (last : list Byte.byte) (er : ReadErr) (file : list Byte.byte) (doneSize : Z)
    : option error * list Byte.byte :=
  match reads with
  | data :: reads' =>
      match whole_read w i data file doneSize with
      | inl r => r
      | inr (file', doneSize') => whole_loop w (S i) reads' last er file' doneSize'
      end
  | [] =>
      match whole_read w i last file doneSize with
      | inl r => r
      | inr (file', _) =>
          match er with
          | ReadFailed e => (Some e, file')
          | _ => (None, file')
          end
      end
  end.

(** [DownloadWhole], lines 547-601: the error it returns and the file it
    leaves at [d.FilePath], [None] when it has not created one. The calls
    of the progress callback, which depend on the wall clock, are left
    out. *)
Definition DownloadWhole (w : WholeWorld) : option error * option (list Byte.byte) :=
  match whole_send w with
  | inl e => (Some e, None)
  | inr (_, body) =>
      match fst (ensureDirExist (whole_mkdir w)) with
      | Some e => (Some e, None)
      | None =>
          match whole_create w with
          | Some e => (Some e, None)
          | None =>
              let '(err, file) :=
                whole_loop w 0 (chunks body) (last_data body) (last_err body) [] 0 in
              (err, Some file)
          end
      end
  end.

(** What copying a part file into the merged file comes to: the file
    cannot be opened, or [io.CopyBuffer] writes [data] and returns its
    error. *)
Inductive PartFile : Type :=
| OpenFails (e : error)
| Copies (data : list Byte.byte) (err : option error).

Record MergeWorld : Type := mkMergeWorld
  { merge_mkdir : nat -> option error;
    merge_create : option error;
    part_file : string -> PartFile;
    merge_ctx : nat -> option error }.   (* ctx at the i-th part *)

(** The loop of [mergeFileParts], lines 528-539, with [copyFunc]: the
    error, the merged file, [totalSize] and the sizes reported to the
    progress handler. *)
Fixpoint copy_parts (w : MergeWorld) (parts : list Part) (i : nat)
    (merged : list Byte.byte) (totalSize : Z) (progress : list Z)
    : option error * list Byte.byte * Z * list Z :=
  match parts with
  | [] => (None, merged, totalSize, progress)
  | p :: rest =>
      match merge_ctx w i with
      | Some e => (Some e, merged, totalSize, progress)
      | None =>
          match part_file w (Part_FilePath p) with
          | OpenFails e => (Some e, merged, totalSize, progress)
          | Copies data (Some e) => (Some e, merged ++ data, totalSize, progress)
          | Copies data None =>
              let nw := Z.of_nat (List.length data) in
              copy_parts w rest (S i) (merged ++ data) (Int64.add totalSize nw)
                (progress ++ [nw])
          end
      end
  end.

(** [mergeFileParts], lines 500-544: the error, the file left at
    [d.FilePath], [None] when none has been created, and the reports. *)
Definition mergeFileParts (w : MergeWorld) (d : Downloader) (parts : list Part)
    : option error * option (list Byte.byte) * list Z :=
  match fst (ensureDirExist (merge_mkdir w)) with
  | Some e => (Some e, None, [])
  | None =>
      match merge_create w with
      | Some e => (Some e, None, [])
      | None =>
          let '(err, merged, totalSize, progress) := copy_parts w parts 0 [] 0 [] in
          match err with
          | Some e => (Some e, Some merged, progress)
          | None =>
              if negb (totalSize =? FileSize d)
              then (Some "文件不完整"%string, Some merged, progress)
              else (None, Some merged, progress)
          end
      end
  end.

(** The data of the part files, in the order of the parts. *)
Definition part_data (w : MergeWorld) (parts : list Part) : list (list Byte.byte) :=
  map (fun p => match part_file w (Part_FilePath p) with
                | Copies data _ => data
                | OpenFails _ => []
                end) parts.

(** The part file of [p] can be opened and copied to its end. *)
Definition copies_whole (w : MergeWorld) (p : Part) : Prop :=
  exists data, part_file w (Part_FilePath p) = Copies data None.

(** The part file of [p] holds as many bytes as the part is long. *)
Definition holds_part (w : MergeWorld) (p : Part) : Prop :=
  exists data,
    part_file w (Part_FilePath p) = Copies data None
    /\ Z.of_nat (List.length data) = To p - From p + 1.

(** *** The collection loop of [Download] *)

Record DownloadPartResponse : Type := mkDownloadPartResponse
  { resp_Part : Part; resp_Error : option error }.

(** What the loop of lines 197-211 works on: [doneParts],
    [snapshot.DoneParts], [snapshot.DoneSize], [delFiles] and
    [downloadErr]. *)
Record Collecting : Type := mkCollecting
  { col_doneParts : list Part;
    col_snapParts : list DownloadPartSnapshot;
    col_DoneSize : Z;
    col_delFiles : list string;
    col_err : option error }.

Definition set_path (p : DownloadPartSnapshot) (path : string)
    : DownloadPartSnapshot :=
  mkDownloadPartSnapshot (dps_From p) (dps_To p) path.

(** [Download], lines 197-211, over the responses in the order of their
    arrival; an index outside the slices is a run-time panic. *)
Fixpoint Download_collect (resps : list DownloadPartResponse) (c : Collecting)
    : outcome Collecting :=
  match resps with
  | [] => Ret c
  | resp :: rest =>
      let part := resp_Part resp in
      match resp_Error resp with
      | Some e =>
          Download_collect rest
            (mkCollecting (col_doneParts c) (col_snapParts c) (col_DoneSize c)
               (if String.eqb (Part_FilePath part) EmptyString then col_delFiles c
                else col_delFiles c ++ [Part_FilePath part])
               (match col_err c with Some e0 => Some e0 | None => Some e end))
      | None =>
          match col_snapParts c !! Z.to_nat (Index part) with
          | Some sp =>
              if (Index part <? 0)
                 || (Z.of_nat (List.length (col_doneParts c)) <=? Index part)
              then Panic "index out of range"
              else
                Download_collect rest
                  (mkCollecting
                     (<[Z.to_nat (Index part) := part]> (col_doneParts c))
                     (<[Z.to_nat (Index part) := set_path sp (Part_FilePath part)]>
                        (col_snapParts c))
                     (Int64.add (col_DoneSize c) (part_len (From part) (To part)))
                     (col_delFiles c) (col_err c))
          | None => Panic "index out of range"
          end
      end
  end.

(** The state in which [Download] enters the loop, lines 122-126, 145
    and 196: [doneParts] is fresh, the snapshot has the planned ranges and
    no paths, and [downloadErr] is what the producer loop has left. *)
Definition Download_collecting (plan : Plan) (snapshot : DownloadSnapshot)
    (downloadErr : option error) : Collecting :=
  mkCollecting
    (repeat (mkPart 0 0 0 EmptyString) (Z.to_nat (plan_totalPart plan)))
    (DoneParts (Download_plan_snapshot plan snapshot))
    (DoneSize snapshot) [] downloadErr.

(** What identifies a part: its index and its byte range. *)
Definition range_of (p : Part) : Z * Z * Z := (Index p, From p, To p).

(** The temp files of the responses that carry an error, and the first
    of their errors. *)
Definition failed_files (resps : list DownloadPartResponse) : list string :=
  flat_map (fun r => match resp_Error r with
                     | Some _ =>
                         if String.eqb (Part_FilePath (resp_Part r)) EmptyString
                         then [] else [Part_FilePath (resp_Part r)]
                     | None => []
                     end) resps.

Fixpoint first_failure (resps : list DownloadPartResponse) : option error :=
  match resps with
  | [] => None
  | r :: rest =>
      match resp_Error r with
      | Some e => Some e
      | None => first_failure rest
      end
  end.

(** The bytes of the responses that carry no error, over the integers. *)
Definition fetched (resps : list DownloadPartResponse) : Z :=
  fold_right Z.add 0
    (map (fun r => match resp_Error r with
                   | Some _ => 0
                   | None => To (resp_Part r) - From (resp_Part r) + 1
                   end) resps).

End fetch.

(** ** Scenarios of a download *)

(** A server that is busy at the first HEAD request and answers the
    second. *)
Definition head_busy_once (i : nat) : error + fetch.HeadResponse :=
  match i with
  | O => inr (fetch.mkHeadResponse 503 EmptyString EmptyString)
  | _ => inr (fetch.mkHeadResponse 200 "bytes" "104857600")
  end.

(** A directory that can be made at the second try. *)
Definition mkdir_second_try (i : nat) : option error :=
  match i with
  | O => Some "mkdir: permission denied"%string
  | _ => None
  end.

(** A file of five bytes, to be fetched in parts of three. *)
Definition d_5B : utilfile.Downloader :=
  {| utilfile.FileSize := 5; utilfile.Link := EmptyString;
     utilfile.FilePath := "a.bin"; utilfile.TotalPart := 0;
     utilfile.PartSize := 3; utilfile.PartCoroutineNum := 1 |}.

(** Its two parts, downloaded. *)
Definition two_parts_done : list utilfile.Part :=
  [utilfile.mkPart 0 0 2 "/tmp/a_0_1"; utilfile.mkPart 1 3 4 "/tmp/a_1_1"].

Definition two_part_files : fetch.MergeWorld :=
  {| fetch.merge_mkdir := mkdir_second_try;
     fetch.merge_create := None;
     fetch.part_file := fun path =>
       if String.eqb path "/tmp/a_0_1" then fetch.Copies (repeat Byte.x61 3) None
       else if String.eqb path "/tmp/a_1_1" then fetch.Copies (repeat Byte.x62 2) None
       else fetch.OpenFails "open: no such file"%string;
     fetch.merge_ctx := fun _ => None |}.

(** A server that answers the GET request with status 404 and a body of
    nine bytes, in two reads. *)
Definition not_found_world : fetch.WholeWorld :=
  {| fetch.whole_send :=
       inr (404, fetch.mkBody [repeat Byte.x61 4] (repeat Byte.x62 5) fetch.EOF);
     fetch.whole_mkdir := fun _ => None;
     fetch.whole_create := None;
     fetch.whole_write := fun _ data => (List.length data, None) |}.

(** A downloader that has been given no coroutine at all. *)
Definition d_no_permit : utilfile.Downloader :=
  {| utilfile.FileSize := 30; utilfile.Link := EmptyString;
     utilfile.FilePath := EmptyString; utilfile.TotalPart := 3;
     utilfile.PartSize := 10; utilfile.PartCoroutineNum := 0 |}.

(** * Properties *)

Section Int64Facts.

(** ** 64-bit arithmetic *)

Lemma wrap64_range (z : Z) : Int64.in_range (Int64.wrap64 z).
Proof.
  unfold Int64.in_range, Int64.wrap64, Int64.min_int, Int64.max_int.
  pose proof (Z.mod_pos_bound (z + 2 ^ 63) (2 ^ 64) ltac:(lia)). lia.
Qed.

Lemma wrap64_id (z : Z) : Int64.in_range z -> Int64.wrap64 z = z.
Proof.
  unfold Int64.in_range, Int64.wrap64, Int64.min_int, Int64.max_int. intros H.
  rewrite Z.mod_small; lia.
Qed.

Lemma wrap64_add_l (a b : Z) : Int64.wrap64 (Int64.wrap64 a + b) = Int64.wrap64 (a + b).
Proof.
  unfold Int64.wrap64.
  replace ((a + 2 ^ 63) mod 2 ^ 64 - 2 ^ 63 + b + 2 ^ 63)
    with ((a + 2 ^ 63) mod 2 ^ 64 + b) by lia.
  rewrite Zplus_mod_idemp_l. f_equal. f_equal. lia.
Qed.

Lemma wrap64_add_r (a b : Z) : Int64.wrap64 (a + Int64.wrap64 b) = Int64.wrap64 (a + b).
Proof. rewrite Z.add_comm, wrap64_add_l. f_equal. lia. Qed.

Lemma wrap64_opp (a : Z) : Int64.wrap64 (- Int64.wrap64 a) = Int64.wrap64 (- a).
Proof.
  unfold Int64.wrap64.
  replace (- ((a + 2 ^ 63) mod 2 ^ 64 - 2 ^ 63) + 2 ^ 63)
    with (2 ^ 64 - (a + 2 ^ 63) mod 2 ^ 64) by lia.
  f_equal.
  rewrite Zminus_mod_idemp_r.
  replace (2 ^ 64 - (a + 2 ^ 63)) with ((- a + 2 ^ 63) + (-1) * 2 ^ 64 + 2^64) by lia.
  rewrite <- Z.add_assoc.
  replace (-1 * 2 ^ 64 + 2 ^ 64) with 0 by lia. f_equal. lia.
Qed.

Lemma wrap64_sub_l (a b : Z) : Int64.wrap64 (Int64.wrap64 a - b) = Int64.wrap64 (a - b).
Proof. unfold Z.sub. apply wrap64_add_l. Qed.

Lemma wrap64_sub_r (a b : Z) : Int64.wrap64 (a - Int64.wrap64 b) = Int64.wrap64 (a - b).
Proof.
  unfold Z.sub. rewrite <- (wrap64_add_r a (- Int64.wrap64 b)), wrap64_opp.
  apply wrap64_add_r.
Qed.

End Int64Facts.

(** ** The validation pass of [ResumeDownload] *)

Section ResumeValidation.
Import utilfile.

Lemma validate_loop_paths (stat : string -> StatResult) :
  forall parts doneSize delFiles p,
    In p (fst (fst (validate_loop stat parts doneSize delFiles))) ->
    dps_FilePath p <> EmptyString ->
    stat (dps_FilePath p) = StatOk.
Proof.
  induction parts as [|part rest IH]; intros doneSize delFiles p; simpl.
  - intros [].
  - destruct (String.eqb (dps_FilePath part) EmptyString) eqn:Hemp;
      [|destruct (stat (dps_FilePath part)) eqn:Hstat];
      match goal with
      | |- context [validate_loop stat rest ?d ?f] =>
          specialize (IH d f p);
          destruct (validate_loop stat rest d f) as [[ps ds] dl]
      end;
      simpl in *; intros [<- | Hin] Hne; auto.
    + apply String.eqb_eq in Hemp. contradiction.
    + simpl in Hne. congruence.
    + simpl in Hne. congruence.
Qed.

(** C10. After the validation pass of [ResumeDownload] the snapshot's
    [DoneSize] is never negative, whatever the input snapshot: it is the
    recorded size less the lengths of the parts whose temp file could not
    be stat'ed, in [int64], clamped at zero; and every part that keeps its
    path has a temp file that could be stat'ed. *)
Theorem resume_validate_done_size_nonneg :
  forall (stat : string -> StatResult) (snapshot : DownloadSnapshot),
    let after := fst (ResumeDownload_validate stat snapshot) in
    0 <= DoneSize after
    /\ DoneSize after
       = Z.max 0 (snd (fst (validate_loop stat (DoneParts snapshot)
                              (DoneSize snapshot) [])))
    /\ (forall p, In p (DoneParts after) -> dps_FilePath p <> EmptyString ->
                  stat (dps_FilePath p) = StatOk).
Proof.
  intros stat snapshot. unfold ResumeDownload_validate.
  pose proof (validate_loop_paths stat (DoneParts snapshot) (DoneSize snapshot) []) as Hp.
  destruct (validate_loop stat (DoneParts snapshot) (DoneSize snapshot) [])
    as [[parts doneSize] delFiles] eqn:Hv.
  simpl in *. destruct (doneSize <? 0) eqn:Hneg.
  - apply Z.ltb_lt in Hneg. repeat split; [lia | lia | exact Hp].
  - apply Z.ltb_ge in Hneg. repeat split; [lia | lia | exact Hp].
Qed.

End ResumeValidation.

Section PartPlan.
Import utilfile.

(** ** The part plan *)

Lemma wrap64_idem (a : Z) : Int64.wrap64 (Int64.wrap64 a) = Int64.wrap64 a.
Proof. apply wrap64_id, wrap64_range. Qed.

Lemma part_len_wrap (from to : Z) : part_len from to = Int64.wrap64 (to - from + 1).
Proof. unfold part_len, Int64.add, Int64.sub. apply wrap64_add_l. Qed.

Lemma fold_left_add64 (l : list Z) :
  forall a, Int64.wrap64 (fold_left Int64.add l a)
            = Int64.wrap64 (a + fold_right Z.add 0 l).
Proof.
  induction l as [|x l IH]; intros a; simpl.
  - f_equal. lia.
  - rewrite IH. unfold Int64.add. rewrite wrap64_add_l. f_equal. lia.
Qed.

Lemma plan_loop_length (F E T : Z) :
  forall k i prevTo, List.length (plan_loop F E T k i prevTo) = k.
Proof. induction k; intros; simpl; [reflexivity | f_equal; apply IHk]. Qed.

Lemma plan_loop_head (F E T : Z) (k : nat) (i prevTo : Z) (p : Part) :
  plan_loop F E T k i prevTo !! 0%nat = Some p ->
  From p = if i =? 0 then 0 else Int64.add prevTo 1.
Proof. destruct k; simpl; [discriminate|]. intros [= <-]. reflexivity. Qed.

Lemma plan_loop_chain64 (F E T : Z) :
  forall k i prevTo j p q,
    0 <= i ->
    plan_loop F E T k i prevTo !! j = Some p ->
    plan_loop F E T k i prevTo !! S j = Some q ->
    From q = Int64.add (To p) 1.
Proof.
  induction k as [|k IH]; intros i prevTo j p q Hi; simpl; [discriminate|].
  destruct j as [|j]; simpl.
  - intros [= <-] Hq. apply plan_loop_head in Hq. simpl.
    rewrite Hq. destruct (i + 1 =? 0) eqn:H0; [lia | reflexivity].
  - apply IH. lia.
Qed.

Lemma plan_loop_last64 (F E T : Z) :
  forall k i prevTo,
    (0 < k)%nat -> i + Z.of_nat k = T ->
    exists p, last (plan_loop F E T k i prevTo) = Some p
              /\ To p = Int64.sub F 1.
Proof.
  induction k as [|k IH]; intros i prevTo Hk HT; [lia|].
  destruct k as [|k'].
  - simpl. eexists; split; [reflexivity|]. simpl.
    destruct (i <? T - 1) eqn:Hlt; [lia | reflexivity].
  - change (plan_loop F E T (S (S k')) i prevTo)
      with (mkPart i (if i =? 0 then 0 else Int64.add prevTo 1)
              (if i <? T - 1
               then Int64.add (if i =? 0 then 0 else Int64.add prevTo 1) E
               else Int64.sub F 1) EmptyString
            :: plan_loop F E T (S k') (i + 1)
                 (if i <? T - 1
                  then Int64.add (if i =? 0 then 0 else Int64.add prevTo 1) E
                  else Int64.sub F 1)).
    rewrite last_cons.
    match goal with |- context [plan_loop F E T (S k') ?a ?b] =>
      destruct (IH a b ltac:(lia) ltac:(lia)) as [p [Hp HTo]] end.
    exists p. rewrite Hp. split; [reflexivity | exact HTo].
Qed.

Lemma plan_loop_sum64 (F E T : Z) :
  forall k i prevTo,
    0 <= i -> (0 < k)%nat -> i + Z.of_nat k = T ->
    Int64.wrap64
      (fold_right Z.add 0
         (map (fun p => part_len (From p) (To p)) (plan_loop F E T k i prevTo)))
    = Int64.wrap64 (F - (if i =? 0 then 0 else Int64.add prevTo 1)).
Proof.
  induction k as [|k IH]; intros i prevTo Hi Hk HT; [lia|].
  destruct k as [|k'].
  - simpl. destruct (i <? T - 1) eqn:Hlt; [lia|].
    rewrite part_len_wrap. rewrite Z.add_0_r, wrap64_idem.
    unfold Int64.sub.
    replace (Int64.wrap64 (F - 1) - (if i =? 0 then 0 else Int64.add prevTo 1) + 1)
      with (Int64.wrap64 (F - 1) + (1 - (if i =? 0 then 0 else Int64.add prevTo 1))) by lia.
    rewrite wrap64_add_l. f_equal. lia.
  - remember (S k') as k1 eqn:Hk1. simpl.
    set (from := if i =? 0 then 0 else Int64.add prevTo 1).
    destruct (i <? T - 1) eqn:Hlt; [|lia].
    rewrite <- wrap64_add_r.
    rewrite (IH (i + 1) (Int64.add from E)) by lia.
    destruct (i + 1 =? 0) eqn:H0; [lia|].
    rewrite wrap64_add_r, part_len_wrap, wrap64_add_l.
    unfold Int64.add.
    set (a := Int64.wrap64 (from + E)).
    replace (a - from + 1 + (F - Int64.wrap64 (a + 1)))
      with (a - from + 1 + F - Int64.wrap64 (a + 1)) by lia.
    rewrite wrap64_sub_r. f_equal. lia.
Qed.

Lemma plan_jobs_tiles64 (F E T : Z) :
  1 <= T -> Int64.in_range F -> tiles64 F (plan_jobs F E T).
Proof.
  intros HT HF. unfold tiles64, plan_jobs.
  assert (Hk : (0 < Z.to_nat T)%nat) by lia.
  repeat split.
  - destruct (Z.to_nat T) eqn:HTn; [lia|]. simpl. eexists; split; reflexivity.
  - intros i p q Hp Hq. eapply plan_loop_chain64; eauto. lia.
  - apply plan_loop_last64; lia.
  - etransitivity; [|apply (wrap64_id F HF)].
    destruct (Z.to_nat T) eqn:HTn; [lia|].
    assert (Hr : forall l a, l <> [] ->
              Int64.wrap64 (fold_left Int64.add l a) = fold_left Int64.add l a).
    { intros l. induction l as [|x l IHl]; intros a Hne; [congruence|].
      simpl. destruct l as [|y l].
      - simpl. apply wrap64_idem.
      - apply IHl. discriminate. }
    rewrite <- Hr by (simpl; discriminate).
    rewrite fold_left_add64, Z.add_0_l, <- HTn.
    rewrite plan_loop_sum64 by lia. simpl. f_equal. lia.
Qed.

Lemma plan_bound (F T : Z) :
  0 <= F <= Int64.max_int -> 1 <= T <= 100 ->
  0 <= F / T /\ (T - 1) * (F / T + 1) <= Int64.max_int.
Proof.
  intros HF HT. unfold Int64.max_int in *.
  pose proof (Z.mul_div_le F T ltac:(lia)) as Hle.
  assert (H0 : 0 <= F / T) by (apply Z.div_pos; lia).
  split; [exact H0|].
  destruct (Z_le_gt_dec (T - 1) (F / T)) as [Hbig | Hsmall].
  - nia.
  - assert ((T - 1) * (F / T + 1) <= 99 * 99) by nia. lia.
Qed.

(** Without wrap-around, part [j] of the plan starts at [j * (E + 1)] and,
    unless it is the last one, ends [E] bytes further. *)
Lemma plan_loop_closed (F E T : Z) :
  0 <= F <= Int64.max_int -> 0 <= E -> (T - 1) * (E + 1) <= Int64.max_int ->
  forall k i prevTo,
    0 <= i -> i + Z.of_nat k = T ->
    (i = 0 \/ prevTo = i * (E + 1) - 1) ->
    forall j p,
      plan_loop F E T k i prevTo !! j = Some p ->
      From p = (i + Z.of_nat j) * (E + 1)
      /\ To p = (if i + Z.of_nat j <? T - 1
                 then (i + Z.of_nat j) * (E + 1) + E else F - 1).
Proof.
  intros HF HE Hb.
  induction k as [|k IH]; intros i prevTo Hi HT Hprev j p; simpl; [discriminate|].
  assert (Hfrom : (if i =? 0 then 0 else Int64.add prevTo 1) = i * (E + 1)).
  { destruct (i =? 0) eqn:H0; [apply Z.eqb_eq in H0; lia|].
    apply Z.eqb_neq in H0. destruct Hprev as [Hz | Hz]; [lia|]. subst prevTo.
    unfold Int64.add. rewrite wrap64_id; [lia|].
    unfold Int64.in_range, Int64.min_int, Int64.max_int in *. nia. }
  rewrite Hfrom.
  assert (Hto : (if i <? T - 1 then Int64.add (i * (E + 1)) E else Int64.sub F 1)
                = (if i <? T - 1 then i * (E + 1) + E else F - 1)).
  { destruct (i <? T - 1) eqn:Hlt.
    - apply Z.ltb_lt in Hlt. unfold Int64.add. apply wrap64_id.
      unfold Int64.in_range, Int64.min_int, Int64.max_int in *. nia.
    - unfold Int64.sub. apply wrap64_id.
      unfold Int64.in_range, Int64.min_int, Int64.max_int in *. lia. }
  rewrite Hto.
  destruct j as [|j]; simpl.
  - intros [= <-]. simpl. rewrite Z.add_0_r. split; reflexivity.
  - intros Hp. destruct k as [|k']; [discriminate|].
    assert (Hlt : (i <? T - 1) = true) by (apply Z.ltb_lt; lia).
    rewrite Hlt in Hp.
    apply (IH (i + 1) (i * (E + 1) + E)) in Hp; [|lia|lia|right; lia].
    replace (i + Z.of_nat (S j)) with (i + 1 + Z.of_nat j) by lia. exact Hp.
Qed.

(** A chain of adjoining parts covers what lies between its two ends. *)
Lemma chain_sum :
  forall (l : list Part) (p0 : Part),
    l !! 0%nat = Some p0 ->
    (forall i p q, l !! i = Some p -> l !! S i = Some q -> From q = To p + 1) ->
    exists pl, last l = Some pl
      /\ fold_right Z.add 0 (map (fun p => To p - From p + 1) l)
         = To pl - From p0 + 1.
Proof.
  induction l as [|x l IH]; intros p0; simpl; [discriminate|].
  intros [= ->] Hchain. destruct l as [|y l].
  - exists p0. split; [reflexivity|]. simpl. lia.
  - destruct (IH y eq_refl) as [pl [Hlast Hsum]].
    { intros i p q Hp Hq. apply (Hchain (S i) p q); assumption. }
    exists pl. split.
    + rewrite last_cons, Hlast. reflexivity.
    + rewrite Hsum. specialize (Hchain 0%nat p0 y eq_refl eq_refl). lia.
Qed.

Lemma plan_jobs_tiles (F T : Z) :
  0 <= F <= Int64.max_int -> 1 <= T <= 100 ->
  tiles F (plan_jobs F (F / T) T).
Proof.
  intros HF HT.
  destruct (plan_bound F T HF HT) as [HE Hb].
  assert (HF64 : Int64.in_range F)
    by (unfold Int64.in_range, Int64.min_int, Int64.max_int in *; lia).
  destruct (plan_jobs_tiles64 F (F / T) T ltac:(lia) HF64)
    as [[p0 [Hp0 Hfrom0]] [_ [[pl [Hlast HTo]] _]]].
  assert (Hclosed := plan_loop_closed F (F / T) T HF HE Hb (Z.to_nat T) 0 0
                       ltac:(lia) ltac:(lia) ltac:(left; reflexivity)).
  fold (plan_jobs F (F / T) T) in Hclosed.
  assert (Hchain : forall i p q,
             plan_jobs F (F / T) T !! i = Some p ->
             plan_jobs F (F / T) T !! S i = Some q -> From q = To p + 1).
  { intros i p q Hp Hq.
    assert (Hlen : (S i < Z.to_nat T)%nat).
    { apply lookup_lt_Some in Hq. unfold plan_jobs in Hq.
      rewrite plan_loop_length in Hq. exact Hq. }
    destruct (Hclosed _ _ Hp) as [_ HpTo]. destruct (Hclosed _ _ Hq) as [HqFrom _].
    rewrite HqFrom, HpTo.
    destruct (0 + Z.of_nat i <? T - 1) eqn:Hlt; [lia|].
    apply Z.ltb_ge in Hlt. lia. }
  assert (HTo' : To pl = F - 1).
  { rewrite HTo. unfold Int64.sub. apply wrap64_id.
    unfold Int64.in_range, Int64.min_int, Int64.max_int in *. lia. }
  unfold tiles. split; [|split; [|split]].
  - exists p0. split; assumption.
  - exact Hchain.
  - exists pl. split; assumption.
  - destruct (chain_sum _ p0 Hp0 Hchain) as [pl' [Hlast' Hsum]].
    rewrite Hsum. rewrite Hlast in Hlast'. injection Hlast' as <-. lia.
Qed.

Lemma planTotalPart_capped (pf : Float64.Platform) (d : Downloader) (tp : Z) :
  planTotalPart pf d = Ret tp -> tp <= 100.
Proof.
  unfold planTotalPart, obind, maxTotalPart.
  destruct (TotalPart d =? 0).
  - intros [= <-].
    destruct (Float64.ceil_div pf (FileSize d) (PartSize d) >? 100) eqn:H; lia.
  - destruct (Int64.div (FileSize d) (PartSize d)) as [q|]; [|discriminate].
    intros [= <-].
    destruct (q <? TotalPart d);
      match goal with |- context [?x >? 100] => destruct (x >? 100) eqn:H end; lia.
Qed.

Lemma Download_plan_inv (pf : Float64.Platform) (d : Downloader) (plan : Plan) :
  Download_plan pf d = Ret plan ->
  planTotalPart pf d = Ret (plan_totalPart plan)
  /\ 1 <= plan_totalPart plan <= 100
  /\ plan_eachSize plan
     = Int64.wrap64 (Z.quot (FileSize d) (plan_totalPart plan))
  /\ plan_jobs_of plan
     = plan_jobs (FileSize d) (plan_eachSize plan) (plan_totalPart plan).
Proof.
  unfold Download_plan, obind.
  destruct (planTotalPart pf d) as [tp|] eqn:Htp; [|discriminate].
  apply planTotalPart_capped in Htp.
  destruct (tp <? 0) eqn:Hneg; [discriminate|]. apply Z.ltb_ge in Hneg.
  unfold Int64.div. destruct (tp =? 0) eqn:H0; [discriminate|].
  apply Z.eqb_neq in H0. intros [= <-]. simpl.
  repeat split; try reflexivity; lia.
Qed.

(** C6. Every part plan that [Download] produces tiles the file: the first
    part starts at byte 0, each part starts one byte after the end of its
    predecessor, the last part ends at byte [FileSize - 1], and the
    lengths [To - From + 1] add up to [FileSize]. This holds in the
    [int64] arithmetic of the program for every file size, and over the
    integers for every file size that is not negative. *)
Theorem download_plan_tiles_file :
  forall (pf : Float64.Platform) (d : Downloader) (plan : Plan),
    Int64.in_range (FileSize d) ->
    Download_plan pf d = Ret plan ->
    1 <= plan_totalPart plan ->
    List.length (plan_jobs_of plan) = Z.to_nat (plan_totalPart plan)
    /\ tiles64 (FileSize d) (plan_jobs_of plan)
    /\ (0 <= FileSize d -> tiles (FileSize d) (plan_jobs_of plan)).
Proof.
  intros pf d plan HF Hplan _.
  destruct (Download_plan_inv pf d plan Hplan) as [_ [HT [HE Hjobs]]].
  rewrite Hjobs. split; [|split].
  - unfold plan_jobs. apply plan_loop_length.
  - apply plan_jobs_tiles64; [lia | exact HF].
  - intros Hpos. rewrite HE.
    assert (HF' : 0 <= FileSize d <= Int64.max_int)
      by (unfold Int64.in_range in HF; lia).
    rewrite Z.quot_div_nonneg by lia.
    rewrite wrap64_id.
    + apply plan_jobs_tiles; assumption.
    + destruct (plan_bound _ _ HF' HT) as [H0 _].
      pose proof (Z.div_le_upper_bound (FileSize d) (plan_totalPart plan) (FileSize d)
                    ltac:(lia) ltac:(nia)).
      unfold Int64.in_range, Int64.min_int, Int64.max_int in *. lia.
Qed.

Lemma download_plan_tiles_file_witness :
  exists plan, Download_plan Float64.amd64 d_100MiB = Ret plan
    /\ tiles (FileSize d_100MiB) (plan_jobs_of plan).
Proof.
  eexists. split; [vm_compute; reflexivity|].
  refine (proj2 (proj2 (download_plan_tiles_file Float64.amd64 d_100MiB _ _ _ _)) _).
  - unfold Int64.in_range, Int64.min_int, Int64.max_int. simpl. lia.
  - vm_compute. reflexivity.
  - simpl. lia.
  - simpl. lia.
Defined.

(** C1. What the planner does instead: with two parts or more, every part
    but the last is [each_size + 1] bytes long, one byte more than
    [each_size = file_size / total_part], and the last part is left with
    [file_size - (total_part - 1) * (each_size + 1)] bytes. *)
Theorem download_plan_part_length :
  forall (pf : Float64.Platform) (d : Downloader) (plan : Plan),
    0 <= FileSize d <= Int64.max_int ->
    Download_plan pf d = Ret plan ->
    2 <= plan_totalPart plan ->
    plan_eachSize plan = FileSize d / plan_totalPart plan
    /\ (forall j p,
          plan_jobs_of plan !! j = Some p ->
          Z.of_nat j < plan_totalPart plan - 1 ->
          To p - From p + 1 = plan_eachSize plan + 1)
    /\ (exists p,
          last (plan_jobs_of plan) = Some p
          /\ To p - From p + 1
             = FileSize d - (plan_totalPart plan - 1) * (plan_eachSize plan + 1)).
Proof.
  intros pf d plan HF Hplan HT2.
  destruct (Download_plan_inv pf d plan Hplan) as [_ [HT [HE Hjobs]]].
  destruct (plan_bound _ _ HF HT) as [H0 Hb].
  assert (HE' : plan_eachSize plan = FileSize d / plan_totalPart plan).
  { rewrite HE, Z.quot_div_nonneg by lia. apply wrap64_id.
    pose proof (Z.div_le_upper_bound (FileSize d) (plan_totalPart plan) (FileSize d)
                  ltac:(lia) ltac:(nia)).
    unfold Int64.in_range, Int64.min_int, Int64.max_int in *. lia. }
  assert (Hclosed := plan_loop_closed (FileSize d) (plan_eachSize plan)
                       (plan_totalPart plan) HF ltac:(lia)
                       ltac:(rewrite HE'; exact Hb)
                       (Z.to_nat (plan_totalPart plan)) 0 0
                       ltac:(lia) ltac:(lia) ltac:(left; reflexivity)).
  fold (plan_jobs (FileSize d) (plan_eachSize plan) (plan_totalPart plan)) in Hclosed.
  rewrite <- Hjobs in Hclosed.
  split; [exact HE'|]. split.
  - intros j p Hp Hj. destruct (Hclosed _ _ Hp) as [HFrom HTo].
    rewrite HFrom, HTo.
    destruct (0 + Z.of_nat j <? plan_totalPart plan - 1) eqn:Hlt; [lia|].
    apply Z.ltb_ge in Hlt. lia.
  - assert (Hlen : List.length (plan_jobs_of plan) = Z.to_nat (plan_totalPart plan)).
    { rewrite Hjobs. apply plan_loop_length. }
    destruct (last (plan_jobs_of plan)) as [p|] eqn:Hlast.
    + exists p. split; [reflexivity|].
      rewrite last_lookup, Hlen in Hlast.
      destruct (Hclosed _ _ Hlast) as [HFrom HTo]. rewrite HFrom, HTo.
      destruct (0 + Z.of_nat (Nat.pred (Z.to_nat (plan_totalPart plan)))
                <? plan_totalPart plan - 1) eqn:Hlt.
      * apply Z.ltb_lt in Hlt. lia.
      * replace (0 + Z.of_nat (Nat.pred (Z.to_nat (plan_totalPart plan))))
          with (plan_totalPart plan - 1) by lia.
        lia.
    + apply last_None in Hlast. rewrite Hlast in Hlen. simpl in Hlen. lia.
Qed.

Lemma download_plan_part_length_witness :
  exists plan,
    Download_plan Float64.amd64 d_100MiB = Ret plan
    /\ plan_totalPart plan = 10
    /\ plan_eachSize plan = 10485760
    /\ (forall j p,
          plan_jobs_of plan !! j = Some p -> Z.of_nat j < 9 ->
          To p - From p + 1 = 10485761).
Proof.
  eexists. split; [vm_compute; reflexivity|].
  split; [reflexivity|]. split; [reflexivity|].
  intros j p Hp Hj.
  refine (proj1 (proj2 (download_plan_part_length Float64.amd64 d_100MiB _ _ _ _))
            j p Hp Hj).
  - unfold Int64.max_int. simpl. lia.
  - vm_compute. reflexivity.
  - simpl. lia.
Defined.

End PartPlan.

Section RetryDrivers.

(** ** The retry drivers *)

(** The loop of [tryDownloadPart] stops at some iteration [n]: every
    earlier attempt failed and found the context live afterwards; attempt
    [n] succeeded, or the context was found cancelled after it, or it was
    the last one allowed. The results are those of attempt [n]. *)
Lemma download_try_loop_spec (env : retry_download.Env) (part : utilfile.Part) :
  forall (k i : nat) rp e0,
    (0 < k)%nat ->
    exists n,
      (i <= n < i + k)%nat
      /\ (forall j, (i <= j < n)%nat ->
            retry_download.err (retry_download.attempt env j) <> None
            /\ retry_download.ctx_err env j = None)
      /\ (retry_download.err (retry_download.attempt env n) = None
          \/ retry_download.ctx_err env n <> None
          \/ n = (i + k - 1)%nat)
      /\ retry_download.try_loop env part k i rp e0
         = (retry_download.retPart_of part (retry_download.attempt env n),
            retry_download.err (retry_download.attempt env n),
            flat_map (retry_download.iteration env part) (seq i (S n - i))).
Proof.
  induction k as [|k IH]; intros i rp e0 Hk; [lia|].
  simpl.
  destruct (retry_download.err (retry_download.attempt env i)) as [e|] eqn:Herr.
  - destruct (retry_download.ctx_err env i) as [c|] eqn:Hctx.
    + exists i. split; [lia|]. split; [intros j Hj; lia|]. split.
      * right; left. congruence.
      * rewrite Herr. replace (S i - i)%nat with 1%nat by lia.
        simpl. rewrite app_nil_r. reflexivity.
    + destruct k as [|k'].
      * exists i. split; [lia|]. split; [intros j Hj; lia|]. split.
        -- right; right. lia.
        -- simpl. rewrite Herr. replace (S i - i)%nat with 1%nat by lia.
           simpl. rewrite !app_nil_r. reflexivity.
      * match goal with |- context [retry_download.try_loop env part (S k') (S i) ?r ?e'] =>
          destruct (IH (S i) r e' ltac:(lia)) as [n [Hn [Hbefore [Hstop Heq]]]]
        end.
        rewrite Heq. exists n. split; [lia|]. split; [|split].
        -- intros j Hj. destruct (Nat.eq_dec j i) as [->|Hne].
           ++ split; congruence.
           ++ apply Hbefore. lia.
        -- destruct Hstop as [H|[H|H]]; auto. right; right. lia.
        -- replace (S n - i)%nat with (S (S n - S i)) by lia.
           reflexivity.
  - exists i. split; [lia|]. split; [intros j Hj; lia|]. split.
    + left. exact Herr.
    + rewrite Herr. replace (S i - i)%nat with 1%nat by lia.
      simpl. rewrite app_nil_r. reflexivity.
Qed.

Lemma upload_try_loop_spec (env : retry_upload.Env) :
  forall (k i : nat) r0 e0,
    (0 < k)%nat ->
    exists n,
      (i <= n < i + k)%nat
      /\ (forall j, (i <= j < n)%nat ->
            retry_upload.err (retry_upload.attempt env j) <> None
            /\ retry_upload.ctx_err env j = None)
      /\ (retry_upload.err (retry_upload.attempt env n) = None
          \/ retry_upload.ctx_err env n <> None
          \/ n = (i + k - 1)%nat)
      /\ retry_upload.try_loop env k i r0 e0
         = (retry_upload.resp (retry_upload.attempt env n),
            retry_upload.err (retry_upload.attempt env n),
            flat_map (retry_upload.iteration env) (seq i (S n - i))).
Proof.
  induction k as [|k IH]; intros i r0 e0 Hk; [lia|].
  simpl.
  destruct (retry_upload.err (retry_upload.attempt env i)) as [e|] eqn:Herr.
  - destruct (retry_upload.ctx_err env i) as [c|] eqn:Hctx.
    + exists i. split; [lia|]. split; [intros j Hj; lia|]. split.
      * right; left. congruence.
      * rewrite Herr. replace (S i - i)%nat with 1%nat by lia.
        simpl. rewrite app_nil_r. reflexivity.
    + destruct k as [|k'].
      * exists i. split; [lia|]. split; [intros j Hj; lia|]. split.
        -- right; right. lia.
        -- simpl. rewrite Herr. replace (S i - i)%nat with 1%nat by lia.
           simpl. rewrite !app_nil_r. reflexivity.
      * match goal with |- context [retry_upload.try_loop env (S k') (S i) ?r ?e'] =>
          destruct (IH (S i) r e' ltac:(lia)) as [n [Hn [Hbefore [Hstop Heq]]]]
        end.
        rewrite Heq. exists n. split; [lia|]. split; [|split].
        -- intros j Hj. destruct (Nat.eq_dec j i) as [->|Hne].
           ++ split; congruence.
           ++ apply Hbefore. lia.
        -- destruct Hstop as [H|[H|H]]; auto. right; right. lia.
        -- replace (S n - i)%nat with (S (S n - S i)) by lia.
           reflexivity.
  - exists i. split; [lia|]. split; [intros j Hj; lia|]. split.
    + left. exact Herr.
    + rewrite Herr. replace (S i - i)%nat with 1%nat by lia.
      simpl. rewrite app_nil_r. reflexivity.
Qed.

Lemma download_iteration_attempt env part (j m : nat) :
  In (EvAttempt m) (retry_download.iteration env part j) <-> m = j.
Proof.
  unfold retry_download.iteration. rewrite in_app_iff. simpl.
  rewrite in_app_iff, in_map_iff. split.
  - intros [H | [H | [[x [Hx _]] | H]]].
    + destruct j; simpl in H; [contradiction|]. destruct H as [H|[]]; discriminate.
    + congruence.
    + discriminate.
    + destruct (retry_download.err (retry_download.attempt env j)); [|contradiction].
      rewrite in_app_iff in H. destruct H as [H|H].
      * destruct (String.eqb _ _); [contradiction|]. destruct H as [H|[]]; discriminate.
      * destruct H as [H|[H|[]]]; discriminate.
  - intros ->. right; left. reflexivity.
Qed.

Lemma upload_iteration_attempt env (j m : nat) :
  In (EvAttempt m) (retry_upload.iteration env j) <-> m = j.
Proof.
  unfold retry_upload.iteration. rewrite in_app_iff. simpl.
  rewrite in_app_iff, in_map_iff. split.
  - intros [H | [H | [[x [Hx _]] | H]]].
    + destruct j; simpl in H; [contradiction|]. destruct H as [H|[]]; discriminate.
    + congruence.
    + discriminate.
    + destruct (retry_upload.err (retry_upload.attempt env j)); [|contradiction].
      destruct H as [H|[H|[]]]; discriminate.
  - intros ->. right; left. reflexivity.
Qed.

Lemma attempt_in_flat_map {f : nat -> list Event} :
  (forall j m, In (EvAttempt m) (f j) <-> m = j) ->
  forall c i m, In (EvAttempt m) (flat_map f (seq i c)) <-> (i <= m < i + c)%nat.
Proof.
  intros Hf c i m. rewrite in_flat_map. split.
  - intros [j [Hj Hin]]. apply Hf in Hin. subst. apply in_seq in Hj. lia.
  - intros Hm. exists m. split; [apply in_seq; lia | apply Hf; reflexivity].
Qed.

(** A block of iterations splits around any one of them. *)
Lemma flat_map_seq_split (f : nat -> list Event) (i c m : nat) :
  (i <= m < i + c)%nat ->
  flat_map f (seq i c)
  = flat_map f (seq i (m - i)) ++ f m ++ flat_map f (seq (S m) (i + c - S m)).
Proof.
  intros Hm.
  replace c with ((m - i) + (1 + (i + c - S m)))%nat at 1 by lia.
  rewrite seq_app, flat_map_app.
  replace (i + (m - i))%nat with m by lia.
  rewrite seq_app, flat_map_app. simpl. rewrite app_nil_r.
  replace (m + 1)%nat with (S m) by lia. reflexivity.
Qed.

Lemma download_iteration_ctx env part (j : nat) (r : option error) :
  In (EvCtxErr r) (retry_download.iteration env part j) ->
  retry_download.err (retry_download.attempt env j) <> None
  /\ r = retry_download.ctx_err env j.
Proof.
  unfold retry_download.iteration. rewrite in_app_iff. simpl.
  rewrite in_app_iff, in_map_iff.
  intros [H | [H | [[x [Hx _]] | H]]].
  - destruct j; simpl in H; [contradiction|]. destruct H as [H|[]]; discriminate.
  - discriminate.
  - discriminate.
  - destruct (retry_download.err (retry_download.attempt env j)); [|contradiction].
    split; [discriminate|].
    rewrite in_app_iff in H. destruct H as [H|H].
    + destruct (String.eqb _ _); [contradiction|]. destruct H as [H|[]]; discriminate.
    + destruct H as [H|[H|[]]]; [discriminate|]. congruence.
Qed.

Lemma upload_iteration_ctx env (j : nat) (r : option error) :
  In (EvCtxErr r) (retry_upload.iteration env j) ->
  retry_upload.err (retry_upload.attempt env j) <> None
  /\ r = retry_upload.ctx_err env j.
Proof.
  unfold retry_upload.iteration. rewrite in_app_iff. simpl.
  rewrite in_app_iff, in_map_iff.
  intros [H | [H | [[x [Hx _]] | H]]].
  - destruct j; simpl in H; [contradiction|]. destruct H as [H|[]]; discriminate.
  - discriminate.
  - discriminate.
  - destruct (retry_upload.err (retry_upload.attempt env j)); [|contradiction].
    split; [discriminate|].
    destruct H as [H|[H|[]]]; [discriminate|]. congruence.
Qed.

(** C3, as the code has it. In both retry loops the first attempt is made
    without consulting the context; a later attempt is made only after
    the attempt before it has failed and [ctx.Err()], evaluated after that
    failure, was nil; the context is consulted nowhere else; and when it is
    found cancelled after a failed attempt, no further attempt is made and
    the loop returns the error of that attempt. *)
Theorem retry_cancellation_checked_after_failure :
  (forall (env : retry_download.Env) (part : utilfile.Part),
     let '(_, e, tr) := retry_download.tryDownloadPart env part in
     (exists tr', tr = EvAttempt 0 :: tr')
     /\ (forall m, In (EvAttempt (S m)) tr ->
           In (EvAttempt m) tr
           /\ retry_download.err (retry_download.attempt env m) <> None
           /\ retry_download.ctx_err env m = None)
     /\ (forall r, In (EvCtxErr r) tr ->
           exists m, In (EvAttempt m) tr
             /\ retry_download.err (retry_download.attempt env m) <> None
             /\ r = retry_download.ctx_err env m)
     /\ (forall m x c,
           In (EvAttempt m) tr ->
           retry_download.err (retry_download.attempt env m) = Some x ->
           retry_download.ctx_err env m = Some c ->
           e = Some x /\ ~ In (EvAttempt (S m)) tr))
  /\
  (forall (env : retry_upload.Env),
     let '(_, e, tr) := retry_upload.TrySuperFile2Upload env in
     (exists tr', tr = EvAttempt 0 :: tr')
     /\ (forall m, In (EvAttempt (S m)) tr ->
           In (EvAttempt m) tr
           /\ retry_upload.err (retry_upload.attempt env m) <> None
           /\ retry_upload.ctx_err env m = None)
     /\ (forall r, In (EvCtxErr r) tr ->
           exists m, In (EvAttempt m) tr
             /\ retry_upload.err (retry_upload.attempt env m) <> None
             /\ r = retry_upload.ctx_err env m)
     /\ (forall m x c,
           In (EvAttempt m) tr ->
           retry_upload.err (retry_upload.attempt env m) = Some x ->
           retry_upload.ctx_err env m = Some c ->
           e = Some x /\ ~ In (EvAttempt (S m)) tr)).
Proof.
  split.
  - intros env part. unfold retry_download.tryDownloadPart.
    destruct (download_try_loop_spec env part 10 0 retry_download.zero_Part None
                ltac:(lia)) as [n [Hn [Hbefore [Hstop Heq]]]].
    rewrite Heq. replace (S n - 0)%nat with (S n) by lia.
    pose proof (attempt_in_flat_map (download_iteration_attempt env part)) as Hin.
    split; [|split; [|split]].
    + simpl. unfold retry_download.iteration at 1. simpl. eexists. reflexivity.
    + intros m Hm. apply Hin in Hm. split; [apply Hin; lia|]. apply Hbefore. lia.
    + intros r Hr. apply in_flat_map in Hr. destruct Hr as [j [Hj Hr]].
      apply in_seq in Hj. apply download_iteration_ctx in Hr.
      exists j. split; [apply Hin; lia | exact Hr].
    + intros m x c Hm Hx Hc. apply Hin in Hm.
      assert (m = n).
      { destruct (Nat.eq_dec m n) as [|Hne]; [assumption|].
        destruct (Hbefore m ltac:(lia)) as [_ Hlive]. congruence. }
      subst m. split; [exact Hx|]. intros Hnext. apply Hin in Hnext. lia.
  - intros env. unfold retry_upload.TrySuperFile2Upload.
    destruct (upload_try_loop_spec env 10 0 panfile.zero_SuperFile2UploadResponse None
                ltac:(lia)) as [n [Hn [Hbefore [Hstop Heq]]]].
    rewrite Heq. replace (S n - 0)%nat with (S n) by lia.
    pose proof (attempt_in_flat_map (upload_iteration_attempt env)) as Hin.
    split; [|split; [|split]].
    + simpl. unfold retry_upload.iteration at 1. simpl. eexists. reflexivity.
    + intros m Hm. apply Hin in Hm. split; [apply Hin; lia|]. apply Hbefore. lia.
    + intros r Hr. apply in_flat_map in Hr. destruct Hr as [j [Hj Hr]].
      apply in_seq in Hj. apply upload_iteration_ctx in Hr.
      exists j. split; [apply Hin; lia | exact Hr].
    + intros m x c Hm Hx Hc. apply Hin in Hm.
      assert (m = n).
      { destruct (Nat.eq_dec m n) as [|Hne]; [assumption|].
        destruct (Hbefore m ltac:(lia)) as [_ Hlive]. congruence. }
      subst m. split; [exact Hx|]. intros Hnext. apply Hin in Hnext. lia.
Qed.

(** C3 does not hold as stated: the loops make their first attempt before
    any look at the context, and with the context cancelled they return
    the error of the attempt, not the reason of the cancellation. *)
Lemma retry_cancellation_counterexample :
  retry_download.tryDownloadPart download_cancelled (utilfile.mkPart 0 0 9 EmptyString)
  = (utilfile.mkPart 0 0 9 EmptyString, Some "status 500"%string,
     [EvAttempt 0; EvProgress 0; EvCtxErr (Some "context canceled"%string)])
  /\ retry_upload.TrySuperFile2Upload upload_cancelled
     = (panfile.zero_SuperFile2UploadResponse, Some "status 500"%string,
        [EvAttempt 0; EvProgress 0; EvCtxErr (Some "context canceled"%string)])
  /\ Some "status 500"%string <> retry_download.ctx_err download_cancelled 0
  /\ Some "status 500"%string <> retry_upload.ctx_err upload_cancelled 0.
Proof. repeat split; try reflexivity; discriminate. Qed.

Lemma retry_cancellation_checked_after_failure_witness :
  In (EvAttempt 0)
     (snd (retry_download.tryDownloadPart download_cancelled
             (utilfile.mkPart 0 0 9 EmptyString)))
  /\ snd (fst (retry_download.tryDownloadPart download_cancelled
                 (utilfile.mkPart 0 0 9 EmptyString)))
     = Some "status 500"%string
  /\ ~ In (EvAttempt 1)
         (snd (retry_download.tryDownloadPart download_cancelled
                 (utilfile.mkPart 0 0 9 EmptyString))).
Proof.
  assert (H0 : In (EvAttempt 0)
                 (snd (retry_download.tryDownloadPart download_cancelled
                         (utilfile.mkPart 0 0 9 EmptyString))))
    by (simpl; left; reflexivity).
  split; [exact H0|].
  exact (proj2 (proj2 (proj2
           (proj1 retry_cancellation_checked_after_failure download_cancelled
              (utilfile.mkPart 0 0 9 EmptyString))))
           0%nat "status 500"%string "context canceled"%string
           H0 eq_refl eq_refl).
Defined.

(** ** Progress accounting *)

Lemma run_progress_app {S : Type} (h : Z -> S -> S) (l1 l2 : list Event) (s : S) :
  run_progress h (l1 ++ l2) s = run_progress h l2 (run_progress h l1 s).
Proof.
  revert s. induction l1 as [|ev l1 IH]; intros s; simpl; [reflexivity|].
  destruct ev; apply IH.
Qed.

Lemma run_progress_reads {S : Type} (h : Z -> S -> S) (reads : list Z) (s : S) :
  run_progress h (map EvProgress reads) s = fold_left (fun acc r => h r acc) reads s.
Proof. revert s. induction reads as [|r l IH]; intros s; simpl; [reflexivity | apply IH]. Qed.

Lemma fold_add64_range (l : list Z) (s : Z) :
  Int64.in_range s -> Int64.in_range (fold_left Int64.add l s).
Proof.
  revert s. induction l as [|x l IH]; intros s Hs; simpl; [exact Hs|].
  apply IH. apply wrap64_range.
Qed.

(** Reporting [reads] and then minus their sum leaves an [int64]
    counter where it was. *)
Lemma add64_rollback (reads : list Z) (s : Z) :
  Int64.in_range s ->
  Int64.add (fold_left Int64.add reads s) (Int64.neg (reported reads)) = s.
Proof.
  intros Hs. unfold reported.
  set (X := fold_left Int64.add reads s). set (R := fold_left Int64.add reads 0).
  unfold Int64.add, Int64.neg. rewrite wrap64_add_r.
  replace (X + - R) with (X - R) by lia.
  rewrite <- wrap64_sub_l, <- wrap64_sub_r. subst X R.
  rewrite !fold_left_add64, wrap64_sub_l, wrap64_sub_r.
  etransitivity; [|apply (wrap64_id s Hs)]. f_equal. lia.
Qed.

Lemma add64_reported (reads : list Z) (s : Z) :
  Int64.in_range s ->
  fold_left Int64.add reads s = Int64.add s (reported reads).
Proof.
  intros Hs. unfold reported.
  rewrite <- (wrap64_id _ (fold_add64_range reads s Hs)).
  set (R := fold_left Int64.add reads 0). unfold Int64.add.
  rewrite <- wrap64_add_r. subst R. rewrite !fold_left_add64, wrap64_add_r.
  f_equal.
Qed.

Lemma run_progress_sleep {S : Type} (h : Z -> S -> S) (i : nat) (tr : list Event) (s : S) :
  run_progress h ((match i with O => [] | _ => [EvSleep 6] end) ++ tr) s
  = run_progress h tr s.
Proof. destruct i; reflexivity. Qed.

Lemma download_iteration_progress env part (j : nat) (s : Z) :
  Int64.in_range s ->
  run_progress retry_download.internalProgressHandler
    (retry_download.iteration env part j) s
  = match retry_download.err (retry_download.attempt env j) with
    | None => Int64.add s (reported (retry_download.reads (retry_download.attempt env j)))
    | Some _ => s
    end.
Proof.
  intros Hs. unfold retry_download.iteration.
  rewrite run_progress_sleep. simpl. rewrite run_progress_app, run_progress_reads.
  change (fun acc r => retry_download.internalProgressHandler r acc) with Int64.add.
  destruct (retry_download.err (retry_download.attempt env j)).
  - rewrite run_progress_app.
    destruct (String.eqb _ _); simpl;
      unfold retry_download.internalProgressHandler; apply add64_rollback, Hs.
  - simpl. apply add64_reported, Hs.
Qed.

Lemma download_failed_iterations_progress env part :
  forall c i s,
    Int64.in_range s ->
    (forall j, (i <= j < i + c)%nat ->
       retry_download.err (retry_download.attempt env j) <> None) ->
    run_progress retry_download.internalProgressHandler
      (flat_map (retry_download.iteration env part) (seq i c)) s = s.
Proof.
  induction c as [|c IH]; intros i s Hs Hfail; simpl; [reflexivity|].
  rewrite run_progress_app, download_iteration_progress by exact Hs.
  destruct (retry_download.err (retry_download.attempt env i)) eqn:He.
  - apply IH; [exact Hs|]. intros j Hj. apply Hfail. lia.
  - exfalso. apply (Hfail i); [lia | exact He].
Qed.

Lemma clamped_reads (fileSize : Z) (reads : list Z) :
  fileSize <= Int64.max_int ->
  forall s, 0 <= s -> retry_upload.fits fileSize s reads ->
    fold_left (fun acc r => retry_upload.internalProgressHandler fileSize r acc) reads s
    = s + fold_right Z.add 0 reads.
Proof.
  intros Hmax. unfold retry_upload.fits.
  induction reads as [|r l IH]; intros s Hs [Hpos Hsum]; simpl.
  - lia.
  - inversion Hpos as [|? ? Hr Hl]; subst. simpl in Hsum.
    assert (Hl0 : 0 <= fold_right Z.add 0 l).
    { clear -Hl. induction Hl; simpl; lia. }
    assert (Hstep : retry_upload.internalProgressHandler fileSize r s = s + r).
    { unfold retry_upload.internalProgressHandler, Int64.add.
      rewrite wrap64_id
        by (unfold Int64.in_range, Int64.min_int, Int64.max_int in *; lia).
      destruct (s + r >? fileSize) eqn:Hgt; [lia | reflexivity]. }
    rewrite Hstep, IH; [lia | lia | split; [assumption | lia]].
Qed.

Lemma reported_sum (reads : list Z) :
  Forall (fun r => 0 <= r) reads ->
  fold_right Z.add 0 reads <= Int64.max_int ->
  reported reads = fold_right Z.add 0 reads.
Proof.
  intros Hpos Hmax. unfold reported.
  assert (H : forall l a, Forall (fun r => 0 <= r) l -> 0 <= a ->
            a + fold_right Z.add 0 l <= Int64.max_int ->
            fold_left Int64.add l a = a + fold_right Z.add 0 l).
  { induction l as [|x l IH]; intros a Hl Ha Hb; simpl; [lia|].
    inversion Hl as [|? ? Hx Hl']; subst. simpl in Hb.
    assert (Hl0 : 0 <= fold_right Z.add 0 l).
    { clear -Hl'. induction Hl'; simpl; lia. }
    unfold Int64.add at 2. rewrite wrap64_id
      by (unfold Int64.in_range, Int64.min_int, Int64.max_int in *; lia).
    rewrite IH; [lia | assumption | lia | lia]. }
  rewrite H; [lia | assumption | lia | lia].
Qed.

Lemma upload_iteration_progress env (fileSize : Z) (j : nat) (s : Z) :
  fileSize <= Int64.max_int -> 0 <= s ->
  retry_upload.fits fileSize s (retry_upload.reads (retry_upload.attempt env j)) ->
  run_progress (retry_upload.internalProgressHandler fileSize)
    (retry_upload.iteration env j) s
  = match retry_upload.err (retry_upload.attempt env j) with
    | None => s + fold_right Z.add 0 (retry_upload.reads (retry_upload.attempt env j))
    | Some _ => s
    end.
Proof.
  intros Hmax Hs Hfit. unfold retry_upload.iteration.
  rewrite run_progress_sleep. simpl. rewrite run_progress_app, run_progress_reads.
  rewrite (clamped_reads fileSize _ Hmax s Hs Hfit).
  destruct Hfit as [Hpos Hsum].
  set (reads := retry_upload.reads (retry_upload.attempt env j)) in *.
  assert (Hl0 : 0 <= fold_right Z.add 0 reads).
  { clear -Hpos. induction Hpos; simpl; lia. }
  destruct (retry_upload.err (retry_upload.attempt env j)); simpl; [|reflexivity].
  rewrite reported_sum by (assumption || lia).
  unfold retry_upload.internalProgressHandler, Int64.add, Int64.neg.
  rewrite wrap64_add_r.
  rewrite wrap64_id
    by (unfold Int64.in_range, Int64.min_int, Int64.max_int in *; lia).
  destruct (s + fold_right Z.add 0 reads + - fold_right Z.add 0 reads >? fileSize) eqn:Hgt;
    lia.
Qed.

Lemma upload_failed_iterations_progress env (fileSize s : Z) :
  fileSize <= Int64.max_int -> 0 <= s ->
  forall c i,
    (forall j, (i <= j < i + c)%nat ->
       retry_upload.err (retry_upload.attempt env j) <> None
       /\ retry_upload.fits fileSize s (retry_upload.reads (retry_upload.attempt env j))) ->
    run_progress (retry_upload.internalProgressHandler fileSize)
      (flat_map (retry_upload.iteration env) (seq i c)) s = s.
Proof.
  intros Hmax Hs. induction c as [|c IH]; intros i Hfail; simpl; [reflexivity|].
  destruct (Hfail i ltac:(lia)) as [He Hfit].
  rewrite run_progress_app, upload_iteration_progress by assumption.
  destruct (retry_upload.err (retry_upload.attempt env i)); [|congruence].
  apply IH. intros j Hj. apply Hfail. lia.
Qed.

(** C5, as the code has it. Each failed attempt of a retry loop is
    followed at once, before the next attempt, by the removal of its temp
    file (downloads) and by the report of minus the byte count the attempt
    had reported. The accumulator of the downloader, a plain sum, is
    thereby left where it was, so that only the bytes of the successful
    attempt remain counted; the accumulator of the uploader, which clamps
    the sum at the file size, is left where it was as long as the clamp is
    out of reach. *)
Theorem retry_rollback_of_failed_attempts :
  (forall (env : retry_download.Env) (part : utilfile.Part),
     let '(_, e, tr) := retry_download.tryDownloadPart env part in
     (forall m x,
        In (EvAttempt m) tr ->
        retry_download.err (retry_download.attempt env m) = Some x ->
        let a := retry_download.attempt env m in
        let path := utilfile.Part_FilePath (retry_download.retPart_of part a) in
        exists pre post,
          tr = pre ++ EvAttempt m :: map EvProgress (retry_download.reads a)
                 ++ (if String.eqb path EmptyString then [] else [EvRemove path])
                 ++ [EvProgress (Int64.neg (reported (retry_download.reads a)));
                     EvCtxErr (retry_download.ctx_err env m)]
                 ++ post
          /\ (post = [] \/ exists post', post = EvSleep 6 :: EvAttempt (S m) :: post'))
     /\ (forall doneSize,
           Int64.in_range doneSize ->
           let after :=
             run_progress retry_download.internalProgressHandler tr doneSize in
           (e <> None -> after = doneSize)
           /\ (e = None ->
                exists n,
                  In (EvAttempt n) tr
                  /\ retry_download.err (retry_download.attempt env n) = None
                  /\ after = Int64.add doneSize
                               (reported (retry_download.reads
                                            (retry_download.attempt env n))))))
  /\
  (forall (env : retry_upload.Env),
     let '(_, e, tr) := retry_upload.TrySuperFile2Upload env in
     (forall m x,
        In (EvAttempt m) tr ->
        retry_upload.err (retry_upload.attempt env m) = Some x ->
        let a := retry_upload.attempt env m in
        exists pre post,
          tr = pre ++ EvAttempt m :: map EvProgress (retry_upload.reads a)
                 ++ [EvProgress (Int64.neg (reported (retry_upload.reads a)));
                     EvCtxErr (retry_upload.ctx_err env m)]
                 ++ post
          /\ (post = [] \/ exists post', post = EvSleep 6 :: EvAttempt (S m) :: post'))
     /\ (forall fileSize doneSize,
           fileSize <= Int64.max_int -> 0 <= doneSize ->
           (forall i, retry_upload.fits fileSize doneSize
                        (retry_upload.reads (retry_upload.attempt env i))) ->
           let after :=
             run_progress (retry_upload.internalProgressHandler fileSize) tr doneSize in
           (e <> None -> after = doneSize)
           /\ (e = None ->
                exists n,
                  In (EvAttempt n) tr
                  /\ retry_upload.err (retry_upload.attempt env n) = None
                  /\ after = doneSize
                             + fold_right Z.add 0
                                 (retry_upload.reads (retry_upload.attempt env n))))).
Proof.
  split.
  - intros env part. unfold retry_download.tryDownloadPart.
    destruct (download_try_loop_spec env part 10 0 retry_download.zero_Part None
                ltac:(lia)) as [n [Hn [Hbefore [Hstop Heq]]]].
    rewrite Heq. replace (S n - 0)%nat with (S n) by lia.
    pose proof (attempt_in_flat_map (download_iteration_attempt env part)) as Hin.
    split.
    + intros m x Hm Hx. apply Hin in Hm.
      rewrite (flat_map_seq_split _ 0 (S n) m) by lia.
      exists (flat_map (retry_download.iteration env part) (seq 0 (m - 0))
                ++ match m with O => [] | _ => [EvSleep 6] end).
      exists (flat_map (retry_download.iteration env part) (seq (S m) (0 + S n - S m))).
      split.
      * unfold retry_download.iteration at 2. rewrite Hx.
        rewrite <- !app_assoc. simpl. rewrite <- !app_assoc. reflexivity.
      * destruct (Nat.eq_dec m n) as [->|Hne].
        -- left. replace (0 + S n - S n)%nat with 0%nat by lia. reflexivity.
        -- right. replace (0 + S n - S m)%nat with (S (n - S m)) by lia.
           simpl. unfold retry_download.iteration at 1. simpl.
           eexists. reflexivity.
    + intros doneSize Hs.
      replace (S n) with (n + 1)%nat by lia.
      rewrite seq_app, flat_map_app, run_progress_app. simpl.
      rewrite app_nil_r.
      rewrite download_failed_iterations_progress;
        [|exact Hs | intros j Hj; apply Hbefore; lia].
      rewrite download_iteration_progress by exact Hs.
      split.
      * intros He. destruct (retry_download.err (retry_download.attempt env n));
          [reflexivity | congruence].
      * intros He. exists n.
        split; [apply in_or_app; right; apply download_iteration_attempt; reflexivity|].
        split; [exact He|]. rewrite He. reflexivity.
  - intros env. unfold retry_upload.TrySuperFile2Upload.
    destruct (upload_try_loop_spec env 10 0 panfile.zero_SuperFile2UploadResponse None
                ltac:(lia)) as [n [Hn [Hbefore [Hstop Heq]]]].
    rewrite Heq. replace (S n - 0)%nat with (S n) by lia.
    pose proof (attempt_in_flat_map (upload_iteration_attempt env)) as Hin.
    split.
    + intros m x Hm Hx. apply Hin in Hm.
      rewrite (flat_map_seq_split _ 0 (S n) m) by lia.
      exists (flat_map (retry_upload.iteration env) (seq 0 (m - 0))
                ++ match m with O => [] | _ => [EvSleep 6] end).
      exists (flat_map (retry_upload.iteration env) (seq (S m) (0 + S n - S m))).
      split.
      * unfold retry_upload.iteration at 2. rewrite Hx.
        rewrite <- !app_assoc. simpl. rewrite <- !app_assoc. reflexivity.
      * destruct (Nat.eq_dec m n) as [->|Hne].
        -- left. replace (0 + S n - S n)%nat with 0%nat by lia. reflexivity.
        -- right. replace (0 + S n - S m)%nat with (S (n - S m)) by lia.
           simpl. unfold retry_upload.iteration at 1. simpl.
           eexists. reflexivity.
    + intros fileSize doneSize Hmax Hs Hfit.
      replace (S n) with (n + 1)%nat by lia.
      rewrite seq_app, flat_map_app, run_progress_app. simpl.
      rewrite app_nil_r.
      rewrite upload_failed_iterations_progress;
        [|exact Hmax | exact Hs
         | intros j Hj; split; [apply Hbefore; lia | apply Hfit]].
      rewrite upload_iteration_progress by (assumption || apply Hfit).
      split.
      * intros He. destruct (retry_upload.err (retry_upload.attempt env n));
          [reflexivity | congruence].
      * intros He. exists n.
        split; [apply in_or_app; right; apply upload_iteration_attempt; reflexivity|].
        split; [exact He|]. rewrite He. reflexivity.
Qed.

Lemma retry_rollback_of_failed_attempts_witness :
  Int64.in_range 100
  /\ exists n,
       In (EvAttempt n)
          (snd (retry_download.tryDownloadPart download_second_try
                  (utilfile.mkPart 0 0 9 EmptyString)))
       /\ retry_download.err (retry_download.attempt download_second_try n) = None
       /\ run_progress retry_download.internalProgressHandler
            (snd (retry_download.tryDownloadPart download_second_try
                    (utilfile.mkPart 0 0 9 EmptyString))) 100
          = Int64.add 100
              (reported (retry_download.reads
                           (retry_download.attempt download_second_try n))).
Proof.
  assert (Hr : Int64.in_range 100)
    by (unfold Int64.in_range, Int64.min_int, Int64.max_int; lia).
  split; [exact Hr|].
  exact (proj2 (proj2 (proj1 retry_rollback_of_failed_attempts download_second_try
                         (utilfile.mkPart 0 0 9 EmptyString)) 100 Hr) eq_refl).
Defined.

(** C5 does not hold as stated for uploads: the accumulator clamps the sum
    at the file size, so taking the reported bytes off again leaves
    [doneSize] below where it was before the failed attempt. *)
Lemma retry_rollback_counterexample :
  retry_upload.TrySuperFile2Upload upload_refused
  = (panfile.zero_SuperFile2UploadResponse, Some "error_code:31363"%string,
     [EvAttempt 0; EvProgress 4194550; EvProgress (-4194550);
      EvCtxErr (Some "context canceled"%string)])
  /\ run_progress (retry_upload.internalProgressHandler 8388608)
       (snd (retry_upload.TrySuperFile2Upload upload_refused)) 4194550
     = 4194058
  /\ 4194058 <> 4194550.
Proof. repeat split; try reflexivity. lia. Qed.

End RetryDrivers.

Section Scheduler.

(** ** The part scheduler *)

Lemma sched_exec_inv (capacity : Z) (resume : bool) (a : sched.Action)
    (s s' : sched.State) :
  sched.invariant capacity s -> sched.exec capacity resume a s = Some s' ->
  sched.invariant capacity s'.
Proof.
  unfold sched.invariant. intros [Hsem Hcap] Hexec.
  destruct a; simpl in Hexec.
  - destruct (sched.pending s) as [|job rest]; [discriminate|].
    destruct (sched.holding s) eqn:Hh; [discriminate|].
    destruct (resume && sched.has_file job); simpl in Hexec; [discriminate|].
    destruct (Z.of_nat (sched.sem s) <? capacity) eqn:Hlt; simpl in Hexec;
      [|discriminate].
    apply Z.ltb_lt in Hlt. injection Hexec as <-. simpl. lia.
  - destruct (sched.holding s) eqn:Hh; [|discriminate].
    injection Hexec as <-. simpl. rewrite length_app. simpl. lia.
  - destruct (sched.pending s) as [|job rest]; [discriminate|].
    destruct (sched.holding s) eqn:Hh; [discriminate|].
    destruct (resume && sched.has_file job); [|discriminate].
    injection Hexec as <-. simpl. lia.
  - destruct (sched.holding s) eqn:Hh; [discriminate|].
    injection Hexec as <-. simpl. lia.
  - destruct (sched.in_flight s !! n) eqn:Hn; [|discriminate].
    injection Hexec as <-. simpl.
    apply lookup_lt_Some in Hn.
    rewrite length_app, length_take, length_drop. lia.
  - destruct (sched.releasing s) eqn:Hr; [discriminate|].
    destruct (sched.sem s) eqn:Ht; [discriminate|].
    injection Hexec as <-. simpl. lia.
Qed.

Lemma sched_run_inv (capacity : Z) (resume : bool) :
  forall (acts : list sched.Action) (s s' : sched.State),
    sched.invariant capacity s -> sched.run capacity resume acts s = Some s' ->
    sched.invariant capacity s'.
Proof.
  induction acts as [|a acts IH]; intros s s' Hinv; simpl.
  - intros [= <-]. exact Hinv.
  - destruct (sched.exec capacity resume a s) as [s1|] eqn:Hexec; [|discriminate].
    apply IH. eapply sched_exec_inv; eassumption.
Qed.

Lemma sched_start_inv (capacity : Z) (jobs : list utilfile.Part) (s : sched.State) :
  sched.start capacity jobs = Ret s -> sched.invariant capacity s.
Proof.
  unfold sched.start. destruct (capacity <? 0) eqn:Hneg; [discriminate|].
  apply Z.ltb_ge in Hneg. intros [= <-]. unfold sched.invariant. simpl. lia.
Qed.

Lemma sem_capacity_le (n parts : Z) :
  sched.sem_capacity n parts <= n /\ sched.sem_capacity n parts <= parts.
Proof. unfold sched.sem_capacity. destruct (parts <? n) eqn:H; lia. Qed.

(** C9. In every state that the scheduler of [Download] or of
    [ResumeDownload] can reach, the tasks in flight are at most
    [PartCoroutineNum] and at most the number of planned parts; each of
    them holds a token of the semaphore, which the producer acquired
    before the task was started. *)
Theorem part_downloads_in_flight_bounded :
  (forall (d : utilfile.Downloader) (jobs : list utilfile.Part)
          (capacity : Z) (s0 s : sched.State) (acts : list sched.Action),
     sched.Download_start d jobs = Ret (capacity, s0) ->
     sched.run capacity false acts s0 = Some s ->
     Z.of_nat (List.length (sched.in_flight s)) <= utilfile.PartCoroutineNum d
     /\ Z.of_nat (List.length (sched.in_flight s)) <= Z.of_nat (List.length jobs)
     /\ (List.length (sched.in_flight s) <= sched.sem s)%nat)
  /\
  (forall (d : utilfile.Downloader) (snapshot : utilfile.DownloadSnapshot)
          (capacity : Z) (s0 s : sched.State) (acts : list sched.Action),
     sched.ResumeDownload_start d snapshot = Ret (capacity, s0) ->
     sched.run capacity true acts s0 = Some s ->
     Z.of_nat (List.length (sched.in_flight s)) <= utilfile.PartCoroutineNum d
     /\ Z.of_nat (List.length (sched.in_flight s)) <= utilfile.snap_TotalPart snapshot
     /\ (List.length (sched.in_flight s) <= sched.sem s)%nat).
Proof.
  split.
  - intros d jobs capacity s0 s acts Hstart Hrun.
    unfold sched.Download_start, obind in Hstart.
    destruct (sched.start _ jobs) as [s1|] eqn:Hs; [|discriminate].
    injection Hstart as <- <-.
    apply sched_start_inv in Hs.
    destruct (sched_run_inv _ _ _ _ _ Hs Hrun) as [Hsem Hcap].
    pose proof (sem_capacity_le (utilfile.PartCoroutineNum d)
                  (Z.of_nat (List.length jobs))).
    lia.
  - intros d snapshot capacity s0 s acts Hstart Hrun.
    unfold sched.ResumeDownload_start, obind in Hstart.
    destruct (sched.start _ _) as [s1|] eqn:Hs; [|discriminate].
    injection Hstart as <- <-.
    apply sched_start_inv in Hs.
    destruct (sched_run_inv _ _ _ _ _ Hs Hrun) as [Hsem Hcap].
    pose proof (sem_capacity_le (utilfile.PartCoroutineNum d)
                  (utilfile.snap_TotalPart snapshot)).
    lia.
Qed.

Lemma part_downloads_in_flight_bounded_witness :
  exists s,
    sched.run 2 false [sched.Acquire; sched.Spawn; sched.Acquire; sched.Spawn]
      (sched.mkState three_jobs None 0 [] 0 0) = Some s
    /\ List.length (sched.in_flight s) = 2%nat
    /\ sched.exec 2 false sched.Acquire s = None
    /\ Z.of_nat (List.length (sched.in_flight s))
       <= utilfile.PartCoroutineNum d_two_permits.
Proof.
  eexists. split; [reflexivity|]. split; [reflexivity|]. split; [reflexivity|].
  exact (proj1 (proj1 part_downloads_in_flight_bounded d_two_permits three_jobs 2
                  (sched.mkState three_jobs None 0 [] 0 0) _
                  [sched.Acquire; sched.Spawn; sched.Acquire; sched.Spawn]
                  eq_refl eq_refl)).
Defined.

End Scheduler.

Section ResumeUploadAllDone.
Import panfile uploader.

(** ** The uploader *)

Lemma make_copy_same (l : list string) : make_copy (List.length l) l = l.
Proof.
  unfold make_copy. rewrite firstn_all, Nat.sub_diag. simpl. apply app_nil_r.
Qed.



End ResumeUploadAllDone.

Section Binary64.

(** ** Binary64 arithmetic on integers below 2^53 *)

Lemma digits2_pos_size (p : positive) : digits2_pos p = Pos.size p.
Proof. induction p; simpl; congruence. Qed.

Lemma digits2_pos_bounds (p : positive) :
  2 ^ (Zpos (digits2_pos p) - 1) <= Zpos p < 2 ^ Zpos (digits2_pos p).
Proof.
  induction p as [p IH|p IH|]; simpl digits2_pos.
  - rewrite Pos2Z.inj_succ.
    replace (Z.succ (Zpos (digits2_pos p)) - 1) with (Zpos (digits2_pos p)) by lia.
    rewrite Z.pow_succ_r by lia.
    assert (Zpos (digits2_pos p) = Zpos (digits2_pos p) - 1 + 1) as Heq by lia.
    rewrite Heq at 1. rewrite Z.pow_add_r by lia. lia.
  - rewrite Pos2Z.inj_succ.
    replace (Z.succ (Zpos (digits2_pos p)) - 1) with (Zpos (digits2_pos p)) by lia.
    rewrite Z.pow_succ_r by lia.
    assert (Zpos (digits2_pos p) = Zpos (digits2_pos p) - 1 + 1) as Heq by lia.
    rewrite Heq at 1. rewrite Z.pow_add_r by lia. lia.
  - simpl. lia.
Qed.

Lemma digits2_pos_unique (p : positive) (d : Z) :
  2 ^ (d - 1) <= Zpos p < 2 ^ d -> Zpos (digits2_pos p) = d.
Proof.
  intros [Hlo Hhi]. pose proof (digits2_pos_bounds p) as [Hlo' Hhi'].
  assert (Hd : 0 < d).
  { destruct (Z_lt_le_dec 0 d) as [|Hle]; [assumption|].
    assert (2 ^ d <= 2 ^ 0) by (destruct (Z_lt_le_dec d 0);
      [rewrite Z.pow_neg_r by lia; simpl; lia | apply Z.pow_le_mono_r; lia]).
    simpl in *. lia. }
  destruct (Z_lt_le_dec (Zpos (digits2_pos p)) d) as [Hlt|Hge].
  - assert (2 ^ Zpos (digits2_pos p) <= 2 ^ (d - 1)) by (apply Z.pow_le_mono_r; lia).
    lia.
  - destruct (Z_lt_le_dec d (Zpos (digits2_pos p))) as [Hlt|Hle]; [|lia].
    assert (2 ^ d <= 2 ^ (Zpos (digits2_pos p) - 1)) by (apply Z.pow_le_mono_r; lia).
    lia.
Qed.

Lemma fexp64 (e : Z) : -1021 <= e -> fexp Float64.prec Float64.emax e = e - 53.
Proof. intros H. unfold fexp, emin, Float64.prec, Float64.emax. lia. Qed.

Lemma iter_xO (p d : positive) : Zpos (Pos.iter xO p d) = Zpos p * 2 ^ Zpos d.
Proof.
  pose proof (shift_pos_correct d p) as H. unfold shift_pos in H.
  rewrite H, Z.pow_pos_fold. lia.
Qed.

(** A mantissa of 53 bits is left as it is by the rounding. *)
Lemma binary_round_aux_exact (s : bool) (m : positive) (e : Z) :
  2 ^ 52 <= Zpos m < 2 ^ 53 -> -1074 <= e <= 971 ->
  binary_round_aux Float64.prec Float64.emax s (Zpos m) e loc_Exact
  = S754_finite s m e.
Proof.
  intros Hm He.
  assert (Hd : Zpos (digits2_pos m) = 53) by (apply digits2_pos_unique; exact Hm).
  unfold binary_round_aux, shr_fexp. simpl Zdigits2. rewrite Hd.
  rewrite fexp64 by lia. replace (53 + e - 53 - e) with 0 by lia.
  simpl. rewrite Hd. rewrite fexp64 by lia.
  replace (53 + e - 53 - e) with 0 by lia. simpl.
  unfold Float64.emax, Float64.prec.
  destruct (e <=? 1024 - 53) eqn:Hle; [reflexivity | lia].
Qed.

(** [float64(a)] for [0 < a < 2^53]: the 53-bit mantissa is [a] shifted
    to the left. *)
Lemma of_int64_normal (a : Z) :
  0 < a < 2 ^ 53 ->
  exists (m : positive) (e : Z),
    Float64.of_int64 a = S754_finite false m e
    /\ 2 ^ 52 <= Zpos m < 2 ^ 53 /\ -52 <= e <= 0
    /\ Zpos m = a * 2 ^ (- e).
Proof.
  intros Ha. destruct a as [|p|p]; try lia.
  unfold Float64.of_int64, binary_normalize, binary_round.
  pose proof (digits2_pos_bounds p) as Hp.
  set (d := Zpos (digits2_pos p)) in *.
  assert (Hd : 1 <= d <= 53).
  { split; [subst d; lia|].
    destruct (Z_lt_le_dec 53 d) as [Hlt|]; [|lia].
    assert (2 ^ 53 <= 2 ^ (d - 1)) by (apply Z.pow_le_mono_r; lia). lia. }
  rewrite Z.add_0_r, fexp64 by lia.
  unfold shl_align.
  destruct (d - 53 - 0) as [|k|k] eqn:Hk; try lia.
  - assert (d = 53) by lia.
    assert (Hrange : 2 ^ 52 <= Zpos p < 2 ^ 53).
    { split; [replace 52 with (d - 1) by lia | replace 53 with d by lia]; apply Hp. }
    exists p, 0. rewrite binary_round_aux_exact by (assumption || lia).
    split; [reflexivity|]. split; [exact Hrange|]. split; [lia|].
    simpl. lia.
  - assert (Hmk : Zpos (Pos.iter xO p k) = Zpos p * 2 ^ (53 - d)).
    { rewrite iter_xO. f_equal. f_equal. lia. }
    assert (Hrange : 2 ^ 52 <= Zpos (Pos.iter xO p k) < 2 ^ 53).
    { rewrite Hmk.
      replace (2 ^ 52) with (2 ^ (d - 1) * 2 ^ (53 - d))
        by (rewrite <- Z.pow_add_r by lia; f_equal; lia).
      replace (2 ^ 53) with (2 ^ d * 2 ^ (53 - d))
        by (rewrite <- Z.pow_add_r by lia; f_equal; lia).
      assert (0 < 2 ^ (53 - d)) by (apply Z.pow_pos_nonneg; lia).
      split; [apply Z.mul_le_mono_nonneg_r | apply Z.mul_lt_mono_pos_r]; lia. }
    exists (Pos.iter xO p k), (d - 53).
    rewrite binary_round_aux_exact by (assumption || lia).
    split; [reflexivity|]. split; [exact Hrange|]. split; [lia|].
    rewrite Hmk. f_equal. f_equal. lia.
Qed.

Lemma new_location_exact (nb k : Z) :
  new_location nb k = loc_Exact <-> k = 0.
Proof.
  unfold new_location, new_location_even, new_location_odd.
  destruct (Z.even nb); destruct (k =? 0) eqn:Hk;
    (split; [intros H; try discriminate; apply Z.eqb_eq in Hk; exact Hk
            | intros H; try reflexivity; apply Z.eqb_neq in Hk; contradiction]).
Qed.

(** The quotient and remainder that the division algorithm hands to the
    rounding, for two 53-bit mantissas. *)
Lemma SFdiv_core_normal (m1 m2 : positive) (e1 e2 : Z) :
  2 ^ 52 <= Zpos m1 < 2 ^ 53 -> 2 ^ 52 <= Zpos m2 < 2 ^ 53 ->
  -52 <= e1 <= 0 -> -52 <= e2 <= 0 ->
  SFdiv_core_binary Float64.prec Float64.emax (Zpos m1) e1 (Zpos m2) e2
  = ((Zpos m1 * 2 ^ 53) / Zpos m2, e1 - e2 - 53,
     new_location (Zpos m2) ((Zpos m1 * 2 ^ 53) mod Zpos m2)).
Proof.
  intros H1 H2 He1 He2.
  unfold SFdiv_core_binary. simpl Zdigits2.
  rewrite (digits2_pos_unique m1 53 H1), (digits2_pos_unique m2 53 H2).
  rewrite fexp64 by lia.
  replace (Z.min (53 + e1 - (53 + e2) - 53) (e1 - e2)) with (e1 - e2 - 53) by lia.
  replace (e1 - e2 - (e1 - e2 - 53)) with 53 by lia.
  rewrite Z.shiftl_mul_pow2 by lia.
  unfold Z.div, Z.modulo.
  destruct (Z.div_eucl (Zpos m1 * 2 ^ 53) (Zpos m2)) as [q r]. reflexivity.
Qed.

Lemma shr_fexp_53 (pq : positive) (e : Z) (l : location) :
  2 ^ 52 <= Zpos pq < 2 ^ 53 -> -1074 <= e ->
  shr_fexp Float64.prec Float64.emax (Zpos pq) e l
  = (shr_record_of_loc (Zpos pq) l, e).
Proof.
  intros Hq He. unfold shr_fexp. simpl Zdigits2.
  rewrite (digits2_pos_unique pq 53 Hq), fexp64 by lia.
  replace (53 + e - 53 - e) with 0 by lia. reflexivity.
Qed.

Lemma shr_fexp_54 (pq : positive) (e : Z) (l : location) :
  2 ^ 53 <= Zpos pq < 2 ^ 54 -> -1074 <= e ->
  shr_fexp Float64.prec Float64.emax (Zpos pq) e l
  = (shr_1 (shr_record_of_loc (Zpos pq) l), e + 1).
Proof.
  intros Hq He. unfold shr_fexp. simpl Zdigits2.
  rewrite (digits2_pos_unique pq 54 Hq), fexp64 by lia.
  replace (54 + e - 53 - e) with 1 by lia. reflexivity.
Qed.

Lemma binary_round_aux_finish (s : bool) (m e : Z) (l : location) :
  binary_round_aux Float64.prec Float64.emax s m e l
  = let '(mrs, e') := shr_fexp Float64.prec Float64.emax m e l in
    Float64.finish s (round_nearest_even (shr_m mrs) (loc_of_shr_record mrs)) e'.
Proof.
  unfold binary_round_aux, Float64.finish.
  destruct (shr_fexp Float64.prec Float64.emax m e l) as [mrs e']. reflexivity.
Qed.

Lemma finish_spec (s : bool) (q : Z) (e : Z) :
  2 ^ 52 <= q <= 2 ^ 53 -> -1074 <= e <= 900 ->
  exists (M : positive) (E : Z),
    Float64.finish s q e = S754_finite s M E
    /\ ((q < 2 ^ 53 /\ Zpos M = q /\ E = e)
        \/ (q = 2 ^ 53 /\ Zpos M = 2 ^ 52 /\ E = e + 1)).
Proof.
  intros Hq He. destruct q as [|pq|pq]; try lia.
  destruct (Z_lt_le_dec (Zpos pq) (2 ^ 53)) as [Hlt|Hge].
  - unfold Float64.finish. rewrite shr_fexp_53 by lia. simpl.
    unfold Float64.emax, Float64.prec.
    destruct (e <=? 1024 - 53) eqn:Hle; [|lia].
    exists pq, e. split; [reflexivity|]. left. lia.
  - assert (Heq : Zpos pq = 2 ^ 53) by lia.
    unfold Float64.finish. rewrite shr_fexp_54 by lia.
    injection Heq as ->. simpl.
    unfold Float64.emax, Float64.prec.
    destruct (e + 1 <=? 1024 - 53) eqn:Hle; [|lia].
    eexists _, _. split; [reflexivity|]. right. simpl. lia.
Qed.

Lemma shr_record_of_loc_m (m : Z) (l : location) : shr_m (shr_record_of_loc m l) = m.
Proof. destruct l as [|[]]; reflexivity. Qed.

Lemma loc_of_shr_record_of_loc (m : Z) (l : location) :
  loc_of_shr_record (shr_record_of_loc m l) = l.
Proof. destruct l as [|[]]; reflexivity. Qed.

Lemma round_nearest_even_cases (m : Z) (l : location) :
  round_nearest_even m l = m
  \/ (round_nearest_even m l = m + 1 /\ l <> loc_Exact).
Proof.
  destruct l as [|c]; [left; reflexivity|].
  destruct c; simpl.
  - destruct (Z.even m); [left; reflexivity | right; split; [reflexivity | discriminate]].
  - left; reflexivity.
  - right. split; [reflexivity | discriminate].
Qed.

(** One shift to the right: the mantissa is halved, its low bit becomes
    the round bit and the sticky bit records whether anything was lost
    before. *)
Lemma shr_1_of_loc (pq : positive) (l : location) :
  let mrs := shr_1 (shr_record_of_loc (Zpos pq) l) in
  shr_m mrs = Zpos pq / 2
  /\ shr_r mrs = Z.odd (Zpos pq)
  /\ (shr_s mrs = false <-> l = loc_Exact).
Proof.
  assert (Hdiv : forall p, Zpos p~0 / 2 = Zpos p /\ Zpos p~1 / 2 = Zpos p).
  { intros p. split.
    - rewrite Pos2Z.inj_xO, Z.mul_comm. apply Z.div_mul. lia.
    - rewrite Pos2Z.inj_xI. rewrite Z.mul_comm, Z.div_add_l by lia.
      reflexivity. }
  destruct l as [|[]]; destruct pq as [p|p|]; simpl;
    try (destruct (Hdiv p) as [H0 H1]);
    repeat split; try reflexivity; try assumption; try (symmetry; assumption);
    try discriminate; intros; try discriminate; try reflexivity.
Qed.

(** The rounding of a quotient [q] of 53 or 54 bits with the location [l]
    of the exact value above it: the mantissa [q'] before the last step
    and its exponent [eq]. *)
Lemma round_quotient (s : bool) (pq : positive) (e : Z) (l : location) :
  2 ^ 52 <= Zpos pq < 2 ^ 54 -> -1000 <= e <= 800 ->
  exists (M : positive) (E q' eq : Z),
    binary_round_aux Float64.prec Float64.emax s (Zpos pq) e l = S754_finite s M E
    /\ ((q' < 2 ^ 53 /\ Zpos M = q' /\ E = eq)
        \/ (q' = 2 ^ 53 /\ Zpos M = 2 ^ 52 /\ E = eq + 1))
    /\ ((Zpos pq < 2 ^ 53 /\ eq = e
         /\ (q' = Zpos pq \/ (q' = Zpos pq + 1 /\ l <> loc_Exact)))
        \/ (2 ^ 53 <= Zpos pq /\ eq = e + 1
            /\ ((Z.odd (Zpos pq) = false /\ q' = Zpos pq / 2)
                \/ (Z.odd (Zpos pq) = true /\ l = loc_Exact
                    /\ (q' = Zpos pq / 2 \/ q' = Zpos pq / 2 + 1))
                \/ (Z.odd (Zpos pq) = true /\ l <> loc_Exact
                    /\ q' = Zpos pq / 2 + 1)))).
Proof.
  intros Hq He. rewrite binary_round_aux_finish.
  destruct (Z_lt_le_dec (Zpos pq) (2 ^ 53)) as [Hlt|Hge].
  - rewrite shr_fexp_53 by lia.
    rewrite shr_record_of_loc_m, loc_of_shr_record_of_loc.
    destruct (round_nearest_even_cases (Zpos pq) l) as [Hr|[Hr Hl]].
    + destruct (finish_spec s (round_nearest_even (Zpos pq) l) e
                  ltac:(lia) ltac:(lia)) as [M [E [Hf Hval]]].
      exists M, E, (round_nearest_even (Zpos pq) l), e.
      split; [exact Hf|]. split; [exact Hval|]. left. rewrite Hr. auto.
    + destruct (finish_spec s (round_nearest_even (Zpos pq) l) e
                  ltac:(lia) ltac:(lia)) as [M [E [Hf Hval]]].
      exists M, E, (round_nearest_even (Zpos pq) l), e.
      split; [exact Hf|]. split; [exact Hval|]. left. rewrite Hr. auto.
  - rewrite shr_fexp_54 by lia.
    destruct (shr_1_of_loc pq l) as [Hm [Hrb Hst]].
    destruct (shr_1 (shr_record_of_loc (Zpos pq) l)) as [m rb st].
    cbn [shr_m shr_r shr_s] in Hm, Hrb, Hst. subst m.
    assert (Hhalf : 2 ^ 52 <= Zpos pq / 2 < 2 ^ 53).
    { split; [apply Z.div_le_lower_bound | apply Z.div_lt_upper_bound]; lia. }
    assert (Hcases :
      (Z.odd (Zpos pq) = false
       /\ round_nearest_even (Zpos pq / 2)
            (loc_of_shr_record (Build_shr_record (Zpos pq / 2) rb st)) = Zpos pq / 2)
      \/ (Z.odd (Zpos pq) = true /\ l = loc_Exact
          /\ (round_nearest_even (Zpos pq / 2)
                (loc_of_shr_record (Build_shr_record (Zpos pq / 2) rb st)) = Zpos pq / 2
              \/ round_nearest_even (Zpos pq / 2)
                   (loc_of_shr_record (Build_shr_record (Zpos pq / 2) rb st))
                 = Zpos pq / 2 + 1))
      \/ (Z.odd (Zpos pq) = true /\ l <> loc_Exact
          /\ round_nearest_even (Zpos pq / 2)
               (loc_of_shr_record (Build_shr_record (Zpos pq / 2) rb st))
             = Zpos pq / 2 + 1)).
    { rewrite <- Hrb. destruct rb, st; cbn [loc_of_shr_record round_nearest_even].
      - right; right. split; [reflexivity|]. split; [|reflexivity].
        intros Hl. apply Hst in Hl. discriminate.
      - right; left. split; [reflexivity|]. split; [apply Hst; reflexivity|].
        destruct (Z.even (Zpos pq / 2)); auto.
      - left. auto.
      - left. auto. }
    cbn [shr_m].
    set (q' := round_nearest_even (Zpos pq / 2)
                 (loc_of_shr_record (Build_shr_record (Zpos pq / 2) rb st))) in *.
    assert (Hq' : 2 ^ 52 <= q' <= 2 ^ 53)
      by (destruct Hcases as [[_ ->]|[[_ [_ [->| ->]]]|[_ [_ ->]]]]; lia).
    destruct (finish_spec s q' (e + 1) Hq' ltac:(lia)) as [M [E [Hf Hval]]].
    exists M, E, q', (e + 1).
    split; [exact Hf|]. split; [exact Hval|]. right.
    split; [lia|]. split; [reflexivity|]. exact Hcases.
Qed.

(** ** Ceilings of quotients *)


Lemma ceil_quot_succ (x y : Z) :
  0 < y -> Float64.ceil_quot (x + 1) y = x / y + 1.
Proof.
  intros Hy. unfold Float64.ceil_quot.
  pose proof (Z.div_mod x y ltac:(lia)) as Hx.
  pose proof (Z.mod_pos_bound x y Hy) as Hr.
  assert (H : (- (x + 1)) / y = - (x / y) - 1).
  { symmetry. apply (Z.div_unique_pos _ _ _ (y - x mod y - 1)); lia. }
  lia.
Qed.

Lemma ceil_quot_not_divides (x y : Z) :
  0 < y -> ~ (y | x) -> Float64.ceil_quot x y = x / y + 1.
Proof.
  intros Hy Hnd.
  replace x with ((x - 1) + 1) at 1 by lia. rewrite ceil_quot_succ by lia.
  f_equal.
  pose proof (Z.div_mod x y ltac:(lia)) as Hx.
  pose proof (Z.mod_pos_bound x y Hy) as Hr.
  assert (x mod y <> 0).
  { intros H0. apply Hnd. exists (x / y). lia. }
  symmetry. apply (Z.div_unique_pos _ _ _ (x mod y - 1)); lia.
Qed.

Lemma ceil_quot_cancel (x y c : Z) :
  0 < y -> 0 < c -> Float64.ceil_quot (x * c) (y * c) = Float64.ceil_quot x y.
Proof.
  intros Hy Hc. unfold Float64.ceil_quot.
  rewrite <- Z.mul_opp_l, Z.div_mul_cancel_r by lia. reflexivity.
Qed.

Lemma ceil_quot_one (x : Z) : Float64.ceil_quot x 1 = x.
Proof. unfold Float64.ceil_quot. rewrite Z.div_1_r. lia. Qed.

(** The rounded quotient has the ceiling of the exact one. [a * K] is the
    dividend [q * B + r] and [b * K] the divisor [B * t], both scaled by a
    power [K] of two that exceeds [B]. *)
Section Rounded.
Variables a b K B t q r : Z.
Hypothesis Ha : 0 < a.
Hypothesis Hb : 0 < b.
Hypothesis HB : 0 < B < K.
Hypothesis Ht : 0 < t.
Hypothesis HbK : B * t = b * K.
Hypothesis HaK : a * K = q * B + r.
Hypothesis Hr : 0 <= r < B.

Lemma exact_ceiling :
  Float64.ceil_quot a b = if r =? 0 then Float64.ceil_quot q t else q / t + 1.
Proof using All.
  rewrite <- (ceil_quot_cancel a b K) by lia.
  rewrite <- HbK, HaK.
  destruct (r =? 0) eqn:H0.
  - apply Z.eqb_eq in H0. rewrite H0, Z.add_0_r.
    rewrite (Z.mul_comm B t). apply ceil_quot_cancel; lia.
  - apply Z.eqb_neq in H0.
    rewrite ceil_quot_not_divides.
    + f_equal. rewrite <- Z.div_div by lia. f_equal.
      symmetry. apply (Z.div_unique_pos _ _ _ r); lia.
    + nia.
    + intros [k Hk].
      assert (Hmod : (q * B + r) mod B = r).
      { symmetry. apply (Z.mod_unique_pos _ _ q); lia. }
      assert (Hmod0 : (q * B + r) mod B = 0).
      { rewrite Hk. replace (k * (B * t)) with (k * t * B) by lia.
        apply Z.mod_mul. lia. }
      lia.
Qed.

Lemma no_multiple_inexact : r <> 0 -> ~ (t | q).
Proof using All.
  intros H0 [n Hn].
  assert (HqB : q * B = n * (b * K)) by (rewrite Hn, <- HbK; ring).
  assert (HKr : r = K * (a - n * b)).
  { replace (K * (a - n * b)) with (a * K - n * (b * K)) by ring. lia. }
  assert (0 < a - n * b) by nia.
  nia.
Qed.

Lemma rounded_down : Float64.ceil_quot q t = Float64.ceil_quot a b.
Proof using All.
  rewrite exact_ceiling. destruct (r =? 0) eqn:H0; [reflexivity|].
  apply Z.eqb_neq in H0.
  apply ceil_quot_not_divides; [lia | apply no_multiple_inexact, H0].
Qed.

Lemma rounded_up : r <> 0 -> Float64.ceil_quot (q + 1) t = Float64.ceil_quot a b.
Proof using All.
  intros H0. rewrite exact_ceiling. apply Z.eqb_neq in H0. rewrite H0.
  apply ceil_quot_succ. lia.
Qed.

Lemma rounded_half_even (t' : Z) :
  t = 2 * t' -> Z.odd q = false ->
  Float64.ceil_quot (q / 2) t' = Float64.ceil_quot a b.
Proof using All.
  intros Ht' Hodd. rewrite <- rounded_down.
  assert (Hq : q = q / 2 * 2).
  { pose proof (Zdiv2_odd_eqn q) as H. rewrite Hodd, Z.div2_div in H. lia. }
  rewrite Hq at 2. rewrite Ht', (Z.mul_comm 2 t').
  symmetry. apply ceil_quot_cancel; lia.
Qed.

Lemma half_of_odd (t' : Z) :
  0 < t' -> Z.odd q = true -> q / (2 * t') = q / 2 / t' /\ q = 2 * (q / 2) + 1.
Proof using All.
  intros Ht' Hodd. split.
  - rewrite Z.div_div by lia. reflexivity.
  - pose proof (Zdiv2_odd_eqn q) as H. rewrite Hodd, Z.div2_div in H. exact H.
Qed.

Lemma rounded_half_tie (t' : Z) :
  t = 2 * t' -> Z.odd q = true -> r = 0 ->
  Float64.ceil_quot (q / 2) t' = Float64.ceil_quot a b
  /\ Float64.ceil_quot (q / 2 + 1) t' = Float64.ceil_quot a b.
Proof using All.
  intros Ht' Hodd H0.
  destruct (half_of_odd t' ltac:(lia) Hodd) as [Hdiv Hq].
  assert (Hc : Float64.ceil_quot a b = q / 2 / t' + 1).
  { rewrite exact_ceiling. rewrite H0. simpl.
    rewrite ceil_quot_not_divides; [rewrite Ht', Hdiv; reflexivity | lia |].
    intros [n Hn]. lia. }
  rewrite Hc. split.
  - apply ceil_quot_not_divides; [lia|].
    intros [n Hn].
    assert (HqB : q * B = n * (b * K) + B).
    { rewrite Hq at 1. rewrite Hn, <- HbK, Ht'. ring. }
    assert (HKB : B = K * (a - n * b)).
    { replace (K * (a - n * b)) with (a * K - n * (b * K)) by ring. lia. }
    assert (0 < a - n * b) by nia.
    nia.
  - apply ceil_quot_succ. lia.
Qed.

Lemma rounded_half_up (t' : Z) :
  t = 2 * t' -> Z.odd q = true -> r <> 0 ->
  Float64.ceil_quot (q / 2 + 1) t' = Float64.ceil_quot a b.
Proof using All.
  intros Ht' Hodd H0.
  destruct (half_of_odd t' ltac:(lia) Hodd) as [Hdiv Hq].
  rewrite exact_ceiling. apply Z.eqb_neq in H0. rewrite H0.
  rewrite Ht', Hdiv. apply ceil_quot_succ. lia.
Qed.

End Rounded.

Lemma ceil_pos_nonpos (M : positive) (E : Z) :
  E <= 0 -> Float64.ceil_pos M E = Float64.ceil_quot (Zpos M) (2 ^ (- E)).
Proof.
  intros HE. destruct E as [|k|k]; try lia; simpl Float64.ceil_pos.
  - simpl. rewrite ceil_quot_one. lia.
  - reflexivity.
Qed.

Lemma floor_pos_nonpos (M : positive) (E : Z) :
  E <= 0 -> Float64.floor_pos M E = Zpos M / 2 ^ (- E).
Proof.
  intros HE. destruct E as [|k|k]; try lia; simpl Float64.floor_pos.
  - simpl. rewrite Z.div_1_r. lia.
  - reflexivity.
Qed.

Lemma ceil_quot_bounds (a b : Z) :
  0 < a -> 0 < b -> 0 < Float64.ceil_quot a b <= a.
Proof.
  intros Ha Hb. replace a with ((a - 1) + 1) at 1 2 by lia.
  rewrite ceil_quot_succ by lia.
  pose proof (Z.div_pos (a - 1) b ltac:(lia) Hb).
  pose proof (Z.div_le_upper_bound (a - 1) b (a - 1) Hb ltac:(nia)).
  lia.
Qed.

(** The quotient of the floats of two integers below [2^53] has the
    ceiling of the quotient of the integers. *)
Lemma div_normal_ceil (m1 m2 : positive) (e1 e2 a b : Z) :
  0 < a -> 0 < b ->
  2 ^ 52 <= Zpos m1 < 2 ^ 53 -> 2 ^ 52 <= Zpos m2 < 2 ^ 53 ->
  -52 <= e1 <= 0 -> -52 <= e2 <= 0 ->
  Zpos m1 = a * 2 ^ (- e1) -> Zpos m2 = b * 2 ^ (- e2) ->
  exists (M : positive) (E : Z),
    Float64.div (S754_finite false m1 e1) (S754_finite false m2 e2)
    = S754_finite false M E
    /\ Float64.ceil_pos M E = Float64.ceil_quot a b
    /\ E <= 1.
Proof.
  intros Ha Hb H1 H2 He1 He2 Hm1 Hm2.
  unfold Float64.div, SFdiv. rewrite SFdiv_core_normal by assumption.
  simpl xorb.
  set (A := Zpos m1 * 2 ^ 53). set (B := Zpos m2).
  set (q := A / B). set (r := A mod B).
  assert (HB : 0 < B) by (subst B; lia).
  assert (Hdm : A = B * q + r) by (apply Z.div_mod; lia).
  assert (Hr : 0 <= r < B) by (apply Z.mod_pos_bound; lia).
  assert (Hq : 2 ^ 52 <= q < 2 ^ 54).
  { split.
    - apply Z.div_le_lower_bound; [lia|]. subst A B. nia.
    - apply Z.div_lt_upper_bound; [lia|]. subst A B. nia. }
  destruct q as [|pq|pq] eqn:Hqeq; try lia.
  destruct (round_quotient false pq (e1 - e2 - 53) (new_location B r) Hq ltac:(lia))
    as [M [E [q' [eq [Hres [Hfin Hround]]]]]].
  exists M, E. split; [exact Hres|].
  set (K := 2 ^ (53 - e1)). set (t := 2 ^ (53 - e1 + e2)).
  assert (HK : 2 ^ 53 <= K) by (subst K; apply Z.pow_le_mono_r; lia).
  assert (Ht : 0 < t) by (subst t; apply Z.pow_pos_nonneg; lia).
  assert (HbK : B * t = b * K).
  { subst B t K. rewrite Hm2, <- Z.mul_assoc, <- Z.pow_add_r by lia.
    f_equal. f_equal. lia. }
  assert (HaK : a * K = Zpos pq * B + r).
  { rewrite (Z.mul_comm (Zpos pq)), <- Hdm. subst A K.
    rewrite Hm1, <- Z.mul_assoc, <- Z.pow_add_r by lia. f_equal. f_equal. lia. }
  assert (HBK : 0 < B < K) by (subst B; lia).
  assert (Hloc : new_location B r = loc_Exact <-> r = 0) by apply new_location_exact.
  assert (Hceil : eq <= 0
                  /\ Float64.ceil_quot q' (2 ^ (- eq)) = Float64.ceil_quot a b).
  { destruct Hround as [[Hlt [-> Hq']] | [Hge [-> Hq']]].
    - split; [lia|]. replace (- (e1 - e2 - 53)) with (53 - e1 + e2) by lia. fold t.
      destruct Hq' as [-> | [-> Hl]].
      + apply (rounded_down a b K B t (Zpos pq) r); assumption.
      + apply (rounded_up a b K B t (Zpos pq) r); try assumption.
        intros H0. apply Hl, Hloc, H0.
    - split; [lia|].
      replace (- (e1 - e2 - 53 + 1)) with (53 - e1 + e2 - 1) by lia.
      set (t' := 2 ^ (53 - e1 + e2 - 1)).
      assert (Ht' : t = 2 * t').
      { subst t t'. rewrite <- Z.pow_succ_r by lia. f_equal. lia. }
      destruct Hq' as [[Hodd ->] | [[Hodd [Hl Hq']] | [Hodd [Hl ->]]]].
      + apply (rounded_half_even a b K B t (Zpos pq) r); assumption.
      + apply Hloc in Hl.
        destruct (rounded_half_tie a b K B t (Zpos pq) r Ha Hb HBK Ht HbK HaK Hr
                    t' Ht' Hodd Hl) as [Hdown Hup].
        destruct Hq' as [-> | ->]; assumption.
      + apply (rounded_half_up a b K B t (Zpos pq) r); try assumption.
        intros H0. apply Hl, Hloc, H0. }
  destruct Hceil as [Heq Hceil]. rewrite <- Hceil.
  destruct Hfin as [[Hlt [HM ->]] | [Hq' [HM ->]]].
  - split; [|lia]. rewrite ceil_pos_nonpos by lia. rewrite HM. reflexivity.
  - split; [|lia]. rewrite Hq'.
    destruct (Z.eq_dec eq 0) as [-> | Hne].
    + simpl Float64.ceil_pos. rewrite HM. simpl. rewrite ceil_quot_one. lia.
    + rewrite ceil_pos_nonpos by lia. rewrite HM.
      replace (2 ^ 53) with (2 ^ 52 * 2) by lia.
      replace (2 ^ (- eq)) with (2 ^ (- (eq + 1)) * 2)
        by (rewrite Z.mul_comm, <- Z.pow_succ_r by lia; f_equal; lia).
      symmetry. apply ceil_quot_cancel; [apply Z.pow_pos_nonneg|]; lia.
Qed.

Lemma to_int_of_int64 (pf : Float64.Platform) (c : Z) :
  0 < c < 2 ^ 53 -> Float64.to_int pf (Float64.of_int64 c) = c.
Proof.
  intros Hc. destruct (of_int64_normal c Hc) as [m [e [Heq [Hm [He Hval]]]]].
  rewrite Heq. unfold Float64.to_int.
  rewrite floor_pos_nonpos by lia. rewrite Hval, Z.div_mul
    by (apply Z.pow_nonzero; lia).
  unfold Int64.min_int, Int64.max_int.
  destruct ((- 2 ^ 63 <=? c) && (c <=? 2 ^ 63 - 1)) eqn:Hr; [reflexivity|].
  apply andb_false_iff in Hr. destruct Hr as [Hr|Hr];
    [apply Z.leb_gt in Hr | apply Z.leb_gt in Hr]; lia.
Qed.

Lemma to_int_Ceil (pf : Float64.Platform) (M : positive) (E c : Z) :
  Float64.ceil_pos M E = c -> 0 < c < 2 ^ 53 ->
  Float64.to_int pf (Float64.Ceil (S754_finite false M E)) = c.
Proof.
  intros Hceil Hc. unfold Float64.Ceil.
  destruct E as [|k|k].
  - unfold Float64.to_int. simpl in Hceil. simpl Float64.floor_pos.
    replace (Zpos M * 2 ^ 0) with c by (simpl; lia).
    unfold Int64.min_int, Int64.max_int.
    destruct ((- 2 ^ 63 <=? c) && (c <=? 2 ^ 63 - 1)) eqn:Hr; [reflexivity|].
    apply andb_false_iff in Hr. destruct Hr as [Hr|Hr];
      [apply Z.leb_gt in Hr | apply Z.leb_gt in Hr]; lia.
  - unfold Float64.to_int. simpl in Hceil. simpl Float64.floor_pos.
    rewrite Hceil.
    unfold Int64.min_int, Int64.max_int.
    destruct ((- 2 ^ 63 <=? c) && (c <=? 2 ^ 63 - 1)) eqn:Hr; [reflexivity|].
    apply andb_false_iff in Hr. destruct Hr as [Hr|Hr];
      [apply Z.leb_gt in Hr | apply Z.leb_gt in Hr]; lia.
  - rewrite Hceil. apply to_int_of_int64, Hc.
Qed.

(** The float idiom for the ceiling is exact on sizes below [2^53]. *)
Lemma ceil_div_exact (pf : Float64.Platform) (a b : Z) :
  0 <= a < 2 ^ 53 -> 0 < b < 2 ^ 53 ->
  Float64.ceil_div pf a b = Float64.ceil_quot a b.
Proof.
  intros Ha Hb. unfold Float64.ceil_div.
  destruct (of_int64_normal b Hb) as [m2 [e2 [Heq2 [Hm2 [He2 Hval2]]]]].
  rewrite Heq2.
  destruct (Z.eq_dec a 0) as [-> | Hne].
  - reflexivity.
  - destruct (of_int64_normal a ltac:(lia)) as [m1 [e1 [Heq1 [Hm1 [He1 Hval1]]]]].
    rewrite Heq1.
    destruct (div_normal_ceil m1 m2 e1 e2 a b ltac:(lia) ltac:(lia)
                Hm1 Hm2 He1 He2 Hval1 Hval2) as [M [E [Hdiv [Hceil HE]]]].
    rewrite Hdiv. apply to_int_Ceil; [exact Hceil|].
    pose proof (ceil_quot_bounds a b ltac:(lia) ltac:(lia)). lia.
Qed.

End Binary64.

Section TotalPart.
Import utilfile.

(** C7, as the code has it. With no preset part count, and for a file
    size and a part size below [2^53] (the part size positive), the
    planned number of parts is the ceiling of [file_size / part_size],
    capped at 100. *)
Theorem download_total_part_capped_ceiling :
  forall (pf : Float64.Platform) (d : Downloader),
    TotalPart d = 0 ->
    0 <= FileSize d < 2 ^ 53 ->
    0 < PartSize d < 2 ^ 53 ->
    planTotalPart pf d
    = Ret (Z.min (Float64.ceil_quot (FileSize d) (PartSize d)) 100).
Proof.
  intros pf d H0 HF HP. unfold planTotalPart, obind, maxTotalPart.
  rewrite H0. simpl. rewrite ceil_div_exact by assumption.
  destruct (Float64.ceil_quot (FileSize d) (PartSize d) >? 100) eqn:Hgt;
    f_equal; lia.
Qed.

Lemma download_total_part_capped_ceiling_witness :
  planTotalPart Float64.amd64 d_100MiB
  = Ret (Z.min (Float64.ceil_quot 104857600 10485760) 100).
Proof.
  apply (download_total_part_capped_ceiling Float64.amd64 d_100MiB).
  - reflexivity.
  - simpl. lia.
  - simpl. lia.
Defined.

(** C7 does not hold for every file size: [float64(2^53 + 1)] is [2^53],
    so the quotient is 1 and one part is planned where the ceiling is 2. *)
Lemma download_total_part_counterexample :
  TotalPart d_9PB = 0
  /\ planTotalPart Float64.amd64 d_9PB = Ret 1
  /\ Z.min (Float64.ceil_quot (FileSize d_9PB) (PartSize d_9PB)) 100 = 2.
Proof. repeat split; vm_compute; reflexivity. Qed.

End TotalPart.

Section UploadScenarios.
Import panfile uploader.

(** Once the file information has been read from an openable file, every
    later call returns it again and changes nothing. *)
Lemma GetFileInfo_read (env : Env) (content : list Byte.byte) (u : Uploader)
    (tr : list Request) :
  env_file env = Some content ->
  FileInfo u = zero_LocalFileInfo \/
  FileInfo u = mkLocalFileInfo (env_md5 env content)
                 (Z.of_nat (List.length content)) (env_mtime env) ->
  let info := mkLocalFileInfo (env_md5 env content)
                (Z.of_nat (List.length content)) (env_mtime env) in
  GetFileInfo env false u tr
  = Ret ((info, None),
         mkUploader (AccessToken u) (Path u) (LocalFilePath u) info (SliceSize u),
         tr).
Proof.
  intros Hfile Hu info. unfold GetFileInfo, mbind, receiver, set_receiver, mret.
  destruct Hu as [Hu | Hu]; rewrite Hu; simpl.
  - rewrite Hfile. reflexivity.
  - destruct (negb (String.eqb (env_md5 env content) EmptyString)) eqn:Hc.
    + subst info. destruct u. simpl in *. subst. reflexivity.
    + rewrite Hfile. reflexivity.
Qed.

Lemma ceil_div_zero (pf : Float64.Platform) (s : Z) :
  0 < s < 2 ^ 53 -> Float64.ceil_div pf 0 s = 0.
Proof. intros Hs. rewrite ceil_div_exact by lia. reflexivity. Qed.

Ltac mplumb :=
  cbv beta iota delta [mbind mret receiver set_receiver emit issued lift fst snd].

(** An empty file whose slice size the caller has set: one precreate, no
    slice upload, one commit, and success. *)
Lemma upload_empty_file_preset_slice_size (pf : Float64.Platform) (env : Env)
    (u : Uploader) (tr0 : list Request) :
  env_file env = Some [] ->
  FileInfo u = zero_LocalFileInfo ->
  0 < SliceSize u < 2 ^ 53 ->
  env_ctx_hash env 0%nat = None ->
  (forall req, exists ret, env_precreate env req = inr ret
                 /\ pc_ErrorCode ret = 0 /\ ReturnType ret <> 2) ->
  (forall req, exists ret, env_create env req = inr ret /\ ur_ErrorCode ret = 0) ->
  exists r snapshot u' md5 uploadid,
    Upload pf env u tr0
    = Ret ((r, snapshot, None), u',
           tr0 ++ [ReqPreCreate (Path u) 0 [] md5 md5;
                   ReqCreate (Path u) uploadid [] 0])
    /\ Recoverable snapshot = false.
Proof.
  intros Hfile Hu Hs Hctx Hpre Hcreate.
  pose (info := mkLocalFileInfo (env_md5 env []) 0 (env_mtime env)).
  pose (u1 := mkUploader (AccessToken u) (Path u) (LocalFilePath u) info (SliceSize u)).
  assert (Hread0 : forall tr, GetFileInfo env false u tr = Ret ((info, None), u1, tr)).
  { intros tr. apply (GetFileInfo_read env [] u tr Hfile). left. exact Hu. }
  assert (Hread1 : forall tr, GetFileInfo env false u1 tr = Ret ((info, None), u1, tr)).
  { intros tr. apply (GetFileInfo_read env [] u1 tr Hfile). right. reflexivity. }
  assert (Hslice : forall fileSize tr,
             GetSliceSize env fileSize u1 tr = Ret ((SliceSize u, None), u1, tr)).
  { intros fileSize tr. unfold GetSliceSize. mplumb. simpl.
    destruct (SliceSize u >? 0) eqn:Hgt; [reflexivity | lia]. }
  assert (HPre : exists ret,
             PreCreate env u tr0
             = Ret ((ret, None), u1,
                    tr0 ++ [ReqPreCreate (Path u) 0 [] (env_md5 env []) (env_md5 env [])])
             /\ pc_ErrorCode ret = 0 /\ ReturnType ret <> 2).
  { destruct (Hpre (ReqPreCreate (Path u) 0 [] (env_md5 env []) (env_md5 env [])))
      as [ret [Hret [Hcode Hrt]]].
    exists ret. split; [|split; assumption].
    unfold PreCreate, getSliceMd5, getBlockList. mplumb.
    rewrite Hread0. mplumb. rewrite Hread1. mplumb.
    change (Size info <=? 262144) with true. mplumb.
    rewrite Hread1. mplumb. rewrite Hslice. mplumb.
    change (Size info) with 0.
    destruct (SliceSize u =? 0) eqn:H0; [lia|].
    destruct (SliceSize u <? 0) eqn:Hneg; [lia|].
    rewrite Hfile. mplumb.
    cbn [blockList_loop List.length].
    rewrite Hctx, firstn_nil. mplumb.
    change (Md5 info) with (env_md5 env []). change (Path u1) with (Path u).
    rewrite Hret, Hcode. reflexivity. }
  destruct HPre as [ret [HPre [Hcode Hrt]]].
  destruct (Hcreate (ReqCreate (Path u) (UploadID ret) [] 0)) as [cr [Hcr Hcc]].
  eexists _, _, _, _, _. split.
  - unfold Upload, Create. mplumb. rewrite HPre. mplumb.
    destruct (ReturnType ret =? 2) eqn:Hrt2; [lia|].
    rewrite Hread1. mplumb. rewrite Hslice. mplumb.
    change (Size info) with 0. rewrite ceil_div_zero by lia. rewrite Hfile.
    change (0 <? 0) with false. change (Z.to_nat 0) with 0%nat.
    do 3 (mplumb; cbn [Upload_loop repeat Upload_collect c_uploadErr c_blockList c_ret
                         c_DoneSize c_DoneSlices]).
    rewrite Hread1. mplumb.
    change (Path u1) with (Path u). change (Size info) with 0.
    rewrite Hcr, Hcc. cbn [negb Z.eqb].
    rewrite <- app_assoc. reflexivity.
  - reflexivity.
Qed.

(** C2. An empty file with the slice size left to [GetSliceSize]: the
    slice size is clamped to the file size, zero; the slice count is the
    conversion of [0.0 / 0.0], a NaN, to [int], whose value the language
    leaves to the implementation. On amd64 it is the least [int64], and
    [make] panics on the channel of that capacity, after the precreate
    request and before any commit; where the conversion yields zero the
    upload goes through. *)
Theorem upload_empty_file_slice_count :
  Float64.div (Float64.of_int64 0) (Float64.of_int64 0) = S754_nan
  /\ (forall pf, Float64.ceil_div pf 0 0 = Float64.conv_invalid pf S754_nan)
  /\ Upload Float64.amd64 (accepting_world [] 0) empty_file_uploader []
     = Panic "makechan: size out of range"
  /\ (exists r u',
        Upload Float64.arm64 (accepting_world [] 0) empty_file_uploader []
        = Ret (r, u',
               [ReqUserInfo;
                ReqPreCreate "/apps/pan/empty.bin" 0
                  ["d41d8cd98f00b204e9800998ecf8427e"%string]
                  "d41d8cd98f00b204e9800998ecf8427e"
                  "d41d8cd98f00b204e9800998ecf8427e";
                ReqUserInfo;
                ReqCreate "/apps/pan/empty.bin" "N1-upload" [] 0])).
Proof.
  split; [reflexivity|]. split; [intros pf; reflexivity|].
  split; [vm_compute; reflexivity|].
  eexists _, _. vm_compute. reflexivity.
Qed.

(** A string in which the first byte of [old] does not occur has no
    occurrence of [old] to replace. *)
Lemma Replace_absent_head (c : ascii) (old new s : string) :
  ~ In c (list_ascii_of_string s) ->
  Replace s (String c old) new = s.
Proof.
  unfold Replace. induction s as [|d s IH]; intros Hnot; simpl; [reflexivity|].
  destruct (ascii_dec c d) as [Heq|Hne].
  - exfalso. apply Hnot. simpl. left. symmetry. exact Heq.
  - f_equal. apply IH. intros Hin. apply Hnot. simpl. right. exact Hin.
Qed.

(** A path that holds no backslash and none of the ten single bytes of
    the list comes back as it went in, whatever else it holds: NUL and
    vertical tab are not among the first bytes of any entry. *)
Lemma handleSpecialChar_untouched (path : string) :
  (forall c, In c (list_ascii_of_string path) -> ~ In c special_heads) ->
  handleSpecialChar path = path.
Proof.
  intros Hfree. unfold handleSpecialChar, specialChars.
  assert (Hstep : forall c old, In c special_heads ->
                    Replace path (String c old) EmptyString = path).
  { intros c old Hc. apply Replace_absent_head.
    intros Hin. exact (Hfree c Hin Hc). }
  cbn [fold_left].
  repeat (rewrite Hstep by (unfold special_heads; simpl; tauto)).
  reflexivity.
Qed.

(** C4. What [handleSpecialChar] leaves in a path: a backslash on its
    own, a NUL byte and a vertical tab all stay, since the list holds the
    two-byte sequence of two backslashes and the spelled-out escapes
    [\0] and [\x0B] in their place; those sequences are what is removed,
    digits and letters included. *)
Theorem handleSpecialChar_keeps_backslash_nul_vt :
  Path (NewUploader "token" (String "a" (String backslash "b")) "f")
  = String "a" (String backslash "b")
  /\ handleSpecialChar (String "a" (String (ascii_of_nat 0) "b"))
     = String "a" (String (ascii_of_nat 0) "b")
  /\ handleSpecialChar (String "a" (String (ascii_of_nat 11) "b"))
     = String "a" (String (ascii_of_nat 11) "b")
  /\ handleSpecialChar (String "a" (String backslash "0b")) = "ab"%string
  /\ handleSpecialChar (String "a" (String backslash "x0Bb")) = "ab"%string
  /\ handleSpecialChar "a?b|c>d<e:f*g"%string = "abcdefg"%string.
Proof. repeat split; vm_compute; reflexivity. Qed.



End UploadScenarios.

(** ** More on the validation pass of [ResumeDownload] *)

Section ResumeValidationMore.
Import utilfile snapshots.

Lemma recorded_cons (p : DownloadPartSnapshot) (rest : list DownloadPartSnapshot) :
  recorded (p :: rest)
  = (if String.eqb (dps_FilePath p) EmptyString then 0
     else dps_To p - dps_From p + 1) + recorded rest.
Proof. reflexivity. Qed.

Lemma unreadable_cons (stat : string -> StatResult) (p : DownloadPartSnapshot)
    (rest : list DownloadPartSnapshot) :
  unreadable stat (p :: rest)
  = (if negb (String.eqb (dps_FilePath p) EmptyString)
        && match stat (dps_FilePath p) with StatOtherError => true | _ => false end
     then [dps_FilePath p] else [])
    ++ unreadable stat rest.
Proof.
  unfold unreadable. simpl.
  destruct (negb (String.eqb (dps_FilePath p) EmptyString)
            && match stat (dps_FilePath p) with StatOtherError => true | _ => false end);
    reflexivity.
Qed.

(** The pass, in closed form. *)
Lemma validate_loop_spec (stat : string -> StatResult) :
  forall parts doneSize delFiles,
    let r := validate_loop stat parts doneSize delFiles in
    fst (fst r) = map (validated stat) parts
    /\ snd r = delFiles ++ unreadable stat parts
    /\ Int64.wrap64 (snd (fst r))
       = Int64.wrap64 (doneSize + recorded (map (validated stat) parts)
                       - recorded parts)
    /\ (Int64.in_range doneSize -> Int64.in_range (snd (fst r))).
Proof.
  induction parts as [|part rest IH]; intros doneSize delFiles.
  - simpl. unfold unreadable, recorded. simpl. rewrite app_nil_r.
    refine (conj eq_refl (conj eq_refl (conj _ (fun H => H)))). f_equal; lia.
  - cbn [validate_loop map]. rewrite !recorded_cons, unreadable_cons.
    unfold validated at 1 2 3 4 5.
    destruct (String.eqb (dps_FilePath part) EmptyString) eqn:Hemp.
    + specialize (IH doneSize delFiles).
      destruct (validate_loop stat rest doneSize delFiles) as [[ps ds] dl].
      cbn [fst snd negb andb app] in *. destruct IH as (-> & -> & IH & Hr).
      rewrite Hemp.
      refine (conj eq_refl (conj eq_refl (conj _ Hr))). rewrite IH. f_equal; lia.
    + destruct (stat (dps_FilePath part)) eqn:Hstat.
      * specialize (IH doneSize delFiles).
        destruct (validate_loop stat rest doneSize delFiles) as [[ps ds] dl].
        cbn [fst snd negb andb app] in *. destruct IH as (-> & -> & IH & Hr).
        rewrite Hemp.
        refine (conj eq_refl (conj eq_refl (conj _ Hr))). rewrite IH. f_equal; lia.
      * specialize (IH (Int64.sub doneSize (part_len (dps_From part) (dps_To part)))
                       delFiles).
        destruct (validate_loop stat rest _ delFiles) as [[ps ds] dl].
        cbn [fst snd negb andb app dps_FilePath dps_From dps_To] in *.
        destruct IH as (-> & -> & IH & Hr).
        rewrite String.eqb_refl.
        refine (conj eq_refl (conj eq_refl (conj _ (fun _ => Hr (wrap64_range _))))).
        rewrite IH.
        unfold Int64.sub. rewrite part_len_wrap, wrap64_sub_r.
        rewrite <- Z.add_sub_assoc, wrap64_add_l. f_equal; lia.
      * specialize (IH (Int64.sub doneSize (part_len (dps_From part) (dps_To part)))
                       (delFiles ++ [dps_FilePath part])).
        destruct (validate_loop stat rest _ _) as [[ps ds] dl].
        cbn [fst snd negb andb app dps_FilePath dps_From dps_To] in *.
        destruct IH as (-> & -> & IH & Hr).
        rewrite String.eqb_refl.
        refine (conj eq_refl (conj _ (conj _ (fun _ => Hr (wrap64_range _))))).
        { rewrite <- app_assoc. reflexivity. }
        rewrite IH.
        unfold Int64.sub. rewrite part_len_wrap, wrap64_sub_r.
        rewrite <- Z.add_sub_assoc, wrap64_add_l. f_equal; lia.
Qed.

(** X1. The validation pass of [ResumeDownload] touches nothing but
    paths and [DoneSize]: every recorded part keeps its byte range and its
    place, it keeps its path exactly when it has one and [os.Stat] finds
    the file, the files queued for deletion are those for which [os.Stat]
    fails with an error other than "does not exist", and the snapshot is
    marked recoverable with its other fields as they were. *)
Theorem resume_validate_parts :
  forall (stat : string -> StatResult) (snapshot : DownloadSnapshot),
    let after := fst (ResumeDownload_validate stat snapshot) in
    DoneParts after = map (validated stat) (DoneParts snapshot)
    /\ snd (ResumeDownload_validate stat snapshot)
       = unreadable stat (DoneParts snapshot)
    /\ (forall i p, DoneParts snapshot !! i = Some p ->
          exists q, DoneParts after !! i = Some q
            /\ dps_From q = dps_From p /\ dps_To q = dps_To p
            /\ (dps_FilePath q = dps_FilePath p \/ dps_FilePath q = EmptyString))
    /\ Recoverable after = true
    /\ snap_TotalPart after = snap_TotalPart snapshot
    /\ snap_PartSize after = snap_PartSize snapshot
    /\ TotalSize after = TotalSize snapshot
    /\ FileMd5 after = FileMd5 snapshot.
Proof.
  intros stat snapshot. unfold ResumeDownload_validate.
  pose proof (validate_loop_spec stat (DoneParts snapshot) (DoneSize snapshot) [])
    as (Hparts & Hdel & _).
  destruct (validate_loop stat (DoneParts snapshot) (DoneSize snapshot) [])
    as [[parts doneSize] delFiles].
  simpl in *. subst parts delFiles.
  repeat split.
  intros i p Hp. exists (validated stat p). split.
  - rewrite list_lookup_fmap, Hp. reflexivity.
  - unfold validated.
    destruct (String.eqb (dps_FilePath p) EmptyString); [auto|].
    destruct (stat (dps_FilePath p)); simpl; auto.
Qed.

Lemma recorded_validated_le (stat : string -> StatResult) :
  forall parts,
    Forall (fun p => dps_FilePath p <> EmptyString ->
                     0 <= dps_To p - dps_From p + 1) parts ->
    0 <= recorded (map (validated stat) parts) <= recorded parts.
Proof.
  induction parts as [|p rest IH]; intros Hall.
  - unfold recorded. simpl. lia.
  - cbn [map]. rewrite !recorded_cons.
    inversion Hall as [|? ? Hp Hrest]; subst. specialize (IH Hrest).
    set (r' := recorded (map (validated stat) rest)) in *.
    unfold validated.
    destruct (String.eqb (dps_FilePath p) EmptyString) eqn:Hemp.
    + rewrite Hemp. lia.
    + pose proof Hemp as Hne. apply String.eqb_neq in Hne. specialize (Hp Hne).
      destruct (stat (dps_FilePath p));
        cbn [dps_FilePath dps_From dps_To]; rewrite ?Hemp, ?String.eqb_refl; lia.
Qed.

(** X2. The validation pass keeps a snapshot's byte count in step with
    its parts: if [DoneSize] is the total length of the parts that have a
    temp file, it still is afterwards, the parts whose file is gone having
    lost their path and their bytes. *)
Theorem resume_validate_keeps_done_size_consistent :
  forall (stat : string -> StatResult) (snapshot : DownloadSnapshot),
    Forall (fun p => dps_FilePath p <> EmptyString ->
                     0 <= dps_To p - dps_From p + 1) (DoneParts snapshot) ->
    recorded (DoneParts snapshot) <= Int64.max_int ->
    DoneSize snapshot = recorded (DoneParts snapshot) ->
    let after := fst (ResumeDownload_validate stat snapshot) in
    DoneSize after = recorded (DoneParts after).
Proof.
  intros stat snapshot Hlen Hmax Hcons. unfold ResumeDownload_validate.
  pose proof (validate_loop_spec stat (DoneParts snapshot) (DoneSize snapshot) [])
    as (Hparts & _ & Hsize & Hrange).
  pose proof (recorded_validated_le stat _ Hlen) as Hle.
  destruct (validate_loop stat (DoneParts snapshot) (DoneSize snapshot) [])
    as [[parts doneSize] delFiles] eqn:Hv.
  cbn [fst snd DoneSize DoneParts] in *. subst parts.
  assert (Hin : forall z, 0 <= z <= Int64.max_int -> Int64.in_range z)
    by (unfold Int64.in_range, Int64.min_int, Int64.max_int; lia).
  assert (Hds : doneSize = recorded (map (validated stat) (DoneParts snapshot))).
  { rewrite <- (wrap64_id doneSize) by (apply Hrange, Hin; lia).
    rewrite Hsize, Hcons.
    replace (recorded (DoneParts snapshot)
             + recorded (map (validated stat) (DoneParts snapshot))
             - recorded (DoneParts snapshot))
      with (recorded (map (validated stat) (DoneParts snapshot))) by lia.
    apply wrap64_id, Hin. lia. }
  rewrite Hds. destruct (_ <? 0) eqn:Hneg; [apply Z.ltb_lt in Hneg; lia | reflexivity].
Qed.

End ResumeValidationMore.

(** ** The uploader's caches and its block list *)

Section UploaderCaches.
Import panfile uploader.

Ltac mstep :=
  cbv beta iota delta [mbind mret receiver set_receiver emit issued lift fst snd].

(** X3. [GetFileInfo] reads the file once: after a call that has
    computed the MD5, every later call, in either mode and whatever has
    become of the file, returns the same information, leaves the receiver
    as it is and touches nothing. *)
Theorem GetFileInfo_reads_once :
  forall (env env' : Env) (u u1 : Uploader) (tr tr1 : list Request)
         (info : LocalFileInfo),
    (forall data, env_md5 env data <> EmptyString) ->
    GetFileInfo env false u tr = Ret ((info, None), u1, tr1) ->
    tr1 = tr
    /\ FileInfo u1 = info
    /\ forall (simpleMode : bool) (tr2 : list Request),
         GetFileInfo env' simpleMode u1 tr2 = Ret ((info, None), u1, tr2).
Proof.
  intros env env' u u1 tr tr1 info Hmd5. unfold GetFileInfo. mstep.
  destruct (negb (String.eqb (Md5 (FileInfo u)) EmptyString)) eqn:Hc.
  - intros [= <- <- <-]. split; [reflexivity|]. split; [reflexivity|].
    intros simpleMode tr2. rewrite Hc. reflexivity.
  - destruct (env_file env) as [content|]; [|discriminate].
    intros [= <- <- <-]. split; [reflexivity|]. split; [reflexivity|].
    intros simpleMode tr2. cbn [FileInfo Md5].
    destruct (String.eqb (env_md5 env content) EmptyString) eqn:He.
    + apply String.eqb_eq in He. destruct (Hmd5 content He).
    + reflexivity.
Qed.

(** X4. [GetSliceSize] asks for the user's tier once: when no slice size
    is set and [UserInfo] answers, the size is the tier's (16 MiB for
    tier 1, 32 MiB for tier 2, 4 MiB otherwise) or the file size if that
    is smaller, it is stored in the receiver, and from then on every call
    returns it without a request, whatever file size it is given. *)
Theorem GetSliceSize_asks_once :
  forall (env env' : Env) (u : Uploader) (tr : list Request) (fileSize vip : Z),
    SliceSize u <= 0 ->
    env_user_info env (count_req is_UserInfo tr) = Some vip ->
    0 < fileSize ->
    let tier := if vip =? 1 then 16777216
                else if vip =? 2 then 33554432 else 4194304 in
    let u1 := mkUploader (AccessToken u) (Path u) (LocalFilePath u) (FileInfo u)
                (Z.min fileSize tier) in
    GetSliceSize env fileSize u tr
    = Ret ((Z.min fileSize tier, None), u1, tr ++ [ReqUserInfo])
    /\ 0 < Z.min fileSize tier <= 33554432
    /\ forall (fileSize' : Z) (tr' : list Request),
         GetSliceSize env' fileSize' u1 tr' = Ret ((Z.min fileSize tier, None), u1, tr').
Proof.
  intros env env' u tr fileSize vip Hu Hvip Hpos tier u1.
  assert (Htier : 4194304 <= tier <= 33554432).
  { subst tier. destruct (vip =? 1); [lia|]. destruct (vip =? 2); lia. }
  split; [|split; [lia|]].
  - unfold GetSliceSize. mstep.
    destruct (SliceSize u >? 0) eqn:Hgt; [lia|].
    rewrite Hvip. subst u1 tier. cbv zeta.
    destruct (fileSize <=? _) eqn:Hle.
    + apply Z.leb_le in Hle. rewrite Z.min_l by exact Hle. reflexivity.
    + apply Z.leb_gt in Hle. rewrite Z.min_r by lia. reflexivity.
  - intros fileSize' tr'. unfold GetSliceSize. mstep. subst u1. cbn [SliceSize].
    destruct (Z.min fileSize tier >? 0) eqn:Hgt; [reflexivity | lia].
Qed.

(** The read loop of [getBlockList] on a live context: one MD5 for each
    run of [sliceSize] bytes. *)
Lemma blockList_loop_spec (env : Env) (sliceSize : nat) :
  (0 < sliceSize)%nat ->
  (forall k, env_ctx_hash env k = None) ->
  forall (fuel n : nat) (rest : list Byte.byte) (blockList : list string),
    (List.length rest < fuel)%nat ->
    blockList_loop env sliceSize fuel n rest blockList
    = (blockList
         ++ map (fun j => env_md5 env (take sliceSize (drop (j * sliceSize) rest)))
              (seq 0 (Z.to_nat (Float64.ceil_quot (Z.of_nat (List.length rest))
                                  (Z.of_nat sliceSize)))),
       None).
Proof.
  intros Hss Hctx. induction fuel as [|fuel IH]; intros n rest blockList Hfuel; [lia|].
  cbn [blockList_loop]. rewrite Hctx.
  destruct rest as [|b rest'].
  - rewrite firstn_nil. cbn. rewrite app_nil_r. reflexivity.
  - set (rest := b :: rest') in *.
    assert (Hlen : (0 < List.length rest)%nat) by (subst rest; simpl; lia).
    destruct (firstn sliceSize rest) as [|d ds] eqn:Hfirst.
    { apply (f_equal (@List.length _)) in Hfirst. rewrite length_take in Hfirst.
      simpl in Hfirst. lia. }
    rewrite <- Hfirst.
    rewrite IH by (rewrite length_skipn; lia).
    rewrite <- app_assoc. f_equal. f_equal. cbn [app].
    rewrite length_skipn.
    assert (Hc : Float64.ceil_quot (Z.of_nat (List.length rest)) (Z.of_nat sliceSize)
                 = 1 + Float64.ceil_quot
                         (Z.of_nat (List.length rest - sliceSize)) (Z.of_nat sliceSize)).
    { unfold Float64.ceil_quot.
      destruct (le_lt_dec sliceSize (List.length rest)) as [Hge | Hlt].
      - replace (- Z.of_nat (List.length rest))
          with (- Z.of_nat (List.length rest - sliceSize) + (-1) * Z.of_nat sliceSize)
          by lia.
        rewrite Z.div_add by lia. lia.
      - replace (List.length rest - sliceSize)%nat with 0%nat by lia.
        change (- Z.of_nat 0) with 0. rewrite Z.div_0_l by lia.
        assert (H : - Z.of_nat (List.length rest) / Z.of_nat sliceSize = -1).
        { symmetry.
          apply (Z.div_unique_pos _ _ _
                   (Z.of_nat sliceSize - Z.of_nat (List.length rest))); lia. }
        rewrite H. reflexivity. }
    assert (Hnn : 0 <= Float64.ceil_quot (Z.of_nat (List.length rest - sliceSize))
                         (Z.of_nat sliceSize)).
    { unfold Float64.ceil_quot.
      assert (- Z.of_nat (List.length rest - sliceSize) / Z.of_nat sliceSize <= 0)
        by (apply Z.div_le_upper_bound; lia).
      lia. }
    rewrite Hc, Z2Nat.inj_add by lia. change (Z.to_nat 1) with 1%nat.
    cbn [Nat.add seq map]. f_equal.
    rewrite <- seq_shift, map_map. apply map_ext. intros j.
    f_equal. cbn [Nat.mul].
    rewrite <- drop_drop. reflexivity.
Qed.


End UploaderCaches.

(** ** The requests of an upload *)

Section UploadRequests.
Import panfile uploader traces.

Ltac mstep :=
  cbv beta iota delta [mbind mret receiver set_receiver emit emit_all issued lift
                         panic fst snd].

Lemma same_target_refl (u : Uploader) : same_target u u.
Proof. repeat split. Qed.

Lemma same_target_trans (u1 u2 u3 : Uploader) :
  same_target u1 u2 -> same_target u2 u3 -> same_target u1 u3.
Proof. unfold same_target. intros (? & ? & ?) (? & ? & ?). repeat split; congruence. Qed.

Lemma mbind_inv {A B : Type} (m : M A) (k : A -> M B) u tr r :
  mbind m k u tr = Ret r ->
  exists a u1 tr1, m u tr = Ret (a, u1, tr1) /\ k a u1 tr1 = Ret r.
Proof.
  unfold mbind. destruct (m u tr) as [[[a u1] tr1]|]; [|discriminate].
  intros H. exists a, u1, tr1. split; [reflexivity | exact H].
Qed.

Lemma emits_ret {A : Type} (P : Request -> Prop) (a : A) : emits P (mret a).
Proof.
  intros u tr a' u' tr' [= <- <- <-]. split; [apply same_target_refl|].
  exists []. rewrite app_nil_r. split; [reflexivity | constructor].
Qed.

Lemma emits_panic {A : Type} (P : Request -> Prop) (msg : string) :
  emits P (@panic A msg).
Proof. intros u tr a u' tr'. discriminate. Qed.

Lemma emits_bind {A B : Type} (P : Request -> Prop) (m : M A) (k : A -> M B) :
  emits P m -> (forall a, emits P (k a)) -> emits P (mbind m k).
Proof.
  intros Hm Hk u tr b u' tr' Hrun.
  apply mbind_inv in Hrun as (a & u1 & tr1 & Hm1 & Hk1).
  apply Hm in Hm1 as (Ht1 & new1 & -> & HP1).
  apply Hk in Hk1 as (Ht2 & new2 & -> & HP2).
  split; [eapply same_target_trans; eassumption|].
  exists (new1 ++ new2). rewrite app_assoc. split; [reflexivity|].
  apply Forall_app. split; assumption.
Qed.

Lemma emits_weaken {A : Type} (P Q : Request -> Prop) (m : M A) :
  (forall r, P r -> Q r) -> emits P m -> emits Q m.
Proof.
  intros HPQ Hm u tr a u' tr' Hrun.
  apply Hm in Hrun as (Ht & new & -> & HP). split; [exact Ht|].
  exists new. split; [reflexivity|]. eapply Forall_impl; eassumption.
Qed.

Lemma emits_nothing {A : Type} (m : M A) u tr a u' tr' :
  emits (fun _ => False) m -> m u tr = Ret (a, u', tr') ->
  same_target u u' /\ tr' = tr.
Proof.
  intros Hm Hrun. apply Hm in Hrun as (Ht & new & -> & HP).
  split; [exact Ht|]. destruct new as [|r new]; [apply app_nil_r|].
  inversion HP; contradiction.
Qed.

Lemma GetFileInfo_emits (env : Env) (simpleMode : bool) :
  emits (fun _ => False) (GetFileInfo env simpleMode).
Proof.
  intros u tr a u' tr'. unfold GetFileInfo. mstep.
  destruct (negb _).
  - intros [= <- <- <-]. split; [apply same_target_refl|].
    exists []. rewrite app_nil_r. split; [reflexivity | constructor].
  - destruct (env_file env); intros [= <- <- <-];
      (split; [repeat split|]; exists []; rewrite app_nil_r;
       split; [reflexivity | constructor]).
Qed.

Lemma GetSliceSize_emits (env : Env) (fileSize : Z) :
  emits (fun r => r = ReqUserInfo) (GetSliceSize env fileSize).
Proof.
  intros u tr a u' tr'. unfold GetSliceSize. mstep.
  destruct (SliceSize u >? 0).
  - intros [= <- <- <-]. split; [apply same_target_refl|].
    exists []. rewrite app_nil_r. split; [reflexivity | constructor].
  - destruct (env_user_info env _); intros [= <- <- <-];
      (split; [repeat split|]; exists [ReqUserInfo];
       split; [reflexivity | repeat constructor]).
Qed.

Lemma getSliceMd5_emits (env : Env) : emits (fun _ => False) (getSliceMd5 env).
Proof.
  unfold getSliceMd5. apply emits_bind; [apply GetFileInfo_emits|].
  intros fi. destruct (snd fi); [apply emits_ret|].
  destruct (_ <=? _); [apply emits_ret|].
  destruct (env_file env); apply emits_ret.
Qed.

Lemma getBlockList_emits (env : Env) :
  emits (fun r => r = ReqUserInfo) (getBlockList env).
Proof.
  unfold getBlockList. apply emits_bind.
  { eapply emits_weaken; [|apply GetFileInfo_emits]. contradiction. }
  intros fi. destruct (snd fi); [apply emits_ret|].
  apply emits_bind; [apply GetSliceSize_emits|].
  intros ss. destruct (_ =? _); [apply emits_ret|].
  destruct (_ <? _); [apply emits_panic|].
  destruct (env_file env); apply emits_ret.
Qed.

(** What [PreCreate] sends: requests for the user's tier, then at most
    one precreate request, without which it reports an error. *)
Lemma PreCreate_requests (env : Env) u tr a u' tr' :
  PreCreate env u tr = Ret (a, u', tr') ->
  same_target u u'
  /\ exists us ps,
       tr' = tr ++ us ++ ps
       /\ Forall (fun r => r = ReqUserInfo) us
       /\ (ps = [] /\ snd a <> None
           \/ exists size bl md5 smd5,
                ps = [ReqPreCreate (Path u) size bl md5 smd5]).
Proof.
  unfold PreCreate. intros Hrun.
  apply mbind_inv in Hrun as (fi & u1 & tr1 & H1 & Hrun).
  apply (emits_nothing _ _ _ _ _ _ (GetFileInfo_emits env false)) in H1 as (Ht1 & ->).
  assert (Hdone : forall (x : PreCreateResponse) (e : error) v us b v' t',
             same_target u v -> Forall (fun r => r = ReqUserInfo) us ->
             mret (x, Some e) v (tr ++ us) = Ret (b, v', t') ->
             same_target u v'
             /\ exists us ps,
                  t' = tr ++ us ++ ps
                  /\ Forall (fun r => r = ReqUserInfo) us
                  /\ (ps = [] /\ snd b <> None
                      \/ exists size bl md5 smd5,
                           ps = [ReqPreCreate (Path u) size bl md5 smd5])).
  { intros x e v us b v' t' Hv Hus [= <- <- <-]. split; [exact Hv|].
    exists us, []. rewrite app_nil_r.
    split; [reflexivity|]. split; [exact Hus | left; split; [reflexivity | discriminate]]. }
  destruct (snd fi).
  { rewrite <- (app_nil_r tr) in Hrun.
    eapply Hdone; [exact Ht1 | constructor | exact Hrun]. }
  apply mbind_inv in Hrun as (sm & u2 & tr2 & H2 & Hrun).
  apply (emits_nothing _ _ _ _ _ _ (getSliceMd5_emits env)) in H2 as (Ht2 & ->).
  pose proof (same_target_trans _ _ _ Ht1 Ht2) as Ht12.
  destruct (snd sm).
  { rewrite <- (app_nil_r tr) in Hrun.
    eapply Hdone; [exact Ht12 | constructor | exact Hrun]. }
  apply mbind_inv in Hrun as (bl & u3 & tr3 & H3 & Hrun).
  apply getBlockList_emits in H3 as (Ht3 & us & -> & Hus).
  pose proof (same_target_trans _ _ _ Ht12 Ht3) as Ht123.
  destruct (snd bl).
  { eapply Hdone; [exact Ht123 | exact Hus | exact Hrun]. }
  revert Hrun. mstep.
  assert (Hpath : Path u3 = Path u) by apply Ht123.
  rewrite Hpath.
  destruct (env_precreate env _) as [e | ret];
    [|destruct (negb (pc_ErrorCode ret =? 0))];
    intros [= <- <- <-]; (split; [exact Ht123|]);
    eexists us, [_]; (split; [rewrite app_assoc; reflexivity|]);
    (split; [exact Hus|]); right; eexists _, _, _, _; reflexivity.
Qed.

Lemma Create_requests (env : Env) (uploadID : string) (blockList : list string)
    u tr a u' tr' :
  Create env uploadID blockList u tr = Ret (a, u', tr') ->
  same_target u u'
  /\ (tr' = tr \/ exists size, tr' = tr ++ [ReqCreate (Path u) uploadID blockList size]).
Proof.
  unfold Create. intros Hrun.
  apply mbind_inv in Hrun as (fi & u1 & tr1 & H1 & Hrun).
  apply (emits_nothing _ _ _ _ _ _ (GetFileInfo_emits env false)) in H1 as (Ht1 & ->).
  destruct (snd fi).
  { injection Hrun as <- <- <-. split; [exact Ht1 | left; reflexivity]. }
  revert Hrun. mstep.
  assert (Hpath : Path u1 = Path u) by apply Ht1. rewrite Hpath.
  destruct (env_create env _) as [e | ret];
    [|destruct (negb (ur_ErrorCode ret =? 0))];
    intros [= <- <- <-]; (split; [exact Ht1|]); right; eexists; reflexivity.
Qed.

(** A slice task sends the attempts of its slice and nothing else. *)
Lemma run_slice_emits (env : Env) (uploadID : string) (partSeq : Z)
    (partByte : list Byte.byte) u tr r u' tr' :
  run_slice env uploadID partSeq partByte u tr = Ret (r, u', tr') ->
  u' = u
  /\ upr_Size r = Z.of_nat (List.length partByte)
  /\ exists new,
       tr' = tr ++ new
       /\ Forall (fun q => exists t, q = ReqSuperFile2 uploadID partSeq partByte t) new.
Proof.
  unfold run_slice.
  destruct (retry_upload.TrySuperFile2Upload (env_slice env partSeq partByte))
    as [[resp err] evs].
  mstep. intros [= <- <- <-]. split; [reflexivity|]. split; [reflexivity|].
  eexists. split; [reflexivity|].
  unfold attempt_requests. induction evs as [|ev evs IH]; [constructor|].
  cbn [flat_map]. apply Forall_app. split; [|exact IH].
  destruct ev; repeat constructor. eexists. reflexivity.
Qed.

(** The producer loop of [Upload] sends slice [j] of the file under the
    sequence number [j], and keeps the receiver as it is. *)
Lemma Upload_loop_requests (env : Env) (uploadID : string) (sliceSize : Z)
    (content : list Byte.byte) :
  forall (k : nat) (i : Z) (rest : list Byte.byte) (hasFailed : bool)
         (resps : list UploadPartResponse) u tr out u' tr',
    0 <= i -> rest = drop (Z.to_nat (i * sliceSize)) content ->
    Upload_loop env uploadID sliceSize k i rest hasFailed resps u tr
    = Ret (out, u', tr') ->
    u' = u
    /\ exists new,
         tr' = tr ++ new
         /\ Forall (fun q => exists j t,
                      q = ReqSuperFile2 uploadID j (slice_of sliceSize content j) t
                      /\ i <= j < i + Z.of_nat k) new.
Proof.
  assert (Hstop : forall i (k : nat) (u : Uploader) (tr : list Request),
             u = u /\ exists new : list Request,
                   tr = tr ++ new
                   /\ Forall (fun q => exists j t,
                                q = ReqSuperFile2 uploadID j
                                      (slice_of sliceSize content j) t
                                /\ i <= j < i + Z.of_nat k) new).
  { intros i k u tr. split; [reflexivity|]. exists []. rewrite app_nil_r.
    split; [reflexivity | constructor]. }
  induction k as [|k IH]; intros i rest hasFailed resps u tr out u' tr' Hi Hrest;
    cbn [Upload_loop].
  - intros [= <- <- <-]. apply Hstop.
  - destruct hasFailed; [intros [= <- <- <-]; apply Hstop|].
    destruct (env_ctx_slice env i); [intros [= <- <- <-]; apply Hstop|].
    destruct (sliceSize <? 0) eqn:Hneg; [discriminate|]. apply Z.ltb_ge in Hneg.
    destruct (env_read_err env i); [intros [= <- <- <-]; apply Hstop|].
    destruct (firstn (Z.to_nat sliceSize) rest) as [|b data] eqn:Hdata;
      [intros [= <- <- <-]; apply Hstop|].
    rewrite <- Hdata. clear Hdata b data. intros Hrun.
    apply mbind_inv in Hrun as (r & u1 & tr1 & Hslice & Hrun).
    apply run_slice_emits in Hslice as (-> & _ & new1 & -> & Hnew1).
    apply IH in Hrun as (-> & new2 & -> & Hnew2); [|lia|].
    + split; [reflexivity|]. exists (new1 ++ new2). rewrite app_assoc.
      split; [reflexivity|]. apply Forall_app. split.
      * eapply Forall_impl; [exact Hnew1|]. intros q [t ->].
        exists i, t. split; [|lia]. unfold slice_of. rewrite Hrest. reflexivity.
      * eapply Forall_impl; [exact Hnew2|]. intros q (j & t & -> & Hj).
        exists j, t. split; [reflexivity | lia].
    + rewrite Hrest, drop_drop. f_equal. nia.
Qed.

(** The collection loop fills the block list and the snapshot's slices
    alike, and keeps their lengths. *)
Lemma Upload_collect_lists :
  forall (resps : list UploadPartResponse) (c c' : Collected),
    c_blockList c = c_DoneSlices c ->
    Upload_collect resps c = Ret c' ->
    c_blockList c' = c_DoneSlices c'
    /\ List.length (c_DoneSlices c') = List.length (c_DoneSlices c).
Proof.
  induction resps as [|partResp rest IH]; intros c c' Heq; cbn [Upload_collect].
  - intros [= <-]. split; [exact Heq | reflexivity].
  - destruct (upr_Error partResp).
    { intros Hrun. apply IH in Hrun; [exact Hrun | exact Heq]. }
    destruct (Atoi (PartSeq (Response partResp))) as [partSeq|].
    + destruct (_ || _); [discriminate|].
      intros Hrun. apply IH in Hrun as [H1 H2].
      * split; [exact H1|]. rewrite H2. cbn [c_DoneSlices]. apply length_insert.
      * cbn [c_blockList c_DoneSlices]. rewrite Heq. reflexivity.
    + intros Hrun. apply IH in Hrun; [exact Hrun | exact Heq].
Qed.

Lemma count_req_app (f : Request -> bool) (l1 l2 : list Request) :
  count_req f (l1 ++ l2) = (count_req f l1 + count_req f l2)%nat.
Proof. unfold count_req. rewrite List.filter_app, length_app. reflexivity. Qed.

Lemma count_PreCreate_UserInfo (us : list Request) :
  Forall (fun r => r = ReqUserInfo) us -> count_req is_PreCreate us = 0%nat.
Proof.
  unfold count_req. induction 1 as [|q us -> _ IH]; [reflexivity | exact IH].
Qed.

Lemma lift_inv {A : Type} (o : outcome A) u tr a u' tr' :
  lift o u tr = Ret (a, u', tr') -> o = Ret a /\ u' = u /\ tr' = tr.
Proof. unfold lift. destruct o; [intros [= <- <- <-]; auto | discriminate]. Qed.

(** X6. The order of the requests of [Upload]: first the requests for
    the user's tier and at most one precreate request, then the slices,
    then at most one create request, which is the last request of all.
    Slice [j] of the file, cut at the snapshot's slice size, travels under
    the sequence number [j] and the upload id of the snapshot; no slice and
    no create request is sent unless the precreate request has been; the
    create request carries the snapshot's list of slice MD5s; and a call
    that returns no error returns a snapshot that is not recoverable. *)
Theorem Upload_request_order :
  forall (pf : Float64.Platform) (env : Env) (u u' : Uploader)
         (tr tr' : list Request) (r : UploadResponse) (snap : UploadSnapshot)
         (e : option error),
    Upload pf env u tr = Ret ((r, snap, e), u', tr') ->
    exists pre slices commit,
      tr' = tr ++ pre ++ slices ++ commit
      /\ Forall (fun q => q = ReqUserInfo
                          \/ exists size bl md5 smd5,
                               q = ReqPreCreate (Path u) size bl md5 smd5) pre
      /\ (count_req is_PreCreate pre <= 1)%nat
      /\ Forall (fun q => exists content j t,
                    env_file env = Some content
                    /\ q = ReqSuperFile2 (UploadId snap) j
                             (slice_of (s_SliceSize snap) content j) t
                    /\ 0 <= j < SliceNum snap) slices
      /\ (commit = []
          \/ exists size,
               commit = [ReqCreate (Path u) (UploadId snap) (DoneSlices snap) size])
      /\ (slices <> [] \/ commit <> [] -> count_req is_PreCreate pre = 1%nat)
      /\ (e = None -> Recoverable snap = false).
Proof.
  intros pf env u u' tr tr' r snap e. unfold Upload. intros Hrun.
  apply mbind_inv in Hrun as (u0 & u1 & tr1 & Hrec & Hrun).
  injection Hrec as <- <- <-.
  apply mbind_inv in Hrun as (pc & u1 & tr1 & Hpc & Hrun).
  apply PreCreate_requests in Hpc as (Ht1 & us & ps & -> & Hus & Hps).
  assert (Hpre : forall us2,
             Forall (fun q => q = ReqUserInfo) us2 ->
             Forall (fun q => q = ReqUserInfo
                              \/ exists size bl md5 smd5,
                                   q = ReqPreCreate (Path u) size bl md5 smd5)
               (us ++ ps ++ us2)
             /\ (count_req is_PreCreate (us ++ ps ++ us2) <= 1)%nat
             /\ (ps <> [] -> count_req is_PreCreate (us ++ ps ++ us2) = 1%nat)).
  { intros us2 Hus2.
    rewrite !count_req_app, (count_PreCreate_UserInfo us Hus),
      (count_PreCreate_UserInfo us2 Hus2).
    assert (Hc : (count_req is_PreCreate ps <= 1)%nat
                 /\ (ps <> [] -> count_req is_PreCreate ps = 1%nat)).
    { destruct Hps as [[-> _] | (? & ? & ? & ? & ->)]; cbn.
      - split; [lia | intros Hne; contradiction].
      - split; [lia | reflexivity]. }
    split; [|split; [lia | intros Hne; destruct Hc as [_ Hc]; rewrite (Hc Hne); lia]].
    apply Forall_app. split; [eapply Forall_impl; [exact Hus | auto]|].
    apply Forall_app. split; [|eapply Forall_impl; [exact Hus2 | auto]].
    destruct Hps as [[-> _] | (? & ? & ? & ? & ->)]; [constructor|].
    constructor; [|constructor]. right. eexists _, _, _, _. reflexivity. }
  assert (Hearly : forall us2,
             Forall (fun q => q = ReqUserInfo) us2 ->
             tr' = (tr ++ us ++ ps) ++ us2 ->
             (e = None -> Recoverable snap = false) ->
             exists pre slices commit,
               tr' = tr ++ pre ++ slices ++ commit
               /\ Forall (fun q => q = ReqUserInfo
                          \/ exists size bl md5 smd5,
                               q = ReqPreCreate (Path u) size bl md5 smd5) pre
               /\ (count_req is_PreCreate pre <= 1)%nat
               /\ Forall (fun q => exists content j t,
                    env_file env = Some content
                    /\ q = ReqSuperFile2 (UploadId snap) j
                             (slice_of (s_SliceSize snap) content j) t
                    /\ 0 <= j < SliceNum snap) slices
               /\ (commit = []
                   \/ exists size,
                        commit = [ReqCreate (Path u) (UploadId snap)
                                    (DoneSlices snap) size])
               /\ (slices <> [] \/ commit <> [] ->
                   count_req is_PreCreate pre = 1%nat)
               /\ (e = None -> Recoverable snap = false)).
  { intros us2 Hus2 -> Hrecov. exists (us ++ ps ++ us2), [], [].
    destruct (Hpre us2 Hus2) as (HF & Hle & _).
    split; [rewrite !app_nil_r, <- !app_assoc; reflexivity|].
    split; [exact HF|]. split; [exact Hle|]. split; [constructor|].
    split; [left; reflexivity|]. split; [intros [H | H]; contradiction | exact Hrecov]. }
  destruct (snd pc) as [e0|] eqn:Hpce.
  { injection Hrun as <- <- <- <- <-.
    apply (Hearly [] ltac:(constructor)); [rewrite app_nil_r; reflexivity
                                          | discriminate]. }
  assert (Hps' : ps <> []).
  { destruct Hps as [[_ Hn] | (? & ? & ? & ? & ->)]; [contradiction | discriminate]. }
  apply mbind_inv in Hrun as (u0 & u2 & tr2 & Hrec & Hrun).
  injection Hrec as <- <- <-.
  destruct (ReturnType (fst pc) =? 2).
  { injection Hrun as <- <- <- <- <-.
    apply (Hearly [] ltac:(constructor)); [rewrite app_nil_r; reflexivity
                                          | reflexivity]. }
  apply mbind_inv in Hrun as (fi & u2 & tr2 & Hfi & Hrun).
  apply (emits_nothing _ _ _ _ _ _ (GetFileInfo_emits env false)) in Hfi as (Ht2 & ->).
  apply mbind_inv in Hrun as (ss & u3 & tr3 & Hss & Hrun).
  apply GetSliceSize_emits in Hss as (Ht3 & us2 & -> & Hus2).
  destruct (snd ss) as [e0|].
  { injection Hrun as <- <- <- <- <-.
    apply (Hearly us2 Hus2); [reflexivity | discriminate]. }
  destruct (env_file env) as [content|] eqn:Hfile.
  2:{ injection Hrun as <- <- <- <- <-.
      apply (Hearly us2 Hus2); [reflexivity | discriminate]. }
  destruct (Float64.ceil_div pf (Size (fst fi)) (fst ss) <? 0) eqn:Hneg;
    [discriminate|]. apply Z.ltb_ge in Hneg.
  apply mbind_inv in Hrun as (lr & u4 & tr4 & Hloop & Hrun).
  apply (Upload_loop_requests env _ _ content) in Hloop
    as (-> & slices & -> & Hslices); [|lia|reflexivity].
  apply mbind_inv in Hrun as (c & u4 & tr4 & Hcol & Hrun).
  apply lift_inv in Hcol as (Hcol & -> & ->).
  apply Upload_collect_lists in Hcol as (Hlists & _); [|reflexivity].
  destruct (Hpre us2 Hus2) as (HF & Hle & Hone). specialize (Hone Hps').
  assert (HS : UploadId snap = UploadID (fst pc) -> s_SliceSize snap = fst ss ->
               SliceNum snap = Float64.ceil_div pf (Size (fst fi)) (fst ss) ->
               Forall (fun q => exists content0 j t,
                    Some content = Some content0
                    /\ q = ReqSuperFile2 (UploadId snap) j
                             (slice_of (s_SliceSize snap) content0 j) t
                    /\ 0 <= j < SliceNum snap) slices).
  { intros -> -> ->. eapply Forall_impl; [exact Hslices|].
    intros q (j & t & -> & Hj). exists content, j, t.
    split; [reflexivity|]. split; [reflexivity | lia]. }
  destruct (c_uploadErr c) as [e0|].
  { injection Hrun as <- <- <- <- <-.
    exists (us ++ ps ++ us2), slices, [].
    split; [rewrite !app_nil_r, <- !app_assoc; reflexivity|].
    split; [exact HF|]. split; [exact Hle|].
    split; [apply HS; reflexivity|].
    split; [left; reflexivity|]. split; [intros _; exact Hone | discriminate]. }
  apply mbind_inv in Hrun as (cr & u5 & tr5 & Hcr & Hrun).
  apply Create_requests in Hcr as (Ht5 & Hcommit).
  assert (Hpath : Path u3 = Path u).
  { transitivity (Path u2); [apply Ht3|]. transitivity (Path u1); [apply Ht2 | apply Ht1]. }
  rewrite Hpath, Hlists in Hcommit.
  assert (Hfinal :
             UploadId snap = UploadID (fst pc) -> s_SliceSize snap = fst ss ->
             SliceNum snap = Float64.ceil_div pf (Size (fst fi)) (fst ss) ->
             DoneSlices snap = c_DoneSlices c ->
             tr5 = tr' ->
             (e = None -> Recoverable snap = false) ->
             exists pre slices commit,
               tr' = tr ++ pre ++ slices ++ commit
               /\ Forall (fun q => q = ReqUserInfo
                          \/ exists size bl md5 smd5,
                               q = ReqPreCreate (Path u) size bl md5 smd5) pre
               /\ (count_req is_PreCreate pre <= 1)%nat
               /\ Forall (fun q => exists content0 j t,
                    Some content = Some content0
                    /\ q = ReqSuperFile2 (UploadId snap) j
                             (slice_of (s_SliceSize snap) content0 j) t
                    /\ 0 <= j < SliceNum snap) slices
               /\ (commit = []
                   \/ exists size,
                        commit = [ReqCreate (Path u) (UploadId snap)
                                    (DoneSlices snap) size])
               /\ (slices <> [] \/ commit <> [] ->
                   count_req is_PreCreate pre = 1%nat)
               /\ (e = None -> Recoverable snap = false)).
  { intros Hid Hsz Hnum Hds <- Hrecov.
    destruct Hcommit as [-> | (size & ->)].
    - exists (us ++ ps ++ us2), slices, [].
      split; [rewrite !app_nil_r, <- !app_assoc; reflexivity|].
      split; [exact HF|]. split; [exact Hle|].
      split; [apply HS; assumption|].
      split; [left; reflexivity|]. split; [intros _; exact Hone | exact Hrecov].
    - exists (us ++ ps ++ us2), slices, [ReqCreate (Path u) (UploadID (fst pc))
                                           (c_DoneSlices c) size].
      split; [rewrite <- !app_assoc; reflexivity|].
      split; [exact HF|]. split; [exact Hle|].
      split; [apply HS; assumption|].
      split; [right; exists size; rewrite Hid, Hds; reflexivity|].
      split; [intros _; exact Hone | exact Hrecov]. }
  destruct (snd cr) as [e0|]; injection Hrun as <- <- <- <- <-.
  - apply Hfinal; try reflexivity. discriminate.
  - apply Hfinal; reflexivity.
Qed.

(** The producer loop of [ResumeUpload] sends slice [j] of the file
    under the sequence number [j], for slices that are recorded as blank
    only, as long as the offsets stay within [int64]. *)
Lemma ResumeUpload_loop_requests (env : Env) (uploadId : string) (sliceSize : Z)
    (doneSlices : list string) (content : list Byte.byte) :
  0 < sliceSize ->
  forall (k : nat) (i offset pos : Z) (hasFailed : bool)
         (resps : list UploadPartResponse) u tr out u' tr',
    0 <= i -> (i + Z.of_nat k) * sliceSize <= Int64.max_int ->
    0 <= offset <= i * sliceSize ->
    (offset = i * sliceSize \/ Z.of_nat (List.length content) <= offset) ->
    ResumeUpload_loop env uploadId sliceSize doneSlices content k i offset pos
      hasFailed resps u tr = Ret (out, u', tr') ->
    u' = u
    /\ exists new,
         tr' = tr ++ new
         /\ Forall (fun q => exists j t,
                      q = ReqSuperFile2 uploadId j (slice_of sliceSize content j) t
                      /\ i <= j < i + Z.of_nat k
                      /\ doneSlices !! Z.to_nat j = Some EmptyString) new.
Proof.
  intros Hss.
  assert (Hstop : forall i (k : nat) (u : Uploader) (tr : list Request),
             u = u /\ exists new : list Request,
                   tr = tr ++ new
                   /\ Forall (fun q => exists j t,
                                q = ReqSuperFile2 uploadId j
                                      (slice_of sliceSize content j) t
                                /\ i <= j < i + Z.of_nat k
                                /\ doneSlices !! Z.to_nat j = Some EmptyString) new).
  { intros i k u tr. split; [reflexivity|]. exists []. rewrite app_nil_r.
    split; [reflexivity | constructor]. }
  assert (Hadd : forall a b, 0 <= a -> 0 <= b -> a + b <= Int64.max_int ->
                             Int64.add a b = a + b).
  { intros a b Ha Hb Hab. apply wrap64_id.
    unfold Int64.in_range, Int64.min_int, Int64.max_int in *. lia. }
  induction k as [|k IH];
    intros i offset pos hasFailed resps u tr out u' tr' Hi Hmax Hoff Hinv;
    cbn [ResumeUpload_loop].
  - intros [= <- <- <-]. apply Hstop.
  - destruct hasFailed; [intros [= <- <- <-]; apply Hstop|].
    destruct (env_ctx_slice env i); [intros [= <- <- <-]; apply Hstop|].
    destruct (doneSlices !! Z.to_nat i) as [md5|] eqn:Hmd5; [|discriminate].
    destruct (negb (String.eqb md5 EmptyString)) eqn:Hdone.
    + intros Hrun. apply IH in Hrun as (-> & new & -> & Hnew).
      * split; [reflexivity|]. exists new. split; [reflexivity|].
        eapply Forall_impl; [exact Hnew|]. intros q (j & t & -> & Hj & Hb).
        exists j, t. split; [reflexivity|]. split; [lia | exact Hb].
      * lia.
      * lia.
      * rewrite Hadd by nia. nia.
      * rewrite Hadd by nia. lia.
    + apply negb_false_iff, String.eqb_eq in Hdone. subst md5.
      destruct (offset <? 0) eqn:Hneg; [lia|].
      destruct (sliceSize <? 0) eqn:Hsneg; [lia|].
      destruct (env_read_err env i); [intros [= <- <- <-]; apply Hstop|].
      destruct (firstn (Z.to_nat sliceSize) (skipn (Z.to_nat offset) content))
        as [|b data] eqn:Hdata; [intros [= <- <- <-]; apply Hstop|].
      rewrite <- Hdata.
      assert (Hlt : Z.of_nat (List.length content) > offset).
      { destruct (Z_le_gt_dec (Z.of_nat (List.length content)) offset) as [Hle|]; [|lia].
        rewrite skipn_all2 in Hdata by lia. rewrite firstn_nil in Hdata. discriminate. }
      assert (Hoffeq : offset = i * sliceSize) by lia.
      set (partByte := firstn (Z.to_nat sliceSize) (skipn (Z.to_nat offset) content)).
      assert (Hn : Z.of_nat (List.length partByte) <= sliceSize
                   /\ (Z.of_nat (List.length partByte) = sliceSize
                       \/ offset + Z.of_nat (List.length partByte)
                          = Z.of_nat (List.length content))).
      { subst partByte. rewrite length_take, length_skipn. lia. }
      clear Hdata b data. intros Hrun.
      apply mbind_inv in Hrun as (r & u1 & tr1 & Hslice & Hrun).
      apply run_slice_emits in Hslice as (-> & _ & new1 & -> & Hnew1).
      apply IH in Hrun as (-> & new2 & -> & Hnew2).
      * split; [reflexivity|]. exists (new1 ++ new2). rewrite app_assoc.
        split; [reflexivity|]. apply Forall_app. split.
        -- eapply Forall_impl; [exact Hnew1|]. intros q [t ->].
           exists i, t. split; [|split; [lia | exact Hmd5]].
           unfold slice_of. subst partByte. rewrite Hoffeq. reflexivity.
        -- eapply Forall_impl; [exact Hnew2|]. intros q (j & t & -> & Hj & Hb).
           exists j, t. split; [reflexivity|]. split; [lia | exact Hb].
      * lia.
      * lia.
      * rewrite Hadd by nia. nia.
      * rewrite Hadd by nia. lia.
Qed.

Lemma lookup_make_copy_blank (n : nat) (src : list string) (j : nat) :
  make_copy n src !! j = Some EmptyString ->
  (j < n)%nat /\ (src !! j = None \/ src !! j = Some EmptyString).
Proof.
  unfold make_copy. intros H.
  assert (Hj : (j < n)%nat).
  { apply lookup_lt_Some in H. rewrite length_app, length_take, repeat_length in H. lia. }
  split; [exact Hj|].
  destruct (src !! j) as [x|] eqn:Hx; [|left; reflexivity].
  right. rewrite lookup_app_l in H.
  - rewrite lookup_take_lt in H by exact Hj. congruence.
  - rewrite length_take. apply lookup_lt_Some in Hx. lia.
Qed.

(** X7. [ResumeUpload] sends what is missing and nothing else: with a
    positive slice size and offsets within [int64], every slice request
    carries the upload id of the snapshot, a sequence number [j] below the
    slice count whose entry in the snapshot is blank or absent, and slice
    [j] of the file as it is now; neither the user's tier nor a precreate
    is requested; at most one create request follows, as the last
    request, with the list of slice MD5s of the returned snapshot; and a
    call that returns no error returns a snapshot that is not recoverable. *)
Theorem ResumeUpload_sends_missing_slices_only :
  forall (env : Env) (snapshot snap : UploadSnapshot) (u u' : Uploader)
         (tr tr' : list Request) (r : UploadResponse) (e : option error),
    0 < s_SliceSize snapshot ->
    SliceNum snapshot * s_SliceSize snapshot <= Int64.max_int ->
    ResumeUpload env snapshot u tr = Ret ((r, snap, e), u', tr') ->
    exists slices commit,
      tr' = tr ++ slices ++ commit
      /\ Forall (fun q => exists content j t,
                    env_file env = Some content
                    /\ q = ReqSuperFile2 (UploadId snapshot) j
                             (slice_of (s_SliceSize snapshot) content j) t
                    /\ 0 <= j < SliceNum snapshot
                    /\ (DoneSlices snapshot !! Z.to_nat j = None
                        \/ DoneSlices snapshot !! Z.to_nat j = Some EmptyString))
           slices
      /\ (commit = []
          \/ exists size,
               commit = [ReqCreate (Path u) (UploadId snapshot) (DoneSlices snap) size])
      /\ Z.of_nat (List.length (DoneSlices snap)) = SliceNum snapshot
      /\ (e = None -> Recoverable snap = false).
Proof.
  intros env snapshot snap u u' tr tr' r e Hss Hmax. unfold ResumeUpload.
  destruct (SliceNum snapshot <? 0) eqn:Hneg; [discriminate|]. apply Z.ltb_ge in Hneg.
  assert (Hlen0 : Z.of_nat (List.length (make_copy (Z.to_nat (SliceNum snapshot))
                                          (DoneSlices snapshot)))
                  = SliceNum snapshot).
  { unfold make_copy. rewrite length_app, length_take, repeat_length. lia. }
  destruct (env_file env) as [content|] eqn:Hfile.
  2:{ intros [= <- <- <- <- <-]. exists [], []. rewrite !app_nil_r.
      split; [reflexivity|]. split; [constructor|]. split; [left; reflexivity|].
      split; [exact Hlen0 | discriminate]. }
  intros Hrun.
  apply mbind_inv in Hrun as (lr & u1 & tr1 & Hloop & Hrun).
  cbn [UploadId set_done DoneSlices] in Hloop.
  apply (ResumeUpload_loop_requests env _ _ _ content Hss) in Hloop
    as (-> & slices & -> & Hslices); [|lia|lia|lia|left; lia].
  apply mbind_inv in Hrun as (c & u1 & tr1 & Hcol & Hrun).
  apply lift_inv in Hcol as (Hcol & -> & ->).
  apply Upload_collect_lists in Hcol as (_ & Hlen); [|reflexivity].
  cbn [c_DoneSlices DoneSlices set_done] in Hlen.
  assert (HS : Forall (fun q => exists content0 j t,
                    Some content = Some content0
                    /\ q = ReqSuperFile2 (UploadId snapshot) j
                             (slice_of (s_SliceSize snapshot) content0 j) t
                    /\ 0 <= j < SliceNum snapshot
                    /\ (DoneSlices snapshot !! Z.to_nat j = None
                        \/ DoneSlices snapshot !! Z.to_nat j = Some EmptyString))
                 slices).
  { eapply Forall_impl; [exact Hslices|].
    intros q (j & t & -> & Hj & Hb). exists content, j, t.
    split; [reflexivity|]. split; [reflexivity|]. split; [lia|].
    apply lookup_make_copy_blank in Hb as [_ Hb]. exact Hb. }
  assert (Hlenc : Z.of_nat (List.length (c_DoneSlices c)) = SliceNum snapshot)
    by (rewrite Hlen; exact Hlen0).
  destruct (c_uploadErr c) as [e0|].
  { injection Hrun as <- <- <- <- <-. exists slices, [].
    rewrite !app_nil_r. split; [reflexivity|]. split; [exact HS|].
    split; [left; reflexivity|]. split; [exact Hlenc | discriminate]. }
  apply mbind_inv in Hrun as (cr & u5 & tr5 & Hcr & Hrun).
  apply Create_requests in Hcr as (Ht5 & Hcommit).
  cbn [UploadId set_done DoneSlices] in Hcommit.
  assert (Hbl : make_copy (Z.to_nat (SliceNum snapshot)) (c_DoneSlices c)
                = c_DoneSlices c).
  { replace (Z.to_nat (SliceNum snapshot)) with (List.length (c_DoneSlices c)) by lia.
    apply make_copy_same. }
  rewrite Hbl in Hcommit.
  assert (Hfinal : DoneSlices snap = c_DoneSlices c -> tr5 = tr' ->
                   (e = None -> Recoverable snap = false) ->
                   exists slices commit,
                     tr' = tr ++ slices ++ commit
                     /\ Forall (fun q => exists content0 j t,
                           Some content = Some content0
                           /\ q = ReqSuperFile2 (UploadId snapshot) j
                                    (slice_of (s_SliceSize snapshot) content0 j) t
                           /\ 0 <= j < SliceNum snapshot
                           /\ (DoneSlices snapshot !! Z.to_nat j = None
                               \/ DoneSlices snapshot !! Z.to_nat j = Some EmptyString))
                          slices
                     /\ (commit = []
                         \/ exists size,
                              commit = [ReqCreate (Path u) (UploadId snapshot)
                                          (DoneSlices snap) size])
                     /\ Z.of_nat (List.length (DoneSlices snap)) = SliceNum snapshot
                     /\ (e = None -> Recoverable snap = false)).
  { intros Hds <- Hrecov. rewrite Hds.
    destruct Hcommit as [-> | (size & ->)].
    - exists slices, []. rewrite !app_nil_r. split; [reflexivity|].
      split; [exact HS|]. split; [left; reflexivity|]. split; [exact Hlenc | exact Hrecov].
    - exists slices, [ReqCreate (Path u) (UploadId snapshot) (c_DoneSlices c) size].
      split; [rewrite <- app_assoc; reflexivity|].
      split; [exact HS|]. split; [right; exists size; reflexivity|].
      split; [exact Hlenc | exact Hrecov]. }
  destruct (snd cr) as [e0|]; injection Hrun as <- <- <- <- <-.
  - apply Hfinal; try reflexivity. discriminate.
  - apply Hfinal; reflexivity.
Qed.

End UploadRequests.

(** ** Sequence numbers on the wire *)

Section SequenceNumbers.
Import uploader strconv.

Lemma digit_of_digit (m : Z) :
  0 <= m <= 9 -> digit_of (ascii_of_nat (Z.to_nat (48 + m))) = Some m.
Proof.
  intros Hm.
  assert (H : m = 0 \/ m = 1 \/ m = 2 \/ m = 3 \/ m = 4 \/ m = 5 \/ m = 6
              \/ m = 7 \/ m = 8 \/ m = 9) by lia.
  repeat (destruct H as [-> | H]; [reflexivity|]). subst. reflexivity.
Qed.

Lemma digit_not_sign (m : Z) :
  0 <= m <= 9 ->
  Ascii.eqb (ascii_of_nat (Z.to_nat (48 + m))) "+" = false
  /\ Ascii.eqb (ascii_of_nat (Z.to_nat (48 + m))) "-" = false.
Proof.
  intros Hm.
  assert (H : m = 0 \/ m = 1 \/ m = 2 \/ m = 3 \/ m = 4 \/ m = 5 \/ m = 6
              \/ m = 7 \/ m = 8 \/ m = 9) by lia.
  repeat (destruct H as [-> | H]; [split; reflexivity|]). subst. split; reflexivity.
Qed.

(** Reading back the digits that [digits] has written. *)
Lemma parse_digits_digits :
  forall (fuel : nat) (n : Z) (acc : string) (a : Z),
    0 <= n < 10 ^ Z.of_nat fuel ->
    exists k, 0 <= k
      /\ parse_digits (digits fuel n acc) a = parse_digits acc (a * 10 ^ k + n).
Proof.
  induction fuel as [|fuel IH]; intros n acc a Hn.
  - change (10 ^ Z.of_nat 0) with 1 in Hn. assert (n = 0) by lia. subst.
    exists 0. split; [lia|]. cbn [digits]. f_equal. lia.
  - cbn [digits]. destruct (n <? 10) eqn:Hsmall.
    + apply Z.ltb_lt in Hsmall. exists 1. split; [lia|].
      cbn [parse_digits]. rewrite Z.mod_small by lia.
      rewrite digit_of_digit by lia. f_equal. lia.
    + apply Z.ltb_ge in Hsmall.
      assert (Hdiv : 0 <= n / 10 < 10 ^ Z.of_nat fuel).
      { rewrite Nat2Z.inj_succ, Z.pow_succ_r in Hn by lia.
        split; [apply Z.div_pos; lia|]. apply Z.div_lt_upper_bound; lia. }
      destruct (IH (n / 10)
                  (String (ascii_of_nat (Z.to_nat (48 + n mod 10))) acc) a Hdiv)
        as (k & Hk & Heq).
      exists (k + 1). split; [lia|]. rewrite Heq. cbn [parse_digits].
      pose proof (Z.mod_pos_bound n 10 ltac:(lia)).
      rewrite digit_of_digit by lia. f_equal.
      rewrite Z.pow_add_r by lia. pose proof (Z.div_mod n 10 ltac:(lia)). lia.
Qed.

(** What [digits] writes starts with a digit. *)
Lemma digits_head :
  forall (fuel : nat) (n : Z) (acc : string),
    (0 < fuel)%nat -> 0 <= n ->
    exists m r, 0 <= m <= 9
      /\ digits fuel n acc = String (ascii_of_nat (Z.to_nat (48 + m))) r.
Proof.
  induction fuel as [|fuel IH]; intros n acc Hf Hn; [lia|].
  cbn [digits]. pose proof (Z.mod_pos_bound n 10 ltac:(lia)).
  destruct (n <? 10) eqn:Hsmall.
  - exists (n mod 10), acc. split; [lia | reflexivity].
  - destruct fuel as [|fuel'].
    + cbn [digits]. exists (n mod 10), acc. split; [lia | reflexivity].
    + apply IH; [lia | apply Z.div_pos; lia].
Qed.

(** The sequence number of a slice survives the wire: what [Upload]
    and [ResumeUpload] parse with [strconv.Atoi] from a response that
    echoes the [partseq] parameter, written with [strconv.Itoa] by
    [SuperFile2Upload], is the number of the slice, for every [int]. *)
Theorem Atoi_of_Itoa :
  forall i : Z, Int64.in_range i -> Atoi (Itoa i) = Some i.
Proof.
  intros i Hi. unfold Int64.in_range, Int64.min_int, Int64.max_int in Hi.
  assert (Hpow : forall v, 0 <= v <= 2 ^ 63 -> 0 <= v < 10 ^ Z.of_nat 20).
  { intros v Hv. assert (2 ^ 63 < 10 ^ Z.of_nat 20) by (vm_compute; reflexivity). lia. }
  assert (Hrange : forall v, - 2 ^ 63 <= v <= 2 ^ 63 - 1 ->
             (Int64.min_int <=? v) && (v <=? Int64.max_int) = true).
  { intros v Hv. unfold Int64.min_int, Int64.max_int.
    apply andb_true_intro. split; apply Z.leb_le; lia. }
  unfold Itoa. destruct (i <? 0) eqn:Hneg.
  - apply Z.ltb_lt in Hneg. unfold Atoi.
    change (Ascii.eqb "-" "+") with false. change (Ascii.eqb "-" "-") with true.
    cbv iota. unfold parse_signed.
    assert (H20 : (0 < 20)%nat) by lia. assert (Hi' : 0 <= - i <= 2 ^ 63) by lia.
    destruct (digits_head 20 (- i) EmptyString H20 (proj1 Hi'))
      as (m & r & Hm & Hhead).
    destruct (parse_digits_digits 20 (- i) EmptyString 0 (Hpow _ Hi'))
      as (k & Hk & Hparse).
    rewrite Hhead in *. rewrite Hparse. cbn [parse_digits].
    replace (-1 * (0 * 10 ^ k + - i)) with i by lia.
    rewrite Hrange by lia. reflexivity.
  - apply Z.ltb_ge in Hneg.
    assert (H20 : (0 < 20)%nat) by lia. assert (Hi' : 0 <= i <= 2 ^ 63) by lia.
    destruct (digits_head 20 i EmptyString H20 (proj1 Hi'))
      as (m & r & Hm & Hhead).
    destruct (parse_digits_digits 20 i EmptyString 0 (Hpow _ Hi'))
      as (k & Hk & Hparse).
    destruct (digit_not_sign m Hm) as [Hplus Hminus].
    unfold Atoi. rewrite Hhead in *. rewrite Hplus, Hminus.
    unfold parse_signed. rewrite Hparse. cbn [parse_digits].
    replace (1 * (0 * 10 ^ k + i)) with i by lia.
    rewrite Hrange by lia. reflexivity.
Qed.

End SequenceNumbers.

(** ** An upload that the server accepts *)

Section UploadAccepted.
Import panfile uploader traces slices strconv.

Ltac mstep :=
  cbv beta iota delta [mbind mret receiver set_receiver emit emit_all issued lift
                         panic fst snd].

Lemma run_slice_eq (env : Env) (uploadID : string) (j : Z) (data : list Byte.byte)
    (u : Uploader) (tr : list Request) :
  run_slice env uploadID j data u tr
  = Ret (slice_response env j data, u, tr ++ slice_requests env uploadID j data).
Proof.
  unfold run_slice, slice_response, slice_requests.
  destruct (retry_upload.TrySuperFile2Upload (env_slice env j data)) as [[resp err] evs].
  reflexivity.
Qed.

Lemma ceil_quot_gt (x y i : Z) :
  0 < y -> i < Float64.ceil_quot x y -> i * y < x.
Proof.
  unfold Float64.ceil_quot. intros Hy Hi.
  pose proof (Z.div_mod (- x) y ltac:(lia)).
  pose proof (Z.mod_pos_bound (- x) y Hy). nia.
Qed.

Lemma ceil_quot_cover (x y : Z) :
  0 < y -> x <= Float64.ceil_quot x y * y.
Proof.
  unfold Float64.ceil_quot. intros Hy.
  pose proof (Z.div_mod (- x) y ltac:(lia)).
  pose proof (Z.mod_pos_bound (- x) y Hy). nia.
Qed.

Lemma ceil_quot_nonneg (x y : Z) : 0 < y -> 0 <= x -> 0 <= Float64.ceil_quot x y.
Proof.
  unfold Float64.ceil_quot. intros Hy Hx.
  assert (- x / y <= 0) by (apply Z.div_le_upper_bound; lia). lia.
Qed.

(** The producer loop of [Upload] when nothing fails: the slices go out
    one after the other. *)
Lemma Upload_loop_all_sent (env : Env) (uploadID : string) (sliceSize : Z)
    (content : list Byte.byte) :
  0 < sliceSize ->
  (forall j, env_ctx_slice env j = None) ->
  (forall j, env_read_err env j = None) ->
  (forall j data, upr_Error (slice_response env j data) = None) ->
  forall (k i : nat) (rest : list Byte.byte) (resps : list UploadPartResponse)
         (u : Uploader) (tr : list Request),
    rest = drop (Z.to_nat (Z.of_nat i * sliceSize)) content ->
    Z.of_nat (i + k)
    <= Float64.ceil_quot (Z.of_nat (List.length content)) sliceSize ->
    Upload_loop env uploadID sliceSize k (Z.of_nat i) rest false resps u tr
    = Ret ((resps
              ++ map (fun j => slice_response env (Z.of_nat j)
                                 (slice_of sliceSize content (Z.of_nat j)))
                   (seq i k),
            None), u,
           tr ++ flat_map (fun j => slice_requests env uploadID (Z.of_nat j)
                                      (slice_of sliceSize content (Z.of_nat j)))
                   (seq i k)).
Proof.
  intros Hss Hctx Hread Hok.
  induction k as [|k IH]; intros i rest resps u tr Hrest Hle; cbn [Upload_loop].
  - cbn. rewrite !app_nil_r. reflexivity.
  - rewrite Hctx, Hread.
    destruct (sliceSize <? 0) eqn:Hneg; [lia|].
    assert (Hslice : firstn (Z.to_nat sliceSize) rest
                     = slice_of sliceSize content (Z.of_nat i)).
    { unfold slice_of. rewrite Hrest. reflexivity. }
    assert (Hne : List.length (firstn (Z.to_nat sliceSize) rest) <> 0%nat).
    { pose proof (ceil_quot_gt (Z.of_nat (List.length content)) sliceSize
                    (Z.of_nat i) Hss ltac:(lia)).
      rewrite Hrest, length_take, length_skipn. lia. }
    destruct (firstn (Z.to_nat sliceSize) rest) as [|b data] eqn:Hdata;
      [contradiction|].
    rewrite Hslice. clear Hdata Hne Hslice b data.
    unfold mbind at 1. rewrite run_slice_eq.
    rewrite Hok. cbn [is_err].
    replace (Z.of_nat i + 1) with (Z.of_nat (S i)) by lia.
    rewrite IH.
    + cbn [seq map flat_map]. rewrite <- !app_assoc. reflexivity.
    + rewrite Hrest, drop_drop. f_equal. nia.
    + lia.
Qed.

(** The collection loop of [Upload] on responses that carry no error and
    echo their sequence number: each MD5 goes to the slot of its slice. *)
Lemma Upload_collect_echo (n : nat) (R : nat -> UploadPartResponse) :
  (forall j, upr_Error (R j) = None) ->
  (forall j, (j < n)%nat -> Atoi (PartSeq (Response (R j))) = Some (Z.of_nat j)) ->
  forall (k i : nat) (ret : UploadResponse) (err : option error) (doneSize : Z),
    (i + k <= n)%nat ->
    Upload_collect (map R (seq i k))
      (mkCollected ret err
         (map (fun j => sf_Md5 (Response (R j))) (seq 0 i) ++ repeat EmptyString (n - i))
         (map (fun j => sf_Md5 (Response (R j))) (seq 0 i) ++ repeat EmptyString (n - i))
         doneSize)
    = Ret (mkCollected ret err
             (map (fun j => sf_Md5 (Response (R j))) (seq 0 (i + k))
                ++ repeat EmptyString (n - (i + k)))
             (map (fun j => sf_Md5 (Response (R j))) (seq 0 (i + k))
                ++ repeat EmptyString (n - (i + k)))
             (fold_left Int64.add (map (fun j => upr_Size (R j)) (seq i k)) doneSize)).
Proof.
  intros Herr Hseq. induction k as [|k IH]; intros i ret err doneSize Hle.
  - cbn. rewrite Nat.add_0_r. reflexivity.
  - cbn [seq map Upload_collect]. rewrite Herr, Hseq by lia.
    cbn [c_blockList c_DoneSlices c_ret c_uploadErr c_DoneSize].
    set (l := map (fun j => sf_Md5 (Response (R j))) (seq 0 i)
              ++ repeat EmptyString (n - i)).
    assert (Hlen : List.length l = n).
    { subst l. rewrite length_app, length_map, length_seq, repeat_length. lia. }
    destruct ((Z.of_nat i <? 0) || (Z.of_nat (List.length l) <=? Z.of_nat i)
              || (Z.of_nat (List.length l) <=? Z.of_nat i)) eqn:Hb.
    { rewrite Hlen in Hb. apply orb_true_iff in Hb as [Hb | Hb];
        [apply orb_true_iff in Hb as [Hb | Hb]|]; lia. }
    rewrite Nat2Z.id.
    assert (Hins : <[i := sf_Md5 (Response (R i))]> l
                   = map (fun j => sf_Md5 (Response (R j))) (seq 0 (S i))
                     ++ repeat EmptyString (n - S i)).
    { subst l. rewrite insert_app_r_alt by (rewrite length_map, length_seq; lia).
      rewrite length_map, length_seq, Nat.sub_diag.
      replace (n - i)%nat with (S (n - S i)) by lia. cbn [repeat].
      rewrite seq_S, map_app, <- app_assoc. reflexivity. }
    rewrite Hins, IH by lia.
    replace (S i + k)%nat with (i + S k)%nat by lia. cbn [fold_left]. reflexivity.
Qed.

Lemma slice_response_size (env : Env) (j : Z) (data : list Byte.byte) :
  upr_Size (slice_response env j data) = Z.of_nat (List.length data).
Proof.
  unfold slice_response.
  destruct (retry_upload.TrySuperFile2Upload (env_slice env j data)) as [[resp err] evs].
  reflexivity.
Qed.

Lemma slice_requests_no_create (env : Env) (uploadID : string) (js : list nat)
    (data : nat -> list Byte.byte) :
  count_req is_Create
    (flat_map (fun j => slice_requests env uploadID (Z.of_nat j) (data j)) js) = 0%nat.
Proof.
  induction js as [|j js IH]; [reflexivity|].
  cbn [flat_map]. rewrite count_req_app, IH, Nat.add_0_r.
  unfold slice_requests.
  destruct (retry_upload.TrySuperFile2Upload (env_slice env (Z.of_nat j) (data j)))
    as [[resp err] evs].
  unfold attempt_requests. induction evs as [|ev evs IHe]; [reflexivity|].
  cbn [flat_map]. rewrite count_req_app, IHe, Nat.add_0_r. destruct ev; reflexivity.
Qed.

(** The slices of a file add up to the file. *)
Lemma slices_cover (sliceSize : Z) (content : list Byte.byte) :
  0 < sliceSize ->
  forall m : nat,
    fold_right Z.add 0
      (map (fun j => Z.of_nat (List.length (slice_of sliceSize content (Z.of_nat j))))
         (seq 0 m))
    = Z.min (Z.of_nat m * sliceSize) (Z.of_nat (List.length content)).
Proof.
  intros Hss. induction m as [|m IH]; [cbn; lia|].
  rewrite seq_S, map_app, fold_right_app. cbn [map fold_right Nat.add].
  assert (Hshift : forall (l : list Z) (a : Z),
             fold_right Z.add a l = a + fold_right Z.add 0 l).
  { induction l as [|x l IHl]; intros a; cbn; [lia | rewrite IHl; lia]. }
  rewrite Hshift, IH. unfold slice_of. rewrite length_take, length_skipn. nia.
Qed.

Lemma ceil_quot_le_self (x y : Z) : 0 < y -> 0 <= x -> Float64.ceil_quot x y <= x.
Proof.
  intros Hy Hx.
  destruct (Z_le_gt_dec (Float64.ceil_quot x y) 0) as [Hle | Hgt]; [lia|].
  pose proof (ceil_quot_gt x y (Float64.ceil_quot x y - 1) Hy ltac:(lia)). nia.
Qed.

(** X8. [Upload] of a file that the server accepts. For a fresh
    uploader and a readable, non-empty file below [2^53] bytes, with the
    user's tier on record, the context live, a precreate that asks for the
    slices, every slice accepted and echoed with its sequence number, and
    the commit accepted: the call returns what the commit returned and no
    error; the slice size is the tier's or the file size if that is
    smaller, and the slice count the ceiling of their quotient; the
    snapshot is not recoverable, counts every byte and lists the MD5s the
    server returned, slice by slice; and the one create request, the last
    request, carries that list and the file size. *)
Theorem Upload_of_accepted_file :
  forall (pf : Float64.Platform) (env : Env)
         (accessToken path localFilePath : string) (tr : list Request)
         (content : list Byte.byte) (vip : Z),
    env_file env = Some content ->
    0 < Z.of_nat (List.length content) < 2 ^ 53 ->
    (forall data, env_md5 env data <> EmptyString) ->
    (forall n, env_user_info env n = Some vip) ->
    (forall k, env_ctx_hash env k = None) ->
    (forall j, env_ctx_slice env j = None) ->
    (forall j, env_read_err env j = None) ->
    (forall req, exists ret,
        env_precreate env req = inr ret
        /\ pc_ErrorCode ret = 0 /\ ReturnType ret <> 2) ->
    (forall j data,
        upr_Error (slice_response env j data) = None
        /\ PartSeq (Response (slice_response env j data)) = Itoa j) ->
    (forall req, exists ret, env_create env req = inr ret /\ ur_ErrorCode ret = 0) ->
    let size := Z.of_nat (List.length content) in
    let sliceSize :=
      Z.min size (if vip =? 1 then 16777216
                  else if vip =? 2 then 33554432 else 4194304) in
    let sliceNum := Float64.ceil_quot size sliceSize in
    let md5s :=
      map (fun j => sf_Md5 (Response (slice_response env (Z.of_nat j)
                                        (slice_of sliceSize content (Z.of_nat j)))))
        (seq 0 (Z.to_nat sliceNum)) in
    exists r snap u' mid,
      Upload pf env (NewUploader accessToken path localFilePath) tr
      = Ret ((r, snap, None), u',
             tr ++ mid ++ [ReqCreate (handleSpecialChar path) (UploadId snap) md5s size])
      /\ env_create env (ReqCreate (handleSpecialChar path) (UploadId snap) md5s size)
         = inr r
      /\ count_req is_Create mid = 0%nat
      /\ Recoverable snap = false
      /\ DoneSize snap = size /\ TotalSize snap = size
      /\ s_SliceSize snap = sliceSize /\ SliceNum snap = sliceNum
      /\ DoneSlices snap = md5s.
Proof.
  intros pf env accessToken path localFilePath tr content vip
    Hfile Hsize Hmd5 Hvip Hhash Hctx Hread Hpre Hslices Hcreate size sliceSize sliceNum md5s.
  set (tier := if vip =? 1 then 16777216
               else if vip =? 2 then 33554432 else 4194304) in *.
  assert (Htier : 4194304 <= tier <= 33554432).
  { subst tier. destruct (vip =? 1); [lia|]. destruct (vip =? 2); lia. }
  assert (Hss : 0 < sliceSize <= size) by (subst sliceSize; lia).
  assert (Hnum : 0 <= sliceNum <= size).
  { subst sliceNum. split; [apply ceil_quot_nonneg; lia | apply ceil_quot_le_self; lia]. }
  set (u0 := NewUploader accessToken path localFilePath).
  set (info := mkLocalFileInfo (env_md5 env content) size (env_mtime env)).
  set (u1 := mkUploader accessToken (handleSpecialChar path) localFilePath info 0).
  set (u2 := mkUploader accessToken (handleSpecialChar path) localFilePath info sliceSize).
  assert (Hread0 : forall t, GetFileInfo env false u0 t = Ret ((info, None), u1, t)).
  { intros t. apply (GetFileInfo_read env content u0 t Hfile). left. reflexivity. }
  assert (Hread1 : forall t, GetFileInfo env false u1 t = Ret ((info, None), u1, t)).
  { intros t. apply (GetFileInfo_read env content u1 t Hfile). right. reflexivity. }
  assert (Hread2 : forall t, GetFileInfo env false u2 t = Ret ((info, None), u2, t)).
  { intros t. apply (GetFileInfo_read env content u2 t Hfile). right. reflexivity. }
  assert (Hsm : exists sm, forall t, getSliceMd5 env u1 t = Ret ((sm, None), u1, t)).
  { unfold getSliceMd5. mstep.
    destruct (Size info <=? 262144) eqn:Hsmall.
    - exists (Md5 info). intros t. rewrite Hread1. mstep. rewrite Hsmall. reflexivity.
    - eexists. intros t. rewrite Hread1. mstep. rewrite Hsmall, Hfile. reflexivity. }
  destruct Hsm as [sm Hsm].
  assert (Hgs1 : forall t, GetSliceSize env size u1 t
                           = Ret ((sliceSize, None), u2, t ++ [ReqUserInfo])).
  { intros t. unfold GetSliceSize. mstep. change (SliceSize u1) with 0.
    change (0 >? 0) with false. cbv beta iota. rewrite Hvip. fold tier.
    subst u2 sliceSize. cbv zeta.
    destruct (size <=? tier) eqn:Hle.
    + apply Z.leb_le in Hle. rewrite Z.min_l by exact Hle. reflexivity.
    + apply Z.leb_gt in Hle. rewrite Z.min_r by lia. reflexivity. }
  assert (Hgs2 : forall fs t, GetSliceSize env fs u2 t = Ret ((sliceSize, None), u2, t)).
  { intros fs t. unfold GetSliceSize. mstep. change (SliceSize u2) with sliceSize.
    destruct (sliceSize >? 0) eqn:Hgt; [reflexivity | lia]. }
  assert (Hbl : exists bl, forall t,
             getBlockList env u1 t = Ret ((bl, None), u2, t ++ [ReqUserInfo])).
  { unfold getBlockList. mstep.
    destruct (sliceSize =? Size info) eqn:Heq.
    - exists [Md5 info]. intros t. rewrite Hread1. mstep.
      change (Size info) with size. rewrite Hgs1. mstep.
      change (Size info) with size in Heq. rewrite Heq. reflexivity.
    - eexists. intros t. rewrite Hread1. mstep.
      change (Size info) with size. rewrite Hgs1. mstep.
      change (Size info) with size in Heq. rewrite Heq.
      destruct (sliceSize <? 0) eqn:Hneg; [lia|]. rewrite Hfile.
      rewrite (blockList_loop_spec env (Z.to_nat sliceSize) ltac:(lia) Hhash) by lia.
      reflexivity. }
  destruct Hbl as [bl Hbl].
  destruct (Hpre (ReqPreCreate (handleSpecialChar path) size bl (env_md5 env content) sm))
    as (pc & Hpc & Hcode & Hrt).
  assert (HPre : PreCreate env u0 tr
                 = Ret ((pc, None), u2,
                        (tr ++ [ReqUserInfo])
                          ++ [ReqPreCreate (handleSpecialChar path) size bl
                                (env_md5 env content) sm])).
  { unfold PreCreate. mstep. rewrite Hread0. mstep. rewrite Hsm. mstep.
    rewrite Hbl. mstep. cbn [Path u2 Size Md5 info].
    rewrite Hpc, Hcode. reflexivity. }
  set (R := fun j : nat => slice_response env (Z.of_nat j)
                             (slice_of sliceSize content (Z.of_nat j))).
  set (n := Z.to_nat sliceNum).
  assert (Hloop : forall t,
             Upload_loop env (UploadID pc) sliceSize n 0 content false [] u2 t
             = Ret ((map R (seq 0 n), None), u2,
                    t ++ flat_map (fun j => slice_requests env (UploadID pc) (Z.of_nat j)
                                              (slice_of sliceSize content (Z.of_nat j)))
                           (seq 0 n))).
  { intros t.
    assert (Hle : Z.of_nat (0 + n)
                  <= Float64.ceil_quot (Z.of_nat (List.length content)) sliceSize)
      by (subst n sliceNum size; lia).
    exact (Upload_loop_all_sent env (UploadID pc) sliceSize content
             (proj1 Hss) Hctx Hread (fun j data => proj1 (Hslices j data))
             n 0%nat content [] u2 t eq_refl Hle). }
  assert (Hcollect :
            Upload_collect (map R (seq 0 n))
              (mkCollected zero_UploadResponse None (repeat EmptyString n)
                 (repeat EmptyString n) 0)
            = Ret (mkCollected zero_UploadResponse None md5s md5s size)).
  { pose proof (Upload_collect_echo n R
                  (fun j => proj1 (Hslices _ _))) as Hecho.
    assert (Hatoi : forall j, (j < n)%nat ->
               Atoi (PartSeq (Response (R j))) = Some (Z.of_nat j)).
    { intros j Hj. subst R. cbv beta. rewrite (proj2 (Hslices _ _)).
      apply Atoi_of_Itoa. unfold Int64.in_range, Int64.min_int, Int64.max_int.
      subst n. lia. }
    specialize (Hecho Hatoi n 0%nat zero_UploadResponse None 0 ltac:(lia)).
    cbn [seq map app Nat.add] in Hecho. rewrite Nat.sub_0_r in Hecho.
    rewrite Hecho. rewrite Nat.sub_diag. cbn [repeat]. rewrite app_nil_r.
    assert (Hsum : fold_left Int64.add (map (fun j => upr_Size (R j)) (seq 0 n)) 0
                   = size).
    { assert (Hin : Int64.in_range 0)
        by (unfold Int64.in_range, Int64.min_int, Int64.max_int; lia).
      rewrite <- (wrap64_id _ (fold_add64_range _ 0 Hin)), fold_left_add64.
      assert (Hmap : map (fun j => upr_Size (R j)) (seq 0 n)
                     = map (fun j => Z.of_nat (List.length
                                       (slice_of sliceSize content (Z.of_nat j))))
                         (seq 0 n)).
      { apply map_ext. intros j. subst R. apply slice_response_size. }
      rewrite Hmap, (slices_cover sliceSize content ltac:(lia) n).
      pose proof (ceil_quot_cover size sliceSize ltac:(lia)).
      fold size. fold sliceNum in H.
      rewrite Z.min_r by (subst n; lia).
      apply wrap64_id. unfold Int64.in_range, Int64.min_int, Int64.max_int. lia. }
    rewrite Hsum. reflexivity. }
  destruct (Hcreate (ReqCreate (handleSpecialChar path) (UploadID pc) md5s size))
    as (cr & Hcr & Hcrcode).
  exists cr.
  exists (mkUploadSnapshot (handleSpecialChar path) localFilePath (UploadID pc)
            (env_md5 env content) (env_mtime env) false size size sliceSize sliceNum
            md5s).
  exists u2.
  exists ([ReqUserInfo]
            ++ [ReqPreCreate (handleSpecialChar path) size bl (env_md5 env content) sm]
            ++ flat_map (fun j => slice_requests env (UploadID pc) (Z.of_nat j)
                                    (slice_of sliceSize content (Z.of_nat j)))
                 (seq 0 n)).
  split.
  - unfold Upload. mstep. rewrite HPre. mstep.
    destruct (ReturnType pc =? 2) eqn:Hrt2; [lia|].
    rewrite Hread2. mstep. change (Size info) with size. rewrite Hgs2. mstep.
    rewrite ceil_div_exact by lia. fold sliceNum. rewrite Hfile.
    destruct (sliceNum <? 0) eqn:Hneg; [lia|]. fold n.
    rewrite Hloop. mstep. cbn [DoneSize set_slicing set_sizes set_identity].
    rewrite Hcollect. cbn [c_uploadErr c_blockList c_ret c_DoneSize c_DoneSlices].
    unfold Create. mstep. rewrite Hread2. mstep.
    cbn [Path u2 Size info]. rewrite Hcr, Hcrcode. cbn [negb Z.eqb].
    rewrite <- !app_assoc. reflexivity.
  - cbn [UploadId set_Recoverable set_done set_slicing set_sizes set_identity
           Recoverable DoneSize TotalSize s_SliceSize SliceNum DoneSlices].
    split; [exact Hcr|]. split.
    { rewrite !count_req_app, slice_requests_no_create. reflexivity. }
    repeat split.
Qed.

End UploadAccepted.

(** ** The properties above, at the scenarios *)

Section ScenarioChecks.
Import panfile uploader traces slices strconv.

Lemma resume_validate_keeps_done_size_consistent_witness :
  utilfile.DoneSize (fst (utilfile.ResumeDownload_validate stat_first_only
                            two_parts_snapshot))
  = snapshots.recorded
      (utilfile.DoneParts (fst (utilfile.ResumeDownload_validate stat_first_only
                                  two_parts_snapshot))).
Proof.
  apply (resume_validate_keeps_done_size_consistent stat_first_only two_parts_snapshot).
  - repeat constructor; simpl; lia.
  - vm_compute. discriminate.
  - reflexivity.
Defined.

Lemma GetFileInfo_reads_once_witness :
  GetFileInfo (accepting_world [] 0) true
    (mkUploader "token" "/apps/pan/a.bin" "a.bin"
       (mkLocalFileInfo "d41d8cd98f00b204e9800998ecf8427e" 10 1700000000) 0)
    [ReqUserInfo]
  = Ret ((mkLocalFileInfo "d41d8cd98f00b204e9800998ecf8427e" 10 1700000000, None),
         mkUploader "token" "/apps/pan/a.bin" "a.bin"
           (mkLocalFileInfo "d41d8cd98f00b204e9800998ecf8427e" 10 1700000000) 0,
         [ReqUserInfo]).
Proof.
  refine (proj2 (proj2 (GetFileInfo_reads_once
                          (echoing_world (repeat Byte.x61 10) 0) (accepting_world [] 0)
                          (NewUploader "token" "/apps/pan/a.bin" "a.bin") _ [] []
                          _ _ _)) true [ReqUserInfo]).
  - intros data. discriminate.
  - reflexivity.
Defined.

Lemma GetSliceSize_asks_once_witness :
  GetSliceSize (echoing_world (repeat Byte.x61 10) 2) 100
    (NewUploader "token" "/apps/pan/a.bin" "a.bin") []
  = Ret ((100, None),
         mkUploader "token" "/apps/pan/a.bin" "a.bin" zero_LocalFileInfo 100,
         [ReqUserInfo]).
Proof.
  refine (proj1 (GetSliceSize_asks_once
                   (echoing_world (repeat Byte.x61 10) 2) (accepting_world [] 0)
                   (NewUploader "token" "/apps/pan/a.bin" "a.bin") [] 100 2 _ _ _)).
  - simpl. lia.
  - reflexivity.
  - lia.
Defined.


Lemma Upload_request_order_witness :
  exists pre slices commit,
    [ReqPreCreate "/apps/pan/a.bin" 10
       ["d41d8cd98f00b204e9800998ecf8427e"; "d41d8cd98f00b204e9800998ecf8427e";
        "d41d8cd98f00b204e9800998ecf8427e"]%string
       "d41d8cd98f00b204e9800998ecf8427e" "d41d8cd98f00b204e9800998ecf8427e";
     ReqSuperFile2 "N1-upload" 0 (repeat Byte.x61 4) 0;
     ReqSuperFile2 "N1-upload" 1 (repeat Byte.x61 4) 0;
     ReqSuperFile2 "N1-upload" 2 (repeat Byte.x61 2) 0;
     ReqCreate "/apps/pan/a.bin" "N1-upload"
       ["0cc175b9c0f1b6a831c399e269772661"; "0cc175b9c0f1b6a831c399e269772661";
        "0cc175b9c0f1b6a831c399e269772661"]%string 10]
    = [] ++ pre ++ slices ++ commit
    /\ (count_req is_PreCreate pre <= 1)%nat
    /\ Forall (fun q => is_SuperFile2 q = true) slices
    /\ (commit = [] \/ (List.length commit = 1)%nat).
Proof.
  destruct (Upload_request_order Float64.amd64
              (echoing_world (repeat Byte.x61 10) 0) slicing_uploader
              slicing_uploader []
              [ReqPreCreate "/apps/pan/a.bin" 10
                 ["d41d8cd98f00b204e9800998ecf8427e"; "d41d8cd98f00b204e9800998ecf8427e";
                  "d41d8cd98f00b204e9800998ecf8427e"]%string
                 "d41d8cd98f00b204e9800998ecf8427e" "d41d8cd98f00b204e9800998ecf8427e";
               ReqSuperFile2 "N1-upload" 0 (repeat Byte.x61 4) 0;
               ReqSuperFile2 "N1-upload" 1 (repeat Byte.x61 4) 0;
               ReqSuperFile2 "N1-upload" 2 (repeat Byte.x61 2) 0;
               ReqCreate "/apps/pan/a.bin" "N1-upload"
                 ["0cc175b9c0f1b6a831c399e269772661"; "0cc175b9c0f1b6a831c399e269772661";
                  "0cc175b9c0f1b6a831c399e269772661"]%string 10]
              (mkUploadResponse 0 EmptyString 2 "/apps/pan/a.bin"
                 "a.bin" 10 "d41d8cd98f00b204e9800998ecf8427e" 42 0)
              (mkUploadSnapshot "/apps/pan/a.bin" "a.bin" "N1-upload"
                 "d41d8cd98f00b204e9800998ecf8427e" 1700000000 false 10 10 4 3
                 ["0cc175b9c0f1b6a831c399e269772661"; "0cc175b9c0f1b6a831c399e269772661";
                  "0cc175b9c0f1b6a831c399e269772661"]%string)
              None)
    as (pre & slices & commit & Htr & _ & Hpre & Hslices & Hcommit & _).
  - vm_compute. reflexivity.
  - exists pre, slices, commit. split; [exact Htr|]. split; [exact Hpre|]. split.
    + eapply Forall_impl; [exact Hslices|].
      intros q (c & j & t & _ & -> & _). reflexivity.
    + destruct Hcommit as [-> | (size & ->)]; [left | right]; reflexivity.
Defined.

Lemma ResumeUpload_sends_missing_slices_only_witness :
  exists slices commit,
    [ReqSuperFile2 "N1-upload" 1 (repeat Byte.x61 4) 0;
     ReqSuperFile2 "N1-upload" 2 (repeat Byte.x61 2) 0;
     ReqCreate "/apps/pan/a.bin" "N1-upload"
       ["md5-0"; "0cc175b9c0f1b6a831c399e269772661";
        "0cc175b9c0f1b6a831c399e269772661"]%string 10]
    = [] ++ slices ++ commit
    /\ Forall (fun q => exists j data t,
                 q = ReqSuperFile2 "N1-upload" j data t /\ 1 <= j < 3) slices.
Proof.
  destruct (ResumeUpload_sends_missing_slices_only
              (echoing_world (repeat Byte.x61 10) 0) first_done_snapshot
              (mkUploadSnapshot "/apps/pan/a.bin" "a.bin" "N1-upload"
                 "d41d8cd98f00b204e9800998ecf8427e" 1700000000 false 10 10 4 3
                 ["md5-0"; "0cc175b9c0f1b6a831c399e269772661";
                  "0cc175b9c0f1b6a831c399e269772661"]%string)
              slicing_uploader slicing_uploader []
              [ReqSuperFile2 "N1-upload" 1 (repeat Byte.x61 4) 0;
               ReqSuperFile2 "N1-upload" 2 (repeat Byte.x61 2) 0;
               ReqCreate "/apps/pan/a.bin" "N1-upload"
                 ["md5-0"; "0cc175b9c0f1b6a831c399e269772661";
                  "0cc175b9c0f1b6a831c399e269772661"]%string 10]
              (mkUploadResponse 0 EmptyString 2 "/apps/pan/a.bin"
                 "a.bin" 10 "d41d8cd98f00b204e9800998ecf8427e" 42 0)
              None)
    as (slices & commit & Htr & Hslices & _).
  - simpl. lia.
  - vm_compute. discriminate.
  - vm_compute. reflexivity.
  - exists slices, commit. split; [exact Htr|].
    eapply Forall_impl; [exact Hslices|].
    intros q (c & j & t & _ & -> & Hj & Hblank).
    exists j, (slice_of (s_SliceSize first_done_snapshot) c j), t.
    split; [reflexivity|]. split; [|exact (proj2 Hj)].
    destruct (Z_le_gt_dec 1 j) as [Hle | Hgt]; [exact Hle|].
    assert (j = 0) by lia. subst j.
    destruct Hblank as [Hb | Hb]; discriminate Hb.
Defined.

Lemma Upload_of_accepted_file_witness :
  exists r snap u' mid,
    Upload Float64.amd64 (echoing_world (repeat Byte.x61 10) 0)
      (NewUploader "token" "/apps/pan/a.bin" "a.bin") []
    = Ret ((r, snap, None), u',
           [] ++ mid
              ++ [ReqCreate "/apps/pan/a.bin" "N1-upload"
                    ["0cc175b9c0f1b6a831c399e269772661"%string] 10])
    /\ Recoverable snap = false
    /\ DoneSize snap = 10
    /\ DoneSlices snap = ["0cc175b9c0f1b6a831c399e269772661"%string].
Proof.
  destruct (Upload_of_accepted_file Float64.amd64
              (echoing_world (repeat Byte.x61 10) 0)
              "token" "/apps/pan/a.bin" "a.bin" [] (repeat Byte.x61 10) 0)
    as (r & snap & u' & mid & Hrun & _ & _ & Hrec & Hdone & _ & _ & _ & Hslices).
  - reflexivity.
  - simpl. lia.
  - intros data. discriminate.
  - intros n. reflexivity.
  - intros k. reflexivity.
  - intros j. reflexivity.
  - intros j. reflexivity.
  - intros req. eexists. split; [reflexivity|]. split; [reflexivity | discriminate].
  - intros j data. split; reflexivity.
  - intros req. eexists. split; reflexivity.
  - exists r, snap, u', mid.
    assert (Hid : UploadId snap = "N1-upload"%string).
    { vm_compute in Hrun. injection Hrun as _ Hsnap _ _. rewrite <- Hsnap. reflexivity. }
    rewrite Hid in Hrun.
    split; [exact Hrun|]. split; [exact Hrec|]. split; [exact Hdone | exact Hslices].
Defined.

End ScenarioChecks.

(** ** Preparing a download *)

Section Preparing.
Import utilfile fetch.

Lemma Atoi_in_range (s : string) (v : Z) :
  uploader.Atoi s = Some v -> Int64.in_range v.
Proof.
  assert (Hsigned : forall sign digits, uploader.parse_signed sign digits = Some v ->
                                        Int64.in_range v).
  { intros sign digits. unfold uploader.parse_signed.
    destruct digits as [|c r]; [discriminate|].
    destruct (uploader.parse_digits (String c r) 0) as [v0|]; [|discriminate].
    destruct ((Int64.min_int <=? sign * v0) && (sign * v0 <=? Int64.max_int)) eqn:Hb;
      [|discriminate].
    intros [= <-]. apply andb_true_iff in Hb as [H1 H2].
    apply Z.leb_le in H1, H2. split; assumption. }
  unfold uploader.Atoi. destruct s as [|c r]; [discriminate|].
  destruct (Ascii.eqb c "+"); [apply Hsigned|].
  destruct (Ascii.eqb c "-"); apply Hsigned.
Qed.

(** A call of [Prepare] that fails leaves the downloader as it is. *)
Lemma Prepare_failure (answer : error + HeadResponse) (d : Downloader) :
  snd (Prepare answer d) <> None -> fst (fst (Prepare answer d)) = d.
Proof.
  unfold Prepare. destruct answer as [e | resp]; [reflexivity|].
  destruct (head_StatusCode resp >? 299); [reflexivity|].
  destruct (ParseInt (Content_Length resp)); [intros H; contradiction H|]; reflexivity.
Qed.

(** A call of [Prepare] that succeeds has read the size and the range
    support off the response. *)
Lemma Prepare_success (answer : error + HeadResponse) (d : Downloader) :
  snd (Prepare answer d) = None ->
  exists resp size,
    answer = inr resp
    /\ head_StatusCode resp <= 299
    /\ ParseInt (Content_Length resp) = Some size
    /\ Int64.in_range size
    /\ Prepare answer d
       = (set_FileSize d size, String.eqb (Accept_Ranges resp) "bytes", None).
Proof.
  unfold Prepare. destruct answer as [e | resp]; [discriminate|].
  destruct (head_StatusCode resp >? 299) eqn:Hs; [discriminate|].
  destruct (ParseInt (Content_Length resp)) as [size|] eqn:Hp; [|discriminate].
  intros _. exists resp, size. rewrite Z.gtb_ltb in Hs. apply Z.ltb_ge in Hs.
  split; [reflexivity|]. split; [exact Hs|]. split; [exact Hp|].
  split; [exact (Atoi_in_range _ _ Hp) | reflexivity].
Qed.

Lemma attempts_from_step (i n : nat) :
  (i < n)%nat ->
  attempts_from i n
  = ((match i with O => [] | _ => [Slept 1] end) ++ [Tried i]) ++ attempts_from (S i) n.
Proof.
  intros Hlt. unfold attempts_from.
  replace (n - i)%nat with (S (n - S i)) by lia. cbn [seq flat_map].
  rewrite <- app_assoc. reflexivity.
Qed.

Lemma attempts_from_last (i : nat) :
  attempts_from i i = (match i with O => [] | _ => [Slept 1] end) ++ [Tried i].
Proof. unfold attempts_from. rewrite Nat.sub_diag. reflexivity. Qed.

Lemma TryPrepare_loop_spec (head : nat -> error + HeadResponse) (d : Downloader) :
  forall (k i : nat) (sr : bool) (e : option error),
    (0 < k)%nat ->
    (forall n, (i <= n < i + k)%nat ->
       snd (Prepare (head n) d) = None ->
       (forall j, (i <= j < n)%nat -> snd (Prepare (head j) d) <> None) ->
       TryPrepare_loop head k i d sr e = (Prepare (head n) d, attempts_from i n))
    /\ ((forall j, (i <= j < i + k)%nat -> snd (Prepare (head j) d) <> None) ->
        TryPrepare_loop head k i d sr e
        = (Prepare (head (i + k - 1)%nat) d, attempts_from i (i + k - 1))).
Proof.
  induction k as [|k IH]; intros i sr e Hk; [lia|].
  cbn [TryPrepare_loop].
  pose proof (Prepare_failure (head i) d) as Hkeep.
  destruct (Prepare (head i) d) as [[d' sr'] err'] eqn:Hp. cbn [fst snd] in Hkeep.
  split.
  - intros n Hn Hok Hfail.
    destruct (Nat.eq_dec n i) as [-> | Hne].
    + rewrite Hp in Hok |- *. cbn [snd] in Hok. subst err'.
      rewrite attempts_from_last. reflexivity.
    + pose proof (Hfail i ltac:(lia)) as Hi. rewrite Hp in Hi. cbn [snd] in Hi.
      destruct err' as [e'|]; [|contradiction].
      rewrite (Hkeep ltac:(discriminate)).
      destruct k as [|k']; [lia|].
      destruct (IH (S i) sr' (Some e') ltac:(lia)) as [IHok _].
      assert (Hfail' : forall j, (S i <= j < n)%nat -> snd (Prepare (head j) d) <> None)
        by (intros j Hj; apply Hfail; lia).
      rewrite (IHok n ltac:(lia) Hok Hfail').
      rewrite (attempts_from_step i n) by lia.
      destruct (Prepare (head n) d) as [[? ?] ?]. reflexivity.
  - intros Hfail.
    pose proof (Hfail i ltac:(lia)) as Hi. rewrite Hp in Hi. cbn [snd] in Hi.
    destruct err' as [e'|]; [|contradiction].
    rewrite (Hkeep ltac:(discriminate)).
    destruct k as [|k'].
    + cbn [TryPrepare_loop]. replace (i + 1 - 1)%nat with i by lia.
      rewrite Hp, attempts_from_last, (Hkeep ltac:(discriminate)), app_nil_r.
      reflexivity.
    + destruct (IH (S i) sr' (Some e') ltac:(lia)) as [_ IHfail].
      assert (Hfail' : forall j, (S i <= j < S i + S k')%nat ->
                                 snd (Prepare (head j) d) <> None)
        by (intros j Hj; apply Hfail; lia).
      rewrite (IHfail Hfail').
      replace (S i + S k' - 1)%nat with (i + S (S k') - 1)%nat by lia.
      rewrite (attempts_from_step i (i + S (S k') - 1)) by lia.
      destruct (Prepare (head (i + S (S k') - 1)%nat) d) as [[? ?] ?]. reflexivity.
Qed.

(** X9. [TryPrepare] sends up to five HEAD requests, a second apart, and
    stops at the first answer that [Prepare] accepts: a status code of at
    most 299 with a decimal [Content-Length] that fits [int64]. The file
    size is then that length and range support is reported exactly when
    [Accept-Ranges] is [bytes]. When all five answers are refused, the
    downloader is left as it was and the error is that of the fifth. *)
Theorem TryPrepare_first_accepted_answer :
  forall (head : nat -> error + HeadResponse) (d : Downloader),
    (forall n, (n < 5)%nat ->
       snd (Prepare (head n) d) = None ->
       (forall j, (j < n)%nat -> snd (Prepare (head j) d) <> None) ->
       exists resp size,
         head n = inr resp
         /\ head_StatusCode resp <= 299
         /\ ParseInt (Content_Length resp) = Some size
         /\ Int64.in_range size
         /\ TryPrepare head d
            = (set_FileSize d size, String.eqb (Accept_Ranges resp) "bytes", None,
               attempts_from 0 n))
    /\ ((forall j, (j < 5)%nat -> snd (Prepare (head j) d) <> None) ->
        exists supportRange e,
          TryPrepare head d = (d, supportRange, Some e, attempts_from 0 4)
          /\ snd (Prepare (head 4%nat) d) = Some e).
Proof.
  intros head d.
  destruct (TryPrepare_loop_spec head d 5 0 false None ltac:(lia)) as [Hok Hfail].
  split.
  - intros n Hn Hsucc Hbefore.
    destruct (Prepare_success _ _ Hsucc) as (resp & size & Hhead & Hst & Hparse & Hr & Hp).
    exists resp, size. split; [exact Hhead|]. split; [exact Hst|].
    split; [exact Hparse|]. split; [exact Hr|].
    unfold TryPrepare.
    assert (Hbefore' : forall j, (0 <= j < n)%nat -> snd (Prepare (head j) d) <> None)
      by (intros j Hj; apply Hbefore; lia).
    rewrite (Hok n ltac:(lia) Hsucc Hbefore'), Hp.
    reflexivity.
  - intros Hall. unfold TryPrepare.
    assert (Hall' : forall j, (0 <= j < 0 + 5)%nat -> snd (Prepare (head j) d) <> None)
      by (intros j Hj; apply Hall; lia).
    rewrite (Hfail Hall'). cbn [Nat.add Nat.sub].
    pose proof (Hall 4%nat ltac:(lia)) as H4.
    pose proof (Prepare_failure (head 4%nat) d H4) as Hkeep.
    destruct (Prepare (head 4%nat) d) as [[d' sr] [e|]] eqn:Hp; [|contradiction].
    cbn [fst snd] in Hkeep. subst d'. exists sr, e. split; reflexivity.
Qed.

End Preparing.

(** ** Merging the parts *)

Section Merging.
Import utilfile fetch.

(** X10. [ensureDirExist] calls [os.MkdirAll] at most three times, a
    second apart, stops at the first call that succeeds, and reports an
    error, that of the third call, only when all three have failed. *)
Theorem ensureDirExist_three_tries :
  forall (mkdir : nat -> option error),
    (forall n, (n < 3)%nat -> mkdir n = None ->
       (forall j, (j < n)%nat -> mkdir j <> None) ->
       ensureDirExist mkdir = (None, attempts_from 0 n))
    /\ ((forall j, (j < 3)%nat -> mkdir j <> None) ->
        ensureDirExist mkdir = (mkdir 2%nat, attempts_from 0 2))
    /\ (fst (ensureDirExist mkdir) = None
        <-> exists n, (n < 3)%nat /\ mkdir n = None).
Proof.
  intros mkdir. unfold ensureDirExist. cbn [ensureDirExist_loop].
  split; [|split].
  - intros n Hn Hok Hbefore.
    destruct n as [|[|[|n]]]; [| | |lia].
    + rewrite Hok. reflexivity.
    + pose proof (Hbefore 0%nat ltac:(lia)) as H0.
      destruct (mkdir 0%nat); [|contradiction]. rewrite Hok. reflexivity.
    + pose proof (Hbefore 0%nat ltac:(lia)) as H0.
      pose proof (Hbefore 1%nat ltac:(lia)) as H1.
      destruct (mkdir 0%nat); [|contradiction].
      destruct (mkdir 1%nat); [|contradiction]. rewrite Hok. reflexivity.
  - intros Hall.
    pose proof (Hall 0%nat ltac:(lia)) as H0.
    pose proof (Hall 1%nat ltac:(lia)) as H1.
    pose proof (Hall 2%nat ltac:(lia)) as H2.
    destruct (mkdir 0%nat); [|contradiction].
    destruct (mkdir 1%nat); [|contradiction].
    destruct (mkdir 2%nat); [|contradiction]. reflexivity.
  - split.
    + destruct (mkdir 0%nat) eqn:H0; [|intros _; exists 0%nat; split; [lia | exact H0]].
      destruct (mkdir 1%nat) eqn:H1; [|intros _; exists 1%nat; split; [lia | exact H1]].
      destruct (mkdir 2%nat) eqn:H2; [|intros _; exists 2%nat; split; [lia | exact H2]].
      discriminate.
    + intros (n & Hn & Hok).
      destruct (mkdir 0%nat) eqn:H0; [|reflexivity].
      destruct (mkdir 1%nat) eqn:H1; [|reflexivity].
      destruct (mkdir 2%nat) eqn:H2; [|reflexivity].
      destruct n as [|[|[|n]]]; [congruence | congruence | congruence | lia].
Qed.

Lemma copy_parts_ok (w : MergeWorld) :
  forall (parts : list Part) (i : nat) (merged : list Byte.byte) (totalSize : Z)
         (progress : list Z),
    (forall j, (i <= j < i + List.length parts)%nat -> merge_ctx w j = None) ->
    Forall (copies_whole w) parts ->
    copy_parts w parts i merged totalSize progress
    = (None, merged ++ concat (part_data w parts),
       fold_left Int64.add
         (map (fun data => Z.of_nat (List.length data)) (part_data w parts)) totalSize,
       progress ++ map (fun data => Z.of_nat (List.length data)) (part_data w parts)).
Proof.
  induction parts as [|p rest IH]; intros i merged totalSize progress Hctx Hall.
  - cbn. rewrite !app_nil_r. reflexivity.
  - inversion Hall as [|? ? [data Hdata] Hrest]; subst.
    cbn [copy_parts part_data map concat fold_left].
    rewrite (Hctx i) by (cbn [List.length]; lia). rewrite Hdata.
    rewrite IH; [|intros j Hj; apply Hctx; cbn [List.length]; lia | exact Hrest].
    unfold part_data. rewrite <- !app_assoc. reflexivity.
Qed.

Lemma copy_parts_none (w : MergeWorld) :
  forall (parts : list Part) (i : nat) (merged : list Byte.byte) (totalSize : Z)
         (progress : list Z) m t pr,
    copy_parts w parts i merged totalSize progress = (None, m, t, pr) ->
    (forall j, (i <= j < i + List.length parts)%nat -> merge_ctx w j = None)
    /\ Forall (copies_whole w) parts.
Proof.
  induction parts as [|p rest IH]; intros i merged totalSize progress m t pr.
  - intros _. split; [cbn; intros j Hj; lia | constructor].
  - cbn [copy_parts].
    destruct (merge_ctx w i) eqn:Hctx; [discriminate|].
    destruct (part_file w (Part_FilePath p)) as [e | data [e|]] eqn:Hfile;
      [discriminate | discriminate |].
    intros Hrun. apply IH in Hrun as [Hc Hall]. split.
    + intros j Hj. cbn [List.length] in Hj.
      destruct (Nat.eq_dec j i) as [-> | Hne]; [exact Hctx | apply Hc; lia].
    + constructor; [exists data; exact Hfile | exact Hall].
Qed.

Lemma sum_lengths_concat (datas : list (list Byte.byte)) :
  fold_right Z.add 0 (map (fun data => Z.of_nat (List.length data)) datas)
  = Z.of_nat (List.length (concat datas)).
Proof.
  induction datas as [|data datas IH]; [reflexivity|].
  cbn [map fold_right concat]. rewrite length_app, IH. lia.
Qed.

Lemma mergeFileParts_none_iff (w : MergeWorld) (d : Downloader) (parts : list Part)
    (merged : list Byte.byte) (progress : list Z) :
  mergeFileParts w d parts = (None, Some merged, progress)
  <-> fst (ensureDirExist (merge_mkdir w)) = None
      /\ merge_create w = None
      /\ (forall j, (j < List.length parts)%nat -> merge_ctx w j = None)
      /\ Forall (copies_whole w) parts
      /\ merged = concat (part_data w parts)
      /\ progress = map (fun data => Z.of_nat (List.length data)) (part_data w parts)
      /\ fold_left Int64.add progress 0 = FileSize d.
Proof.
  unfold mergeFileParts. split.
  - destruct (fst (ensureDirExist (merge_mkdir w))); [discriminate|].
    destruct (merge_create w); [discriminate|].
    destruct (copy_parts w parts 0 [] 0 []) as [[[err m] t] pr] eqn:Hcopy.
    destruct err; [discriminate|].
    destruct (negb (t =? FileSize d)) eqn:Hsize; [discriminate|].
    intros [= <- <-].
    destruct (copy_parts_none _ _ _ _ _ _ _ _ _ Hcopy) as [Hctx Hall].
    rewrite copy_parts_ok in Hcopy; [|exact Hctx | exact Hall].
    injection Hcopy as <- <- <-. cbn [app].
    apply negb_false_iff, Z.eqb_eq in Hsize.
    repeat split; try assumption. intros j Hj. apply Hctx. lia.
  - intros (Hdir & Hcreate & Hctx & Hall & -> & -> & Hsum).
    rewrite Hdir, Hcreate.
    rewrite copy_parts_ok; [|intros j Hj; apply Hctx; lia | exact Hall].
    cbn [app]. rewrite Hsum, Z.eqb_refl. reflexivity.
Qed.

Lemma sum64_lengths (datas : list (list Byte.byte)) :
  Int64.wrap64
    (fold_left Int64.add (map (fun data => Z.of_nat (List.length data)) datas) 0)
  = Int64.wrap64 (Z.of_nat (List.length (concat datas))).
Proof. rewrite fold_left_add64, sum_lengths_concat. reflexivity. Qed.

(** X11. [mergeFileParts] returns no error exactly when the directory
    and the target file can be made, the context is live at every part,
    every part file can be opened and copied to its end, and the byte
    counts add up, in [int64], to the downloader's [FileSize]. The file it
    leaves is then the part files one after the other in the order of the
    parts, its length is [FileSize], and one report per part has been made
    with the length of that part's file. *)
Theorem mergeFileParts_succeeds_iff :
  forall (w : MergeWorld) (d : Downloader) (parts : list Part)
         (merged : list Byte.byte) (progress : list Z),
    (mergeFileParts w d parts = (None, Some merged, progress)
     <-> fst (ensureDirExist (merge_mkdir w)) = None
         /\ merge_create w = None
         /\ (forall j, (j < List.length parts)%nat -> merge_ctx w j = None)
         /\ Forall (copies_whole w) parts
         /\ merged = concat (part_data w parts)
         /\ progress = map (fun data => Z.of_nat (List.length data)) (part_data w parts)
         /\ fold_left Int64.add progress 0 = FileSize d)
    /\ (mergeFileParts w d parts = (None, Some merged, progress) ->
        Int64.wrap64 (Z.of_nat (List.length merged)) = FileSize d).
Proof.
  intros w d parts merged progress.
  split; [apply mergeFileParts_none_iff|].
  intros Hrun. apply mergeFileParts_none_iff in Hrun as (_ & _ & _ & _ & -> & -> & Hsum).
  rewrite <- Hsum.
  assert (Hin : Int64.in_range 0)
    by (unfold Int64.in_range, Int64.min_int, Int64.max_int; lia).
  rewrite <- (wrap64_id _ (fold_add64_range _ 0 Hin)). symmetry. apply sum64_lengths.
Qed.

Lemma plan_parts_sum (parts jobs : list Part) :
  Forall2 (fun p j => From p = From j /\ To p = To j) parts jobs ->
  fold_right Z.add 0 (map (fun p => To p - From p + 1) parts)
  = fold_right Z.add 0 (map (fun p => To p - From p + 1) jobs).
Proof.
  induction 1 as [|p j parts jobs [HF HT] _ IH]; [reflexivity|].
  cbn [map fold_right]. rewrite IH, HF, HT. reflexivity.
Qed.

Lemma holds_part_data (w : MergeWorld) (parts : list Part) :
  Forall (holds_part w) parts ->
  Forall (copies_whole w) parts
  /\ map (fun data => Z.of_nat (List.length data)) (part_data w parts)
     = map (fun p => To p - From p + 1) parts.
Proof.
  induction 1 as [|p parts (data & Hfile & Hlen) _ [IH1 IH2]].
  - split; [constructor | reflexivity].
  - split; [constructor; [exists data; exact Hfile | exact IH1]|].
    cbn [part_data map]. rewrite Hfile. f_equal; [exact Hlen | exact IH2].
Qed.

(** The lengths of the planned parts add up to the file size. *)
Lemma plan_lengths_sum (pf : Float64.Platform) (d : Downloader) (plan : Plan) :
  0 <= FileSize d <= Int64.max_int ->
  Download_plan pf d = Ret plan ->
  fold_right Z.add 0 (map (fun p => To p - From p + 1) (plan_jobs_of plan))
  = FileSize d.
Proof.
  intros HF Hplan.
  destruct (Download_plan_inv pf d plan Hplan) as (_ & HT & Heach & Hjobs).
  assert (HE : plan_eachSize plan = FileSize d / plan_totalPart plan).
  { rewrite Heach, Z.quot_div_nonneg by lia. apply wrap64_id.
    unfold Int64.in_range, Int64.min_int, Int64.max_int in *.
    assert (0 <= FileSize d / plan_totalPart plan <= FileSize d).
    { split; [apply Z.div_pos; lia|]. apply Z.div_le_upper_bound; nia. }
    lia. }
  destruct (plan_jobs_tiles (FileSize d) (plan_totalPart plan) HF HT)
    as (_ & _ & _ & Hsum).
  rewrite <- HE, <- Hjobs in Hsum. exact Hsum.
Qed.

(** X12. The parts that [Download] plans merge into the whole file: for
    a file size within [int64], if the part files, taken in the order of
    the plan, each hold as many bytes as their part is long ([To - From +
    1], which is what [downloadPart] checks), then [mergeFileParts], given
    a live context and a target it can create, returns no error, and the
    file it leaves has [FileSize] bytes. *)
Theorem planned_parts_merge :
  forall (pf : Float64.Platform) (w : MergeWorld) (d : Downloader) (plan : Plan)
         (parts : list Part),
    0 <= FileSize d <= Int64.max_int ->
    Download_plan pf d = Ret plan ->
    Forall2 (fun p j => From p = From j /\ To p = To j) parts (plan_jobs_of plan) ->
    Forall (holds_part w) parts ->
    fst (ensureDirExist (merge_mkdir w)) = None ->
    merge_create w = None ->
    (forall j, merge_ctx w j = None) ->
    mergeFileParts w d parts
    = (None, Some (concat (part_data w parts)),
       map (fun p => To p - From p + 1) parts)
    /\ Z.of_nat (List.length (concat (part_data w parts))) = FileSize d.
Proof.
  intros pf w d plan parts HF Hplan Hsame Hhold Hdir Hcreate Hctx.
  destruct (holds_part_data w parts Hhold) as [Hall Hlens].
  assert (Htotal : fold_right Z.add 0 (map (fun p => To p - From p + 1) parts)
                   = FileSize d).
  { rewrite (plan_parts_sum _ _ Hsame). exact (plan_lengths_sum pf d plan HF Hplan). }
  assert (Hlen : Z.of_nat (List.length (concat (part_data w parts))) = FileSize d).
  { rewrite <- sum_lengths_concat, Hlens. exact Htotal. }
  split; [|exact Hlen].
  rewrite <- Hlens.
  apply mergeFileParts_none_iff.
  split; [exact Hdir|]. split; [exact Hcreate|]. split; [intros j _; apply Hctx|].
  split; [exact Hall|]. split; [reflexivity|]. split; [reflexivity|].
  assert (Hin : Int64.in_range 0)
    by (unfold Int64.in_range, Int64.min_int, Int64.max_int; lia).
  rewrite <- (wrap64_id _ (fold_add64_range _ 0 Hin)), sum64_lengths, Hlen.
  apply wrap64_id. unfold Int64.in_range, Int64.min_int, Int64.max_int in *. lia.
Qed.

End Merging.

(** ** Collecting the parts and fetching whole *)

Section Collecting.
Import utilfile fetch.

(** The books of the collection loop of [Download]. *)
Lemma Download_collect_books :
  forall (resps : list DownloadPartResponse) (c c' : Collecting),
    Int64.in_range (col_DoneSize c) ->
    Download_collect resps c = Ret c' ->
    col_DoneSize c' = Int64.wrap64 (col_DoneSize c + fetched resps)
    /\ col_delFiles c' = col_delFiles c ++ failed_files resps
    /\ col_err c' = match col_err c with
                    | Some e => Some e
                    | None => first_failure resps
                    end
    /\ List.length (col_doneParts c') = List.length (col_doneParts c)
    /\ map dps_From (col_snapParts c') = map dps_From (col_snapParts c)
    /\ map dps_To (col_snapParts c') = map dps_To (col_snapParts c).
Proof.
  induction resps as [|resp rest IH]; intros c c' Hr; cbn [Download_collect].
  - intros [= <-]. unfold fetched, failed_files. cbn.
    rewrite Z.add_0_r, app_nil_r, (wrap64_id _ Hr).
    destruct (col_err c); repeat split.
  - unfold fetched, failed_files. cbn [map fold_right flat_map first_failure].
    fold (fetched rest). fold (failed_files rest).
    destruct (resp_Error resp) as [e|].
    + intros Hrun. apply IH in Hrun as (H1 & H2 & H3 & H4 & H5 & H6); [|exact Hr].
      cbn [col_DoneSize col_delFiles col_err col_doneParts col_snapParts] in *.
      split; [rewrite H1; f_equal; lia|].
      split.
      { rewrite H2.
        destruct (String.eqb (Part_FilePath (resp_Part resp)) EmptyString);
          [reflexivity | rewrite <- app_assoc; reflexivity]. }
      split; [rewrite H3; destruct (col_err c); reflexivity|].
      repeat split; assumption.
    + destruct (col_snapParts c !! Z.to_nat (Index (resp_Part resp))) as [sp|] eqn:Hsp;
        [|discriminate].
      destruct (_ || _); [discriminate|].
      intros Hrun. apply IH in Hrun as (H1 & H2 & H3 & H4 & H5 & H6);
        [|apply wrap64_range].
      cbn [col_DoneSize col_delFiles col_err col_doneParts col_snapParts] in *.
      split.
      { rewrite H1. unfold Int64.add. rewrite part_len_wrap, wrap64_add_r, wrap64_add_l.
        f_equal. lia. }
      split; [exact H2|]. split; [exact H3|].
      split; [rewrite H4; apply length_insert|].
      assert (Hkeep : forall (f : DownloadPartSnapshot -> Z),
                 f (set_path sp (Part_FilePath (resp_Part resp))) = f sp ->
                 map f (<[Z.to_nat (Index (resp_Part resp))
                          := set_path sp (Part_FilePath (resp_Part resp))]>
                          (col_snapParts c))
                 = map f (col_snapParts c)).
      { intros f Hf. rewrite list_fmap_insert, Hf.
        apply list_insert_id. rewrite list_lookup_fmap, Hsp. reflexivity. }
      split; [rewrite H5 | rewrite H6]; apply Hkeep; reflexivity.
Qed.

(** The loop does not panic on indices that exist. *)
Lemma Download_collect_returns :
  forall (resps : list DownloadPartResponse) (c : Collecting),
    List.length (col_snapParts c) = List.length (col_doneParts c) ->
    Forall (fun r => 0 <= Index (resp_Part r)
                     < Z.of_nat (List.length (col_doneParts c))) resps ->
    exists c', Download_collect resps c = Ret c'.
Proof.
  induction resps as [|resp rest IH]; intros c Hlen Hall; cbn [Download_collect].
  - exists c. reflexivity.
  - inversion Hall as [|? ? Hidx Hrest]; subst.
    destruct (resp_Error resp) as [e|]; [apply IH; assumption|].
    destruct (col_snapParts c !! Z.to_nat (Index (resp_Part resp))) as [sp|] eqn:Hsp.
    + destruct ((Index (resp_Part resp) <? 0)
                || (Z.of_nat (List.length (col_doneParts c)) <=? Index (resp_Part resp)))
        eqn:Hb.
      { apply orb_true_iff in Hb as [Hb | Hb]; lia. }
      apply IH; cbn [col_snapParts col_doneParts]; rewrite !length_insert; assumption.
    + apply lookup_ge_None in Hsp. lia.
Qed.

Lemma plan_loop_index (F E T : Z) :
  forall (k : nat) (i prevTo : Z) (j : nat) (p : Part),
    plan_loop F E T k i prevTo !! j = Some p -> Index p = i + Z.of_nat j.
Proof.
  induction k as [|k IH]; intros i prevTo j p; cbn [plan_loop]; [discriminate|].
  destruct j as [|j]; cbn.
  - intros [= <-]. cbn. lia.
  - intros Hp. apply IH in Hp. lia.
Qed.

Lemma sum_map_permutation {A : Type} (f : A -> Z) (l l' : list A) :
  Permutation l l' ->
  fold_right Z.add 0 (map f l) = fold_right Z.add 0 (map f l').
Proof. induction 1; cbn; lia. Qed.

Lemma fetched_all (resps : list DownloadPartResponse) :
  Forall (fun r => resp_Error r = None) resps ->
  fetched resps
  = fold_right Z.add 0
      (map (fun t : Z * Z * Z => snd t - snd (fst t) + 1)
         (map (fun r => range_of (resp_Part r)) resps))
  /\ failed_files resps = []
  /\ first_failure resps = None.
Proof.
  unfold fetched, failed_files.
  induction 1 as [|r resps Hr _ (IH1 & IH2 & IH3)]; [repeat split|].
  cbn [map fold_right flat_map first_failure]. rewrite Hr, IH1, IH2, IH3.
  repeat split.
Qed.

(** X13. The books of the collection loop of [Download], whatever the
    order in which the responses arrive. When it does not panic,
    [DoneSize] grows by the lengths of the parts that came without an
    error, in [int64]; the temp files of those that came with one are
    queued for deletion, in the order of arrival, and no others; the error
    is the one the producer loop had set, or else that of the first failed
    response; and the recorded parts keep their number and byte ranges.
    And when every planned part has come, without an error, the loop does
    return, with [DoneSize] at the file size, no error and nothing to
    delete. *)
Theorem Download_collect_accounts :
  (forall (resps : list DownloadPartResponse) (c c' : Collecting),
     Int64.in_range (col_DoneSize c) ->
     Download_collect resps c = Ret c' ->
     col_DoneSize c' = Int64.wrap64 (col_DoneSize c + fetched resps)
     /\ col_delFiles c' = col_delFiles c ++ failed_files resps
     /\ col_err c' = match col_err c with
                     | Some e => Some e
                     | None => first_failure resps
                     end
     /\ List.length (col_doneParts c') = List.length (col_doneParts c)
     /\ map dps_From (col_snapParts c') = map dps_From (col_snapParts c)
     /\ map dps_To (col_snapParts c') = map dps_To (col_snapParts c))
  /\
  (forall (pf : Float64.Platform) (d : Downloader) (plan : Plan)
          (snapshot : DownloadSnapshot) (resps : list DownloadPartResponse),
     0 <= FileSize d <= Int64.max_int ->
     Download_plan pf d = Ret plan ->
     DoneSize snapshot = 0 ->
     Forall (fun r => resp_Error r = None) resps ->
     Permutation (map (fun r => range_of (resp_Part r)) resps)
       (map range_of (plan_jobs_of plan)) ->
     exists c',
       Download_collect resps (Download_collecting plan snapshot None) = Ret c'
       /\ col_DoneSize c' = FileSize d
       /\ col_err c' = None
       /\ col_delFiles c' = []).
Proof.
  split; [exact Download_collect_books|].
  intros pf d plan snapshot resps HF Hplan Hzero Hok Hperm.
  destruct (Download_plan_inv pf d plan Hplan) as (_ & HT & _ & Hjobs).
  assert (Hlenjobs : List.length (plan_jobs_of plan) = Z.to_nat (plan_totalPart plan)).
  { rewrite Hjobs. unfold plan_jobs. apply plan_loop_length. }
  assert (Hidx : Forall (fun r => 0 <= Index (resp_Part r)
                                  < Z.of_nat (Z.to_nat (plan_totalPart plan))) resps).
  { apply Forall_forall. intros r Hr.
    assert (Hin : In (range_of (resp_Part r)) (map range_of (plan_jobs_of plan))).
    { eapply Permutation_in; [exact Hperm|]. apply in_map_iff.
      exists r. split; [reflexivity|]. apply list_elem_of_In. exact Hr. }
    apply in_map_iff in Hin as (job & Heq & Hjob).
    apply list_elem_of_In, list_elem_of_lookup in Hjob as [n Hn].
    pose proof (lookup_lt_Some _ _ _ Hn) as Hlt. rewrite Hlenjobs in Hlt.
    rewrite Hjobs in Hn. apply plan_loop_index in Hn.
    injection Heq as Hi _ _. rewrite <- Hi, Hn. lia. }
  destruct (Download_collect_returns resps (Download_collecting plan snapshot None))
    as [c' Hrun].
  { cbn [Download_collecting col_snapParts col_doneParts Download_plan_snapshot DoneParts].
    rewrite length_map, repeat_length. exact Hlenjobs. }
  { cbn [Download_collecting col_doneParts]. rewrite repeat_length. exact Hidx. }
  exists c'. split; [exact Hrun|].
  apply Download_collect_books in Hrun as (H1 & H2 & H3 & _).
  2:{ cbn [Download_collecting col_DoneSize]. rewrite Hzero.
      unfold Int64.in_range, Int64.min_int, Int64.max_int. lia. }
  destruct (fetched_all resps Hok) as (Hf & Hfiles & Hfirst).
  cbn [Download_collecting col_DoneSize col_delFiles col_err] in H1, H2, H3.
  rewrite Hfiles in H2. rewrite Hfirst in H3.
  split; [|split; [exact H3 | exact H2]].
  rewrite H1, Hzero, Hf, (sum_map_permutation _ _ _ Hperm), map_map.
  cbn [range_of fst snd]. rewrite (plan_lengths_sum pf d plan HF Hplan).
  apply wrap64_id. unfold Int64.in_range, Int64.min_int, Int64.max_int in *. lia.
Qed.

End Collecting.

(** ** Fetching a file whole *)

Section FetchingWhole.
Import utilfile fetch.

Lemma whole_loop_written (w : WholeWorld) :
  (forall i data, whole_write w i data = (List.length data, None)) ->
  forall (reads : list (list Byte.byte)) (i : nat) (last : list Byte.byte)
         (er : ReadErr) (file : list Byte.byte) (doneSize : Z),
    whole_loop w i reads last er file doneSize
    = (match er with ReadFailed e => Some e | _ => None end,
       file ++ concat reads ++ last).
Proof.
  intros Hwrite.
  assert (Hread : forall i data file doneSize,
             exists doneSize',
               whole_read w i data file doneSize = inr (file ++ data, doneSize')).
  { intros i data file doneSize. unfold whole_read.
    destruct data as [|b data]; [exists doneSize; rewrite app_nil_r; reflexivity|].
    rewrite Hwrite. rewrite firstn_all. eexists. reflexivity. }
  induction reads as [|data reads IH]; intros i last er file doneSize;
    cbn [whole_loop concat].
  - destruct (Hread i last file doneSize) as [ds' ->]. cbn [app].
    destruct er; reflexivity.
  - destruct (Hread i data file doneSize) as [ds' ->].
    rewrite IH, <- !app_assoc. reflexivity.
Qed.

(** X14. [DownloadWhole] takes what comes: it looks neither at the
    status code of the response nor at the number of bytes. Once the
    request has been answered, the target has been created and the writes
    go through, a body that ends, in [io.EOF] or in [io.ErrUnexpectedEOF],
    gives no error, whatever the status and however long the body, and the
    file holds the bytes received; a body that ends in another error gives
    that error, and the file with the bytes received so far stays. *)
Theorem DownloadWhole_takes_what_comes :
  forall (w : WholeWorld) (status : Z) (body : Body),
    whole_send w = inr (status, body) ->
    fst (ensureDirExist (whole_mkdir w)) = None ->
    whole_create w = None ->
    (forall i data, whole_write w i data = (List.length data, None)) ->
    DownloadWhole w
    = (match last_err body with ReadFailed e => Some e | _ => None end,
       Some (received body)).
Proof.
  intros w status body Hsend Hdir Hcreate Hwrite.
  unfold DownloadWhole. rewrite Hsend, Hdir, Hcreate.
  rewrite (whole_loop_written w Hwrite). reflexivity.
Qed.

End FetchingWhole.

(** ** A semaphore without permits *)

Section NoPermits.
Import utilfile.

Lemma sched_no_permit_step (resume : bool) (a : sched.Action) (s s' : sched.State) :
  sched.holding s = None -> sched.sem s = 0%nat -> sched.in_flight s = [] ->
  sched.releasing s = 0%nat -> sched.finished s = 0%nat ->
  sched.exec 0 resume a s = Some s' ->
  sched.holding s' = None /\ sched.sem s' = 0%nat /\ sched.in_flight s' = []
  /\ sched.releasing s' = 0%nat /\ sched.finished s' = 0%nat
  /\ (List.length (sched.pending s') <= List.length (sched.pending s))%nat
  /\ (resume = false -> sched.pending s' = sched.pending s \/ sched.pending s' = []).
Proof.
  intros Hh Hsem Hfl Hrel Hfin. destruct s as [pending holding sem in_flight rel fin].
  cbn in Hh, Hsem, Hfl, Hrel, Hfin. subst.
  destruct a; cbn [sched.exec sched.pending sched.holding sched.sem sched.in_flight
                     sched.releasing sched.finished].
  - destruct pending as [|job rest]; [discriminate|].
    destruct (resume && sched.has_file job); discriminate.
  - discriminate.
  - destruct pending as [|job rest]; [discriminate|].
    destruct resume; cbn [andb].
    + destruct (sched.has_file job); [|discriminate].
      intros [= <-]. cbn. repeat split; lia.
    + discriminate.
  - intros [= <-]. cbn. repeat split; try lia. intros _. right. reflexivity.
  - rewrite lookup_nil. discriminate.
  - discriminate.
Qed.

(** X15. With a [PartCoroutineNum] of zero nothing is ever downloaded in
    parts: the semaphore has no room, the producer's first send on it
    never goes through, and in every state the system can reach no task
    has been started or has finished. [Download] can only leave its loop
    early; [ResumeDownload] can, besides, pass over parts that have their
    file. *)
Theorem no_permit_no_part_download :
  (forall (d : Downloader) (jobs : list Part) (capacity : Z)
          (s0 s : sched.State) (acts : list sched.Action),
     PartCoroutineNum d = 0 ->
     sched.Download_start d jobs = Ret (capacity, s0) ->
     sched.run capacity false acts s0 = Some s ->
     sched.in_flight s = [] /\ sched.finished s = 0%nat /\ sched.sem s = 0%nat
     /\ (sched.pending s = jobs \/ sched.pending s = [])
     /\ sched.exec capacity false sched.Acquire s = None)
  /\
  (forall (d : Downloader) (snapshot : DownloadSnapshot) (capacity : Z)
          (s0 s : sched.State) (acts : list sched.Action),
     PartCoroutineNum d = 0 ->
     0 <= snap_TotalPart snapshot ->
     sched.ResumeDownload_start d snapshot = Ret (capacity, s0) ->
     sched.run capacity true acts s0 = Some s ->
     sched.in_flight s = [] /\ sched.finished s = 0%nat /\ sched.sem s = 0%nat
     /\ forall job rest, sched.pending s = job :: rest ->
          sched.has_file job = false ->
          sched.exec capacity true sched.Acquire s = None).
Proof.
  assert (Hrun : forall resume acts s s',
             sched.holding s = None -> sched.sem s = 0%nat -> sched.in_flight s = [] ->
             sched.releasing s = 0%nat -> sched.finished s = 0%nat ->
             sched.run 0 resume acts s = Some s' ->
             sched.holding s' = None /\ sched.sem s' = 0%nat /\ sched.in_flight s' = []
             /\ sched.releasing s' = 0%nat /\ sched.finished s' = 0%nat
             /\ (resume = false ->
                 sched.pending s' = sched.pending s \/ sched.pending s' = [])).
  { intros resume. induction acts as [|a acts IH]; intros s s' Hh Hsem Hfl Hrel Hfin.
    - intros [= <-]. repeat split; try assumption. intros _. left. reflexivity.
    - cbn [sched.run]. destruct (sched.exec 0 resume a s) as [s1|] eqn:Hstep;
        [|discriminate].
      destruct (sched_no_permit_step resume a s s1 Hh Hsem Hfl Hrel Hfin Hstep)
        as (H1 & H2 & H3 & H4 & H5 & _ & H7).
      intros Hrest. destruct (IH s1 s' H1 H2 H3 H4 H5 Hrest)
        as (G1 & G2 & G3 & G4 & G5 & G6).
      repeat split; try assumption. intros Hres.
      destruct (G6 Hres) as [G | G]; [|right; exact G].
      destruct (H7 Hres) as [H | H]; [left | right]; congruence. }
  assert (Hacq : forall resume s,
             sched.holding s = None -> sched.sem s = 0%nat ->
             (resume = false \/ forall job rest, sched.pending s = job :: rest ->
                                  sched.has_file job = false) ->
             sched.exec 0 resume sched.Acquire s = None).
  { intros resume s Hh Hsem Hres. cbn [sched.exec]. rewrite Hh, Hsem.
    destruct (sched.pending s) as [|job rest] eqn:Hp; [reflexivity|].
    cbn. rewrite orb_true_r. reflexivity. }
  split.
  - intros d jobs capacity s0 s acts Hzero. unfold sched.Download_start.
    rewrite Hzero. unfold sched.sem_capacity.
    assert (Hcap : (Z.of_nat (List.length jobs) <? 0) = false) by (apply Z.ltb_ge; lia).
    rewrite Hcap. cbn. intros [= <- <-] Hr.
    apply Hrun in Hr as (G1 & G2 & G3 & G4 & G5 & G6); [|reflexivity..].
    split; [exact G3|]. split; [exact G5|]. split; [exact G2|].
    split; [exact (G6 eq_refl)|]. exact (Hacq false s G1 G2 (or_introl eq_refl)).
  - intros d snapshot capacity s0 s acts Hzero Hnn. unfold sched.ResumeDownload_start.
    rewrite Hzero. unfold sched.sem_capacity.
    assert (Hcap : (snap_TotalPart snapshot <? 0) = false) by (apply Z.ltb_ge; lia).
    rewrite Hcap. cbn. intros [= <- <-] Hr.
    apply Hrun in Hr as (G1 & G2 & G3 & G4 & G5 & G6); [|reflexivity..].
    split; [exact G3|]. split; [exact G5|]. split; [exact G2|].
    intros job rest Hp Hfile. cbn [sched.exec]. rewrite G1, G2, Hp.
    cbn. rewrite orb_true_r. reflexivity.
Qed.

End NoPermits.

(** ** The download properties, at the scenarios *)

Section DownloadScenarioChecks.
Import utilfile fetch.

Lemma TryPrepare_first_accepted_answer_witness :
  exists resp size,
    head_busy_once 1%nat = inr resp
    /\ TryPrepare head_busy_once (NewFileDownloader "http://d.pcs" "a.bin")
       = (set_FileSize (NewFileDownloader "http://d.pcs" "a.bin") size,
          String.eqb (Accept_Ranges resp) "bytes", None,
          [Tried 0; Slept 1; Tried 1])
    /\ size = 104857600.
Proof.
  destruct (proj1 (TryPrepare_first_accepted_answer head_busy_once
                     (NewFileDownloader "http://d.pcs" "a.bin")) 1%nat)
    as (resp & size & Hhead & _ & Hparse & _ & Hrun).
  - lia.
  - reflexivity.
  - intros j Hj. assert (j = 0%nat) by lia. subst j. discriminate.
  - exists resp, size. split; [exact Hhead|]. split; [exact Hrun|].
    injection Hhead as <-. vm_compute in Hparse. injection Hparse as <-. reflexivity.
Defined.

Lemma ensureDirExist_three_tries_witness :
  ensureDirExist mkdir_second_try = (None, [Tried 0; Slept 1; Tried 1]).
Proof.
  apply (proj1 (ensureDirExist_three_tries mkdir_second_try) 1%nat).
  - lia.
  - reflexivity.
  - intros j Hj. assert (j = 0%nat) by lia. subst j. discriminate.
Defined.

Lemma mergeFileParts_succeeds_iff_witness :
  Int64.wrap64 (Z.of_nat (List.length (repeat Byte.x61 3 ++ repeat Byte.x62 2)))
  = FileSize d_5B.
Proof.
  apply (proj2 (mergeFileParts_succeeds_iff two_part_files d_5B two_parts_done
                  (repeat Byte.x61 3 ++ repeat Byte.x62 2) [3; 2])).
  vm_compute. reflexivity.
Defined.

Lemma planned_parts_merge_witness :
  exists plan,
    Download_plan Float64.amd64 d_5B = Ret plan
    /\ mergeFileParts two_part_files d_5B two_parts_done
       = (None, Some (concat (part_data two_part_files two_parts_done)), [3; 2])
    /\ Z.of_nat (List.length (concat (part_data two_part_files two_parts_done)))
       = FileSize d_5B.
Proof.
  assert (Hplan : Download_plan Float64.amd64 d_5B
                  = Ret (mkPlan 2 2 [mkPart 0 0 2 EmptyString; mkPart 1 3 4 EmptyString]))
    by (vm_compute; reflexivity).
  eexists. split; [exact Hplan|].
  apply (planned_parts_merge Float64.amd64 two_part_files d_5B
           (mkPlan 2 2 [mkPart 0 0 2 EmptyString; mkPart 1 3 4 EmptyString])
           two_parts_done).
  - unfold Int64.max_int. simpl. lia.
  - exact Hplan.
  - repeat constructor.
  - repeat constructor; eexists; (split; [reflexivity | reflexivity]).
  - reflexivity.
  - reflexivity.
  - intros j. reflexivity.
Defined.

Lemma Download_collect_accounts_witness :
  exists c',
    Download_collect
      [mkDownloadPartResponse (mkPart 1 3 4 "/tmp/a_1_1") None;
       mkDownloadPartResponse (mkPart 0 0 2 "/tmp/a_0_1") None]
      (Download_collecting
         (mkPlan 2 2 [mkPart 0 0 2 EmptyString; mkPart 1 3 4 EmptyString])
         (mkDownloadSnapshot 42 EmptyString "a.bin" false 0 0 5 0 0 []) None)
    = Ret c'
    /\ col_DoneSize c' = FileSize d_5B
    /\ col_err c' = None
    /\ col_delFiles c' = [].
Proof.
  apply (proj2 Download_collect_accounts Float64.amd64 d_5B).
  - unfold Int64.max_int. simpl. lia.
  - vm_compute. reflexivity.
  - reflexivity.
  - repeat constructor.
  - apply perm_swap.
Defined.

Lemma DownloadWhole_takes_what_comes_witness :
  DownloadWhole not_found_world
  = (None, Some (repeat Byte.x61 4 ++ repeat Byte.x62 5)).
Proof.
  apply (DownloadWhole_takes_what_comes not_found_world 404
           (mkBody [repeat Byte.x61 4] (repeat Byte.x62 5) EOF)).
  - reflexivity.
  - reflexivity.
  - reflexivity.
  - intros i data. reflexivity.
Defined.

Lemma no_permit_no_part_download_witness :
  sched.in_flight (sched.mkState [] None 0 [] 0 0) = []
  /\ sched.finished (sched.mkState [] None 0 [] 0 0) = 0%nat
  /\ sched.sem (sched.mkState [] None 0 [] 0 0) = 0%nat
  /\ (sched.pending (sched.mkState [] None 0 [] 0 0) = three_jobs
      \/ sched.pending (sched.mkState [] None 0 [] 0 0) = [])
  /\ sched.exec 0 false sched.Acquire (sched.mkState [] None 0 [] 0 0) = None.
Proof.
  apply (proj1 no_permit_no_part_download d_no_permit three_jobs 0
           (sched.mkState three_jobs None 0 [] 0 0) (sched.mkState [] None 0 [] 0 0)
           [sched.Stop]).
  - reflexivity.
  - reflexivity.
  - reflexivity.
Defined.

End DownloadScenarioChecks.
